(** * go-genchain: the ethash consensus engine

    A shallow embedding of [consensus/ethash/consensus.go] (header
    verification, the (N, P) difficulty regimes, the reward accumulator)
    and of the fuzzy matrix helpers of the same package, followed by the
    properties of the engine that the specification states and by
    further properties of the same code.

    Conventions.  A Go [uint64] is a [Z] in [0, 2^64) and every operation
    that can leave that range is written with its wrap-around ([wrap64]).
    A [*big.Int] is an unbounded [Z].  A [float64] is a primitive binary64
    float.  Hashes and addresses are the numbers their bytes spell. *)

From Stdlib Require Import ZArith NArith List Bool String Ascii HexString Lia.
From Stdlib Require Import Floats.
From stdpp Require Import base option list gmap.

Local Open Scope Z_scope.

(* ================================================================== *)
(** * Machine integers *)
(* ================================================================== *)

Module U64.

Definition modulus : Z := 2 ^ 64.

(** Reduction of a mathematical result to the 64 bits Go keeps. *)
Definition wrap64 (z : Z) : Z := z mod modulus.

Definition add (a b : Z) : Z := wrap64 (a + b).
Definition sub (a b : Z) : Z := wrap64 (a - b).
Definition mul (a b : Z) : Z := wrap64 (a * b).

Definition in_range (z : Z) : Prop := 0 <= z < modulus.

(** [Uint64] of a big integer: the low 64 bits of the magnitude. *)
Definition of_big (x : Z) : Z := wrap64 (Z.abs x).

(** [int64(x)] for a [uint64] x: reinterpretation of the bit pattern. *)
Definition to_int64 (x : Z) : Z :=
  let r := wrap64 x in if r <? 2 ^ 63 then r else r - modulus.

(** Wrap-around of a signed 64-bit result. *)
Definition wrap_int64 (z : Z) : Z := to_int64 z.

End U64.

(* ================================================================== *)
(** * Data model *)
(* ================================================================== *)

Definition Hash := Z.
Definition Address := N.

(** Package [params]: the protocol constants the engine reads.  Their
    values are fixed in a file outside the sources covered here, so every
    definition below takes them as a record. *)
Record Params := mkParams {
  params_N : Z;                       (* params.N, uint64 *)
  params_P : Z;                       (* params.P, uint64 *)
  GasLimitBoundDivisor : Z;           (* uint64 *)
  MinGasLimit : Z;                    (* uint64 *)
  MaximumExtraDataSize : Z;           (* uint64 *)
  DifficultyBoundDivisor : Z;         (* *big.Int *)
  MinimumDifficulty : Z;              (* *big.Int *)
  DurationLimit : Z;                  (* *big.Int *)
  EmptyUncleHash : Hash               (* types.EmptyUncleHash *)
}.

(** [types.Header], with the fields the engine touches. *)
Record Header := mkHeader {
  ParentHash : Hash;
  UncleHash : Hash;
  Coinbase : Address;
  Root : Hash;
  Difficulty : Z;                     (* *big.Int *)
  Number : Z;                         (* *big.Int *)
  GasLimit : Z;                       (* uint64 *)
  GasUsed : Z;                        (* uint64 *)
  Time : Z;                           (* *big.Int *)
  Extra : list Z;                     (* []byte *)
  Nonce : Z;                          (* uint64 *)
  FuzzyHash : Hash;
  hN : Z;                             (* N,  uint64 *)
  hP : Z;                             (* P,  uint64 *)
  NN : Z;                             (* uint64 *)
  PP : Z;                             (* uint64 *)
  Alpha : Z;                          (* *big.Int *)
  NP : Z;                             (* *big.Int *)
  Rewards : Z                         (* *big.Int *)
}.

Definition set_Rewards (h : Header) (r : Z) : Header :=
  mkHeader (ParentHash h) (UncleHash h) (Coinbase h) (Root h) (Difficulty h)
           (Number h) (GasLimit h) (GasUsed h) (Time h) (Extra h) (Nonce h)
           (FuzzyHash h) (hN h) (hP h) (NN h) (PP h) (Alpha h) (NP h) r.

(* ================================================================== *)
(** * The (N, P) adjustment tables *)
(* ================================================================== *)

Section Adjust.

Variable params : Params.

Let pN := params_N params.
Let pP := params_P params.

(** The three clamps that end both [calcnp] and [calcnpsea]. *)
Definition clamp_np (n p : Z) : Z * Z :=
  let n := if n <=? pN then pN else n in
  let p := if p <=? pP then pP else p in
  let p := if p >? 256 then 256 else p in
  (n, p).

Definition calcnp (timespan n p : Z) : Z * Z :=
  let '(n, p) :=
    if p <? 256 then
      let '(n, p) :=
        if timespan <? 102 then (n, U64.add p 1)
        else if timespan <? 108 then (U64.add n 1, p)
        else if timespan >? 138 then
          (if p >? pP then (n, U64.sub p 1) else (n, p))
        else if timespan >? 132 then
          (if n >? pN then (U64.sub n 1, p) else (n, p))
        else (n, p) in
      if (p <=? pP) && (n >? pN) && (timespan >? 360)
      then (U64.sub n 1, p) else (n, p)
    else
      let '(n, p) :=
        if timespan <? 102 then (U64.add n 1, p)
        else if timespan >? 138 then
          (if n >? pN then (U64.sub n 1, p) else (n, p))
        else (n, p) in
      if (n <=? pN) && (p >? pP) && (timespan >? 360)
      then (n, U64.sub p 1) else (n, p) in
  clamp_np n p.

Definition calcnpsea (timespan n p : Z) : Z * Z :=
  let '(n, p) :=
    if p <? 256 then
      let '(n, p) :=
        if timespan <? 5 then (n, U64.add p 1)
        else if timespan <? 7 then (U64.add n 1, p)
        else if timespan >? 900 then
          (if (p >? pP) && (n >? pN)
           then (U64.sub n (n / 7), U64.sub p (p / 7)) else (n, p))
        else if timespan >? 600 then
          (if (p >? pP) && (n >? pN)
           then (U64.sub n (n / 10), U64.sub p (p / 10)) else (n, p))
        else if timespan >? 16 then
          (if p >? pP then (n, U64.sub p 1) else (n, p))
        else if timespan >? 13 then
          (if n >? pN then (U64.sub n 1, p) else (n, p))
        else (n, p) in
      if (p <=? pP) && (n >? pN) && (timespan >? 30)
      then (U64.sub n 1, p) else (n, p)
    else
      let '(n, p) :=
        if timespan <? 5 then (U64.add n 1, p)
        else if timespan >? 16 then
          (if n >? pN then (U64.sub n 1, p) else (n, p))
        else (n, p) in
      if (n <=? pN) && (p >? pP) && (timespan >? 30)
      then (n, U64.sub p 1) else (n, p) in
  clamp_np n p.

(** [n * n * n * p * p * p * p * p * p] in [uint64] arithmetic: eight
    multiplications, each keeping the low 64 bits. *)
Definition np_product (n p : Z) : Z :=
  U64.mul (U64.mul (U64.mul (U64.mul (U64.mul (U64.mul (U64.mul
    (U64.mul n n) n) p) p) p) p) p) p.

(** [VerifyDifficultyBygen] and [VerifyDifficultyBySea]: the pair
    recomputed from the fields the header itself carries. *)
Definition VerifyDifficultyBygen (header : Header) : Z * Z :=
  calcnp (U64.of_big (Alpha header)) (NN header) (PP header).

Definition VerifyDifficultyBySea (header : Header) : Z * Z :=
  calcnpsea (U64.of_big (Alpha header)) (NN header) (PP header).

(** The result of a regime: [(n, p, Alpha, NP)]. *)
Record DiffResult := mkDiff {
  res_n : Z; res_p : Z; res_alpha : Z; res_NP : Z
}.

(** [CalcDifficultyByLake].  [parent12] is a pointer that the caller
    leaves nil up to block 12; dereferencing it when nil panics, which
    is the [None] result here. *)
Definition CalcDifficultyByLake
    (header parent : Header) (parent12 : option Header) : option DiffResult :=
  let curBlockNumber := U64.of_big (Number header) in
  let curBlockTime := U64.of_big (Time header) in
  let NP0 := if curBlockNumber <? 1 then 0 else NP parent in
  if curBlockNumber <=? 12 then
    let curNP := np_product pN pP in
    Some (mkDiff pN pP 120 (NP0 + curNP))
  else
    match parent12 with
    | None => None
    | Some p12 =>
        let parent12BlockTime := U64.of_big (Time p12) in
        let timespan := U64.sub curBlockTime parent12BlockTime in
        let timespan :=
          if curBlockTime <? parent12BlockTime then 120 else timespan in
        let '(n, p) := calcnp timespan (hN parent) (hP parent) in
        let curNP := np_product n p in
        Some (mkDiff n p timespan (NP0 + curNP))
    end.

Definition CalcDifficultyBygen := CalcDifficultyByLake.

(** The per-block contribution of the Sea regime:
    [n*n*n*p*p*p*p*p*p - timespan], in [uint64]. *)
Definition sea_curNP (n p timespan : Z) : Z :=
  U64.sub (np_product n p) timespan.

Definition sea_timespan (header parent : Header) : Z :=
  let curBlockNumber := U64.of_big (Number header) in
  let curBlockTime := U64.of_big (Time header) in
  let parentBlockTime := U64.of_big (Time parent) in
  let timespan :=
    if curBlockNumber =? 1 then 10
    else U64.sub curBlockTime parentBlockTime in
  if curBlockTime <? parentBlockTime then 10 else timespan.

Definition CalcDifficultyBySea (header parent : Header) : DiffResult :=
  let curBlockNumber := U64.of_big (Number header) in
  let timespan := sea_timespan header parent in
  let '(n, p) := calcnpsea timespan (hN parent) (hP parent) in
  let curNP := sea_curNP n p timespan in
  let NP0 := if curBlockNumber <? 1 then 0 else NP parent in
  mkDiff n p timespan (NP0 + curNP).

End Adjust.

(* ================================================================== *)
(** * World state *)
(* ================================================================== *)

(** Modelled from the spec: [state.StateDB] (package core/state) is outside
    the sources covered here.  The spec gives its surface as
    [getBalance(addr)] and [addBalance(addr, delta)]; an account that was
    never credited reads as zero.  The journal records every call to
    [AddBalance] in the order it was made, so that statements about the
    order of the credits can be made. *)
Record StateDB := mkState {
  balances : gmap N Z;
  journal : list (Address * Z)
}.

Definition GetBalance (s : StateDB) (a : Address) : Z :=
  default 0 (balances s !! a).

Definition AddBalance (s : StateDB) (a : Address) (amount : Z) : StateDB :=
  mkState (<[a := GetBalance s a + amount]> (balances s))
          (journal s ++ [(a, amount)]).

(** Modelled from the spec: [common.HexToAddress] is outside the
    sources covered here; the spec says the hex strings are normalized to
    20-byte addresses.  The address is the number the hex digits spell,
    cut to 160 bits. *)
Definition HexToAddress (s : string) : Address :=
  (HexString.to_N s mod 2 ^ 160)%N.

(* ================================================================== *)
(** * Reward accumulator *)
(* ================================================================== *)

Definition GenBlockReward : Z := 450000000000000000.      (* 4.5e+17 *)
Definition GenBlockUncleReward : Z := 50000000000000000.  (* 5e+16 *)
Definition GenBlockEcoReward : Z := 1000000000000000.     (* 1e+15 *)
Definition TotalCoin : Z := 13300000.                     (* 1.33e+7 *)
Definition maxUncles : Z := 5.
Definition allowedFutureBlockTime : Z := 12.              (* seconds *)

Definition big6 : Z := 6.

Definition CDAddress : list string := [
    "0x49ff31917cd16c593d376347f82f7ea67a7ded0d"; "0x6e2aeaa5d6bbd27656aa8c774005e71d9afc1b23";
    "0x80960290c3e717ba425333219e2b4a64c9184422"; "0xde0e25c523a107fc71a955288e95fc80e74d114b";
    "0x6c8df9d21c7087125f448016a2f2afcc14bb8c32"; "0xc21581f15ffe2da6ac5e2efc04cefd5f6ba8c121";
    "0xaf524d5a4aedef7e4ab6580b68f4bbfcd7ed9064"; "0x8f1eeeade57c518f561169e9e473b6737410106d";
    "0x283d14e63bb224923d92c0a3e20d8d0f8554fdc6"; "0x1edc6edcb4456badbe2f84ea2868439467303f39";
    "0x35a93c4ba8ae10156950a9a760a922b990223f7e"; "0xf7922e6085dbb8f9af7b998647bf52a8a67323ea";
    "0xaea94a6c6436c181e976423fca23a2fc58ff0e0e"; "0xbff99ec8cbf9cd3d27a5a41ab22bf9a1841b658c";
    "0x5e4d01a8b2f4f4385a396f0276090ce9ba70fbec"; "0xf72afb5b6b87516b96440665b0efef3b466f2c8f";
    "0xc970baa3fe0f050628803560c4f4763a8cb89641"; "0x72508937ac5d4ea2dfdce7885480eca36a4a23fa";
    "0x9f8136bd79512e809f90ce0c1e451b0d6991aa63"; "0xa4f36136865312bb5e0d42aed529126f09bb1b02";
    "0x3df38e8fbf2bc869afdec75ceeb25cf470b047e1"; "0xbc88ffcc81bdb180f74a0590e8586d147ed1ed85";
    "0x771554d5a2cb453f4ed459b830ed4011fb8ce68a"; "0x127426bed3724449b9efc1da7058f00498c0338d";
    "0x4e1a6355a35466b6cc1b02492795814128a56799"; "0xd934cdf46a7ac61ce91ebaa92bc20afb68c9b566";
    "0xac2bcd2ed9876051d4c64dd899d38f95e68bdce7"; "0x6f20fddfdbb96b9516dd9b75fc54c75595581cb3";
    "0x39136041c26225e97dc55bf897881280258722ea"; "0x9ab1c0ed107c5e3521ca017f3011cbd6cf856202";
    "0x7520afef96fecc57884449b14beca134cbafbed8"; "0x78b0472be31df30b4c02f83108661f1adc99abd7";
    "0xfd5da58f901548cb0e06a0d74c3d3f9dead8831f"; "0x17c38c7c4258d9bb75165c828ed0394933b87b28";
    "0x0a50575359efbad65c4c68f71906d663185138bc"; "0x59f8c5d60d80dcd06add171a09182f9764e58e6a";
    "0x01a24c4e8b82b3c1838d9f4d8b6a8070eeae06b3"; "0x589ab7907f14d05488c029a362b5f1aeeb9d2d3e";
    "0x201a14780fef99e5793b2da30b4cc5d41c3d51e8"; "0xde4597c58fa29b7642c317c9a6575fcea8c8f32a";
    "0x73cd1b163c038629cf57987405dfaf964452024a"; "0x7ebc3ea0ec38c99d76d13cc618760a28a241910f";
    "0xff344df8352209e4a841a95d890695de45dfdfb2"; "0xbaaa990b7abeb0fc3587dfb446c9f27897daaa07";
    "0x1d07362846ab350377de07efa65126671354716b"; "0x461a2f4ae6d1651a5279d4d551dc457d6ddce9e1";
    "0xda1a349c67e15c0cdeaeef1cf54041a37652f86e"; "0x70a7bafcd8b9bfdd1bad2a1099acdc324eebd816";
    "0x4e9ff86bcbfab42d07cc143a8d1775c94010a9bb"; "0x1cebf431b95076254687a385ccb03aca80c3d543";
    "0x0ebd62ba3e7dea2fef3c583cab94ba32271cfad9"; "0x86a08724ca02071a93401428bd5c37e827db8c1b";
    "0x0932388681886fe81dce06fa5b50ecda0af6d22b"; "0x011ed29043ecfe7176ab06879f9475dab260e3f8";
    "0x4e6d3140de836c33828d7cafabbb24b0a0263bc7"; "0x7cc171a2018dc46a3b22e8905811e31a508cdc5a";
    "0x0911306e8e46bf03e862c0ca39e9eb4d9f175527"; "0x9bb2fcfe40cfe79788d9daf654f9e5e660376880";
    "0xfa3959dd6925bdf634a19fcf9fc9a74a852b02f1"; "0x72165c2c6ef16d8b972567d4e4c45f8cfd2f13c3";
    "0x45e1e09ba41644465532b5ed6c439ac6dfe23f59"; "0x841111d1fe42be7b96e6689e9c94497dc32e3c9d";
    "0x353ae2b4bc037d15e4d08ec2fa18907514e019a2"; "0x19c4b8d1d4a4d20f0b56163c169f60a851f2956c";
    "0xc02cb1a2ca0f72a5fc0f9798035bf62c381d8e11"; "0x020758e61bbb5fa332f2c67f0e031d6fcadd6149";
    "0xfffee9d11fb0dd82a57013c74299d604b0bb753e"; "0x5d1d57a929edf499f0769087827f7b86a67b8183";
    "0xb7d9930658124b685bf2bcbd47aea22541c0c5d0"; "0x99a64c829f5a4c5afbc0a4ea66af2fde060b4ee6";
    "0x5054afce04f7e1b8dcbb388542b4eba7e140d9c8"; "0x1b29d583468302df6431571d38273b970c3617dc";
    "0x3dc69c6d5ce802a43ed363628d76beebf50b51f8"; "0xb9953e7213c9529f01de7bb5088eb6f77cb5605b";
    "0xf60b8609a8324fa2f20175091bf57eb81f9c0deb"; "0xf07303b8a84968fdec7904c9741c2d54a4b40579";
    "0x44b8b9105521616e90b19c6f10e0323513bc4fea"; "0xecbc2130bbf9336c22e5130984e21a0fb56334e8";
    "0xed6862dcda5acebab0eda74eacddc6d4f8b40f31"; "0x80eb5e105f5ffd16c0a3ef0b647e89f1ebeb3e72";
    "0xe7c0a7ea3099b868e4cd416bc41cea95929ccdf1"; "0x5b39ca60ae3a3f74e4dd47049473482cf3145461";
    "0x242fdc1c4d04e294c7293790a177b2b2cebf1fef"; "0x487274989a7e160ffc67a693f79d1fd09c524b92";
    "0x870021e24661347469a9b7e13f35c3b4e7e37357"; "0x4ce7c5fa93f682eb880b8dab8517b1a45e49c662";
    "0x225ac4ee12c29db337a0bf7367d2a78291392648"; "0x54bf50a802423235915f44979c03d68d7ed3a147";
    "0xef55b38f55ed2add70ce0d441598e9f8dbb27285"; "0x094b59b08c7495b4eada733df3a3a095047859d4";
    "0x2f639e3629970dca3348628d86d2030726d53ccf"; "0x1e2beefabfd14cb0bb92f5c3c2515a5616481872";
    "0xb81bcc9e4a53bf504df2567afa86633277e9ec98"; "0x869ee88333c26633c06747bbcee9bfc1fcc29989";
    "0xaf758dab0efcd9b390013dbca01f61121c5c7e21"; "0x2104d5b752ae7d26ed60ed12d2cba63cffcb981e";
    "0x45ae3870bdba9d754515ee912f0888b7d6e0a20b"; "0xeb95f9470258df6a9d50dc644003869cb77dca03";
    "0xf588736008ca9084c687993f543435e0e15a2852"; "0x9a3e8cb939b9ea72f18079d0a3639ce380b2cd31"
  ]%string.

Definition blockFiveYearNumber : list Z :=
  [3153600; 9460800; 22075200; 47304000; 97761600; 198676800; 400507200].

(** [blockFiveYearNumber[i]] for an index within the array. *)
Definition boundary (i : nat) : Z := nth i blockFiveYearNumber 0.

(** [computerRewardBase]: the tuple [(g, t, l, e)]. *)
Definition computerRewardBase (header : Header) : Z * Z * Z * Z :=
  let totalReward := TotalCoin * 1000000000000000000 in
  if totalReward <=? Rewards header then (0, 0, 0, 0)
  else
    let Greward := GenBlockReward in
    let Treward := GenBlockUncleReward in
    let Ereward := GenBlockEcoReward in
    let nums := Number header in
    if nums <=? boundary 0 then
      (Greward, Treward, 0, Ereward)
    else if (nums >? boundary 0) && (nums <=? boundary 1) then
      (Z.shiftr Greward 1, Z.shiftr Treward 1, 0, Z.shiftr Ereward 1)
    else if (nums >? boundary 1) && (nums <=? boundary 2) then
      (Z.shiftr Greward 2, Z.shiftr Treward 2, 0, Z.shiftr Ereward 2)
    else if (nums >? boundary 2) && (nums <=? boundary 3) then
      (Z.shiftr Greward 3, Z.shiftr Treward 3, 0, Z.shiftr Ereward 3)
    else if (nums >? boundary 3) && (nums <=? boundary 4) then
      (Z.shiftr Greward 4, Z.shiftr Treward 4, 0, Z.shiftr Ereward 4)
    else if (nums >? boundary 4) && (nums <=? boundary 5) then
      (Z.shiftr Greward 5, Z.shiftr Treward 5, 0, Z.shiftr Ereward 5)
    else if (nums >? boundary 5) && (nums <=? boundary 6) then
      (Z.shiftr Greward 6, Z.shiftr Treward 6, 0, Z.shiftr Ereward 6)
    else if nums >? boundary 6 then
      (Z.shiftr Greward 7, Z.shiftr Treward 7, 0, Z.shiftr Ereward 7)
    else (0, 0, 0, 0).

(** The loop over the uncles: credit each coinbase, add up [rcount]. *)
Definition pay_uncles (uncleReward : Z) (uncles : list Header)
    (st : StateDB * Z) : StateDB * Z :=
  fold_left
    (fun '(state, rcount) uncle =>
       (AddBalance state (Coinbase uncle) uncleReward, rcount + uncleReward))
    uncles st.

(** The loop over [CDAddress]: credit each address, add up [rcd]. *)
Definition pay_eco (ecoReward : Z) (addrs : list string)
    (st : StateDB * Z) : StateDB * Z :=
  fold_left
    (fun '(state, rcd) cdaddr =>
       (AddBalance state (HexToAddress cdaddr) ecoReward, rcd + ecoReward))
    addrs st.

(** [accumulateRewardsGen]: the state and the header after the call (the
    chain configuration argument is not read by the function). *)
Definition accumulateRewardsGen
    (state : StateDB) (header : Header) (uncles : list Header)
    : StateDB * Header :=
  let '(G, T, _, E) := computerRewardBase header in
  let uncleReward := T in
  let minerReward := G in
  let ecoReward := E in
  let '(state, rcount) := pay_uncles uncleReward uncles (state, 0) in
  let r := rcount / big6 in
  let reward := minerReward + r in
  let state := AddBalance state (Coinbase header) reward in
  let '(state, rcd) := pay_eco ecoReward CDAddress (state, 0) in
  let r1 := reward in
  let r1 := r1 + rcd in
  let r1 := r1 + rcount in
  let totalReward := Rewards header in
  let r1 := r1 + totalReward in
  (state, set_Rewards header r1).

(* ================================================================== *)
(** * Errors, chain access and the engine value *)
(* ================================================================== *)

(** The error values of the package, the [fmt.Errorf] results of
    [verifyHeader] with the numbers they print, and the errors that the
    fork validators of package [misc] hand back. *)
Inductive error : Type :=
| ErrUnknownAncestor                       (* consensus.ErrUnknownAncestor *)
| ErrFutureBlock                           (* consensus.ErrFutureBlock *)
| ErrInvalidNumber                         (* consensus.ErrInvalidNumber *)
| errLargeBlockTime
| errZeroBlockTime
| errTooManyUncles
| errDuplicateUncle
| errUncleIsAncestor
| errDanglingUncle
| errInvalidDifficulty
| errInvalidMixDigest
| errInvalidPoW
| errExtraDataTooLong (len max : Z)        (* "extra-data too long" *)
| errDifficultyMismatch (have want : Z)    (* "invalid difficulty" *)
| errGasLimitTooBig (have max : Z)         (* "invalid gasLimit" *)
| errGasUsed (have gasLimit : Z)           (* "invalid gasUsed" *)
| errGasLimitBounds (have want limit : Z)  (* "invalid gas limit" *)
| errFork (code : Z).                      (* from package misc *)

(** A Go [error] value: [None] is [nil]. *)
Definition result := option error.

Record ChainConfig := mkConfig {
  IsHomestead : Z -> bool;
  IsByzantium : Z -> bool;
  IsSeafork : Z -> bool;
  IsEIP158 : Z -> bool
}.

(** [consensus.ChainReader]. *)
Record ChainReader := mkChain {
  Config : ChainConfig;
  GetHeader : Hash -> Z -> option Header;
  GetHeaderByNumber : Z -> option Header
}.

Inductive Mode := ModeNormal | ModeFake | ModeFullFake.

Definition Mode_eqb (a b : Mode) : bool :=
  match a, b with
  | ModeNormal, ModeNormal | ModeFake, ModeFake
  | ModeFullFake, ModeFullFake => true
  | _, _ => false
  end.

(** The [Ethash] value: its mode, the block number at which fake sealing
    fails, and the shared engine it may delegate to. *)
#[warnings="-register-all"]
Inductive Ethash : Type :=
| mkEthash (PowMode : Mode) (fakeFail : Z) (shared : option Ethash).

Definition PowMode (e : Ethash) : Mode := let 'mkEthash m _ _ := e in m.
Definition fakeFail (e : Ethash) : Z := let 'mkEthash _ f _ := e in f.
Definition shared (e : Ethash) : option Ethash := let 'mkEthash _ _ s := e in s.

(** What the engine calls and the sources covered here do not define: the
    clock, the header hashes, the matrix hash [genHash] with its target
    test [compareDiff], the fork validators of package [misc] and the
    state root. *)
Record Externals := mkExt {
  now : Z;                                         (* time.Now().Unix() *)
  HeaderHash : Header -> Hash;                     (* header.Hash() *)
  HashNoNonce : Header -> list Z;                  (* HashNoNonce().Bytes() *)
  genHash : list Z -> Z -> list Z -> Z -> Z -> list Z * list Z * list Z;
  BytesToHash : list Z -> Hash;
  compareDiff : list Z -> Z -> bool;
  VerifyDAOHeaderExtraData : ChainConfig -> Header -> result;
  VerifyForkHashes : ChainConfig -> Header -> bool -> result;
  IntermediateRoot : StateDB -> bool -> Hash
}.

(* ================================================================== *)
(** * Scalar difficulty *)
(* ================================================================== *)

(** [big.Int.Div]: Euclidean division.  Division by zero panics in Go
    and is 0 here; no caller below divides by zero when the protocol
    divisors are positive. *)
Definition big_Div (x y : Z) : Z :=
  if 0 <? y then x / y else - (x / - y).

Definition expDiffPeriod : Z := 100000.
Definition big1 : Z := 1.
Definition big2 : Z := 2.
Definition big9 : Z := 9.
Definition big10 : Z := 10.
Definition bigMinus99 : Z := -99.
Definition big2999999 : Z := 2999999.
Definition MaxBig256 : Z := 2 ^ 256 - 1.

Section Difficulty.

Variable params : Params.

Definition calcDifficultyByzantium (time : Z) (parent : Header) : Z :=
  let bigTime := time in
  let bigParentTime := Time parent in
  let x := bigTime - bigParentTime in
  let x := big_Div x big9 in
  let x :=
    if UncleHash parent =? EmptyUncleHash params then big1 - x else big2 - x in
  let x := if x <? bigMinus99 then bigMinus99 else x in
  let y := big_Div (Difficulty parent) (DifficultyBoundDivisor params) in
  let x := y * x in
  let x := Difficulty parent + x in
  let x := if x <? MinimumDifficulty params then MinimumDifficulty params else x in
  let fakeBlockNumber :=
    if Number parent >=? big2999999 then Number parent - big2999999 else 0 in
  let periodCount := big_Div fakeBlockNumber expDiffPeriod in
  if periodCount >? big1 then
    let y := periodCount - big2 in
    let y := big2 ^ y in
    x + y
  else x.

Definition calcDifficultyHomestead (time : Z) (parent : Header) : Z :=
  let bigTime := time in
  let bigParentTime := Time parent in
  let x := bigTime - bigParentTime in
  let x := big_Div x big10 in
  let x := big1 - x in
  let x := if x <? bigMinus99 then bigMinus99 else x in
  let y := big_Div (Difficulty parent) (DifficultyBoundDivisor params) in
  let x := y * x in
  let x := Difficulty parent + x in
  let x := if x <? MinimumDifficulty params then MinimumDifficulty params else x in
  let periodCount := Number parent + big1 in
  let periodCount := big_Div periodCount expDiffPeriod in
  if periodCount >? big1 then
    let y := periodCount - big2 in
    let y := big2 ^ y in
    x + y
  else x.

Definition calcDifficultyFrontier (time : Z) (parent : Header) : Z :=
  let adjust := big_Div (Difficulty parent) (DifficultyBoundDivisor params) in
  let bigTime := time in
  let bigParentTime := Time parent in
  let diff :=
    if bigTime - bigParentTime <? DurationLimit params
    then Difficulty parent + adjust
    else Difficulty parent - adjust in
  let diff := if diff <? MinimumDifficulty params then MinimumDifficulty params else diff in
  let periodCount := Number parent + big1 in
  let periodCount := big_Div periodCount expDiffPeriod in
  if periodCount >? big1 then
    let expDiff := periodCount - big2 in
    let expDiff := big2 ^ expDiff in
    let diff := diff + expDiff in
    Z.max diff (MinimumDifficulty params)
  else diff.

Definition CalcDifficulty (config : ChainConfig) (time : Z) (parent : Header) : Z :=
  let next := Number parent + big1 in
  if IsByzantium config next then calcDifficultyByzantium time parent
  else if IsHomestead config next then calcDifficultyHomestead time parent
  else calcDifficultyFrontier time parent.

End Difficulty.

(* ================================================================== *)
(** * Seal and header verification *)
(* ================================================================== *)

Section Engine.

Variable params : Params.
Variable ext : Externals.

(** [VerifySeal].  The recursion follows the [shared] pointer. *)
Fixpoint VerifySeal (ethash : Ethash) (chain : ChainReader) (header : Header)
    : result :=
  let 'mkEthash mode fail sh := ethash in
  if Mode_eqb mode ModeFake || Mode_eqb mode ModeFullFake then
    if fail =? U64.of_big (Number header) then Some errInvalidPoW else None
  else
    match sh with
    | Some inner => VerifySeal inner chain header
    | None =>
        if Z.sgn (Difficulty header) <=? 0 then Some errInvalidDifficulty
        else
          let hash := HashNoNonce ext header in
          let nonce := Nonce header in
          let '(fhash, _, hash256) :=
            genHash ext hash nonce hash (hP header) (hN header) in
          if negb (FuzzyHash header =? BytesToHash ext fhash)
          then Some errInvalidMixDigest
          else if negb (compareDiff ext hash256 (U64.to_int64 (hP header)))
          then Some errInvalidMixDigest
          else
            let next := Number header in
            let '(n, p) :=
              if IsSeafork (Config chain) next
              then VerifyDifficultyBySea params header
              else VerifyDifficultyBygen params header in
            if negb (hN header =? n) || negb (hP header =? p)
            then Some errInvalidPoW
            else None
    end.

(** What [verifyHeader] does once the gas checks have passed: the
    number check, the optional seal, the fork validators. *)
Definition verifyHeader_after_gas (ethash : Ethash) (chain : ChainReader)
    (header parent : Header) (uncle seal : bool) : result :=
  if negb (Number header - Number parent =? 1) then Some ErrInvalidNumber
  else
    match (if seal then VerifySeal ethash chain header else None) with
    | Some err => Some err
    | None =>
        match VerifyDAOHeaderExtraData ext (Config chain) header with
        | Some err => Some err
        | None =>
            match VerifyForkHashes ext (Config chain) header uncle with
            | Some err => Some err
            | None => None
            end
        end
    end.

(** The three gas tests of [verifyHeader], in the order of the source:
    the 2^63-1 cap, gasUsed against gasLimit, and the bound on the
    change from the parent computed through [int64]. *)
Definition verifyHeader_gas (ethash : Ethash) (chain : ChainReader)
    (header parent : Header) (uncle seal : bool) : result :=
  let cap := 9223372036854775807 in       (* 0x7fffffffffffffff *)
  if GasLimit header >? cap
  then Some (errGasLimitTooBig (GasLimit header) cap)
  else if GasUsed header >? GasLimit header
  then Some (errGasUsed (GasUsed header) (GasLimit header))
  else
    let diff :=
      U64.wrap_int64 (U64.to_int64 (GasLimit parent)
                      - U64.to_int64 (GasLimit header)) in
    let diff := if diff <? 0 then U64.wrap_int64 (diff * -1) else diff in
    let limit := GasLimit parent / GasLimitBoundDivisor params in
    if (U64.wrap64 diff >=? limit) || (GasLimit header <? MinGasLimit params)
    then Some (errGasLimitBounds (GasLimit header) (GasLimit parent) limit)
    else verifyHeader_after_gas ethash chain header parent uncle seal.

(** [verifyHeader]: extra-data size, timestamp, scalar difficulty, and
    then the gas tests and what follows them. *)
Definition verifyHeader (ethash : Ethash) (chain : ChainReader)
    (header parent : Header) (uncle seal : bool) : result :=
  if Z.of_nat (length (Extra header)) >? MaximumExtraDataSize params
  then Some (errExtraDataTooLong (Z.of_nat (length (Extra header)))
                                 (MaximumExtraDataSize params))
  else
    match (if uncle
           then (if Time header >? MaxBig256 then Some errLargeBlockTime else None)
           else (if Time header >? now ext + allowedFutureBlockTime
                 then Some ErrFutureBlock else None)) with
    | Some err => Some err
    | None =>
        if Time header <=? Time parent then Some errZeroBlockTime
        else
          let expected :=
            CalcDifficulty params (Config chain) (U64.of_big (Time header)) parent in
          if negb (expected =? Difficulty header)
          then Some (errDifficultyMismatch (Difficulty header) expected)
          else verifyHeader_gas ethash chain header parent uncle seal
    end.

(** [VerifyHeader]. *)
Definition VerifyHeader (ethash : Ethash) (chain : ChainReader)
    (header : Header) (seal : bool) : result :=
  if Mode_eqb (PowMode ethash) ModeFullFake then None
  else
    let number := U64.of_big (Number header) in
    match GetHeader chain (HeaderHash ext header) number with
    | Some _ => None
    | None =>
        match GetHeader chain (ParentHash header) (U64.sub number 1) with
        | None => Some ErrUnknownAncestor
        | Some parent => verifyHeader ethash chain header parent false seal
        end
    end.

(** The parent that [verifyHeaderWorker] resolves for [headers[index]]:
    the chain's for index 0, else the preceding header of the batch
    when its hash is the parent hash, else nil.  An index outside the
    slice panics: the outer [None]. *)
Definition worker_parent (chain : ChainReader) (headers : list Header)
    (index : nat) : option (option Header) :=
  match index with
  | O =>
      h0 ← headers !! O;
      Some (GetHeader chain (ParentHash h0) (U64.sub (U64.of_big (Number h0)) 1))
  | S j =>
      prev ← headers !! j;
      cur ← headers !! index;
      Some (if HeaderHash ext prev =? ParentHash cur then Some prev else None)
  end.

(** [verifyHeaderWorker].  The outer [option] is [None] when an index
    is outside its slice (a run-time panic in Go). *)
Definition verifyHeaderWorker (ethash : Ethash) (chain : ChainReader)
    (headers : list Header) (seals : list bool) (index : nat)
    : option result :=
  parent ← worker_parent chain headers index;
  match parent with
  | None => Some (Some ErrUnknownAncestor)
  | Some parent =>
      header ← headers !! index;
      match GetHeader chain (HeaderHash ext header)
                      (U64.of_big (Number header)) with
      | Some _ => Some None
      | None =>
          seal ← seals !! index;
          Some (verifyHeader ethash chain header parent false seal)
      end
  end.

(** [VerifyHeaders], read as the sequence that the results channel
    delivers when the caller never aborts: worker [index] stores its
    result in [errors[index]] and the coordinator sends the slots in
    index order, so the sequence is the list of the workers' results.
    In full-fake mode, or for an empty batch, it is as many nils as
    there are headers. *)
Definition VerifyHeaders (ethash : Ethash) (chain : ChainReader)
    (headers : list Header) (seals : list bool) : list (option result) :=
  if Mode_eqb (PowMode ethash) ModeFullFake || (length headers =? 0)%nat
  then map (fun _ => Some None) headers
  else map (verifyHeaderWorker ethash chain headers seals)
           (seq 0 (length headers)).

(** The outcome of [Prepare]: the stamped header, an error, or the
    panic of reading through a nil [parent12]. *)
Inductive prepared : Type :=
| PrepOk (header : Header)
| PrepErr (err : error)
| PrepPanic.

Definition stamp (header parent : Header) (d : DiffResult) (difficulty : Z)
    : Header :=
  mkHeader (ParentHash header) (UncleHash header) (Coinbase header)
           (Root header) difficulty (Number header) (GasLimit header)
           (GasUsed header) (Time header) (Extra header) (Nonce header)
           (FuzzyHash header) (res_n d) (res_p d) (hN parent) (hP parent)
           (res_alpha d) (res_NP d) (Rewards header).

(** [Prepare]. *)
Definition Prepare (chain : ChainReader) (header : Header) : prepared :=
  match GetHeader chain (ParentHash header)
                  (U64.sub (U64.of_big (Number header)) 1) with
  | None => PrepErr ErrUnknownAncestor
  | Some parent =>
      if Time parent >=? Time header then PrepErr ErrUnknownAncestor
      else
        let next := Number parent + big1 in
        let difficulty :=
          CalcDifficulty params (Config chain) (U64.of_big (Time header)) parent in
        if IsSeafork (Config chain) next then
          PrepOk (stamp header parent
                        (CalcDifficultyBySea params header parent) difficulty)
        else
          let parent12 :=
            if U64.of_big (Number header) >=? 13
            then GetHeaderByNumber chain (U64.sub (U64.of_big (Number header)) 12)
            else None in
          match CalcDifficultyBygen params header parent parent12 with
          | Some d => PrepOk (stamp header parent d difficulty)
          | None => PrepPanic
          end
  end.

(** [Finalize], up to the assembly of the block: the rewards are
    credited and the header takes the root of the resulting state. *)
Definition Finalize (chain : ChainReader) (header : Header)
    (state : StateDB) (uncles : list Header) : StateDB * Header :=
  let '(state, header) := accumulateRewardsGen state header uncles in
  let root := IntermediateRoot ext state (IsEIP158 (Config chain) (Number header)) in
  (state,
   mkHeader (ParentHash header) (UncleHash header) (Coinbase header) root
            (Difficulty header) (Number header) (GasLimit header)
            (GasUsed header) (Time header) (Extra header) (Nonce header)
            (FuzzyHash header) (hN header) (hP header) (NN header)
            (PP header) (Alpha header) (NP header) (Rewards header)).

End Engine.

(* ================================================================== *)
(** * Fuzzy matrices *)
(* ================================================================== *)

Module Matrix.

Local Open Scope float_scope.

(** [Matrix]: the dimensions and the contents as one long slice.  The
    dimensions, the indices and the slice lengths are exact integers:
    the functions below compute what the code computes as long as its
    64-bit ints do not wrap, and [make] grants every length that is
    not negative.  The properties that depend on either say so in
    their hypotheses. *)
Record Matrix := mkMatrix {
  rows : Z;
  columns : Z;
  data : list float
}.

Definition Min (x y : float) : float := if x <? y then x else y.
Definition Max (x y : float) : float := if x <? y then y else x.

(** The loop of [dotFProduct] from index [i] on, with [temp] so far.
    Reading [b[i]] past the end of [b] panics: [None]. *)
Fixpoint dotFProduct_from (temp : float) (a b : list float) : option float :=
  match a with
  | [] => Some temp
  | x :: a' =>
      match b with
      | [] => None
      | y :: b' => dotFProduct_from (Max temp (Min x y)) a' b'
      end
  end.

Definition dotFProduct (a b : list float) : option float :=
  dotFProduct_from 0 a b.

Definition findIndex (r c : Z) (A : Matrix) : Z :=
  ((r - 1) * columns A + (c - 1))%Z.

(** [s[lo:hi]] on a slice whose capacity is its length. *)
Definition slice (s : list float) (lo hi : Z) : option (list float) :=
  if ((0 <=? lo) && (lo <=? hi) && (hi <=? Z.of_nat (length s)))%Z
  then Some (take (Z.to_nat (hi - lo)) (drop (Z.to_nat lo) s))
  else None.

(** [s[i]]. *)
Definition index (s : list float) (i : Z) : option float :=
  if (0 <=? i)%Z then s !! Z.to_nat i else None.

Definition Get (A : Matrix) (r c : Z) : option float :=
  index (data A) (findIndex r c A).

Definition Set_ (A : Matrix) (r c : Z) (val : float) : option Matrix :=
  let i := findIndex r c A in
  if ((0 <=? i) && (i <? Z.of_nat (length (data A))))%Z
  then Some (mkMatrix (rows A) (columns A) (<[Z.to_nat i := val]> (data A)))
  else None.

Definition Row (A : Matrix) (n : Z) : option (list float) :=
  slice (data A) (findIndex n 1 A) (findIndex n (columns A + 1) A).

(** [Column]: for i = 1 .. rows, [col[i-1] = A.Row(i)[n-1]]. *)
Definition Column (A : Matrix) (n : Z) : option (list float) :=
  if (rows A <? 0)%Z then None
  else
    mapM (fun i => row ← Row A i; index row (n - 1))
         (seqZ 1 (rows A)).

Definition Zeros (r c : Z) : option Matrix :=
  if (r * c <? 0)%Z then None
  else Some (mkMatrix r c (replicate (Z.to_nat (r * c)) 0)).

(** The body of the inner loop of [FMultiply]: cell (r, c) of [C] takes
    the fuzzy dot product of [A_row] and column c of [B]. *)
Definition FMultiply_cell (B : Matrix) (A_row : list float) (r : Z)
    (acc : option Matrix) (c : Z) : option Matrix :=
  C ← acc;
  B_col ← Column B c;
  v ← dotFProduct A_row B_col;
  Set_ C r c v.

(** The body of the outer loop: row r of [A] against the columns
    1 .. n of [B]. *)
Definition FMultiply_row (A B : Matrix) (n : Z)
    (acc : option Matrix) (r : Z) : option Matrix :=
  C ← acc;
  A_row ← Row A r;
  fold_left (FMultiply_cell B A_row r) (seqZ 1 n) (Some C).

(** [FMultiply]: every cell of the result is the fuzzy dot product of a
    row of [A] and a column of [B]. *)
Definition FMultiply (A B : Matrix) : option Matrix :=
  C0 ← Zeros (rows A) (columns B);
  fold_left (FMultiply_row A B (columns C0)) (seqZ 1 (rows C0)) (Some C0).









(** How a call ends: with a value, with a run-time panic, or still
    running when the iterations that the model follows are used up. *)
Inductive outcome (A : Type) : Type :=
| Returns (a : A)
| Panics
| StillRunning.

Arguments Returns {A} a.
Arguments Panics {A}.
Arguments StillRunning {A}.

(** The loop of [Identity]: [for i := 0; i < len(A.data); i += n + 1],
    followed for at most [steps] iterations.  A store at a negative
    index panics. *)
Fixpoint Identity_loop (steps : nat) (n i : Z) (d : list float)
    : outcome (list float) :=
  if (i <? Z.of_nat (length d))%Z then
    match steps with
    | O => StillRunning
    | S steps =>
        if (0 <=? i)%Z
        then Identity_loop steps n (i + (n + 1))%Z (<[Z.to_nat i := 1]> d)
        else Panics
    end
  else Returns d.

Definition Identity (steps : nat) (n : Z) : outcome Matrix :=
  match Zeros n n with
  | None => Panics
  | Some A =>
      match Identity_loop steps n 0 (data A) with
      | Returns d => Returns (mkMatrix (rows A) (columns A) d)
      | Panics => Panics
      | StillRunning => StillRunning
      end
  end.

(** [InitMatrix]: the slice given becomes the contents. *)
Definition InitMatrix (r c : Z) (d : list float) : option Matrix :=
  if negb (Z.of_nat (length d) =? r * c)%Z then None
  else
    A ← Zeros r c;
    Some (mkMatrix (rows A) (columns A) d).

Definition InitMatrix2 (r c : Z) : option Matrix := Zeros r c.

End Matrix.

(* ================================================================== *)
(** * Vocabulary of the specification *)
(* ================================================================== *)

(** The supply cap, [TotalCoin * 10^18]. *)
Definition supplyCap : Z := TotalCoin * 10 ^ 18.

(** The epoch of a block number as the specification words it: the number
    of boundaries of the halving schedule that lie strictly below it. *)
Definition epochIndex (number : Z) : nat :=
  length (List.filter (fun b => b <? number) blockFiveYearNumber).

(** The base rewards shifted right by [k]: G', T' and E'. *)
Definition minerBase (k : nat) : Z := Z.shiftr GenBlockReward (Z.of_nat k).
Definition uncleBase (k : nat) : Z := Z.shiftr GenBlockUncleReward (Z.of_nat k).
Definition ecoBase (k : nat) : Z := Z.shiftr GenBlockEcoReward (Z.of_nat k).

(** A sequence of credits applied to a state, first to last. *)
Definition apply_credits (state : StateDB) (calls : list (Address * Z)) : StateDB :=
  fold_left (fun s '(a, v) => AddBalance s a v) calls state.

(** The total that a sequence of credits gives to one address. *)
Fixpoint credited (a : Address) (calls : list (Address * Z)) : Z :=
  match calls with
  | [] => 0
  | (b, v) :: rest => (if N.eqb a b then v else 0) + credited a rest
  end.

(** The credits of one finalization, in the order they are made: the
    uncles' coinbases, the miner, the ecosystem addresses. *)
Definition reward_calls (G' T' E' : Z) (header : Header) (uncles : list Header)
    : list (Address * Z) :=
  map (fun u => (Coinbase u, T')) uncles
  ++ [(Coinbase header, G' + (Z.of_nat (length uncles) * T') / 6)]
  ++ map (fun s => (HexToAddress s, E')) CDAddress.

(** The most one block can issue with [u] uncles, at base rewards. *)
Definition maxBlockPayout (u : nat) : Z :=
  let rcount := Z.of_nat u * GenBlockUncleReward in
  GenBlockReward + rcount / 6 + 100 * GenBlockEcoReward + rcount.

Definition emptyState : StateDB := mkState ∅ [].

(** A header that is zero everywhere but in the fields named. *)
Definition blankHeader : Header :=
  mkHeader 0 0 0%N 0 0 0 0 0 0 [] 0 0 0 0 0 0 0 0 0.

Definition headerAt (number rewards : Z) : Header :=
  mkHeader 0 0 0%N 0 0 number 0 0 0 [] 0 0 0 0 0 0 0 0 rewards.

(** A block of the first epoch with one uncle, for the worked examples. *)
Definition exampleBlock : Header :=
  mkHeader 0 0 7%N 0 0 5 0 0 0 [] 0 0 0 0 0 0 0 0 1000.

Definition exampleUncles : list Header :=
  [mkHeader 0 0 9%N 0 0 4 0 0 0 [] 0 0 0 0 0 0 0 0 0].

(** A parent and its child as the difficulty regimes see them: block
    numbers, timestamps and the parent's (N, P, NP). *)
Definition diffHeader (number time n p np : Z) : Header :=
  mkHeader 0 0 0%N 0 0 number 0 0 time [] 0 0 n p 0 0 0 np 0.

(** A link of a valid chain, as far as the regimes read it: the child
    follows the parent in number and in time, everything fits its Go
    type, and the parent's pair respects the floors and the ceiling. *)
Definition valid_link (params : Params) (parent header : Header) : Prop :=
  0 <= Number parent /\ Number header = Number parent + 1 /\
  Number header < U64.modulus /\
  0 <= Time parent /\ Time parent < Time header /\ Time header < U64.modulus /\
  U64.in_range (hN parent) /\ U64.in_range (hP parent) /\
  params_N params <= hN parent /\
  params_P params <= hP parent /\ hP parent <= 256 /\
  0 <= NP parent.

(** The protocol constants used in the worked examples: floors
    (N, P) = (1, 2), and the gas constants 1024 and 5000. *)
Definition exampleParams : Params :=
  mkParams 1 2 1024 5000 32 2048 131072 13 0.

(** The case-analysis tactics of the proofs below. *)
Ltac no_test t :=
  lazymatch t with
  | context [if _ then _ else _] => fail
  | _ => idtac
  end.

(** Case analysis on the integer tests of a goal whose operands are free
    of tests themselves; what is left is for [lia]. *)
Ltac cmp_cases :=
  cbn [andb orb negb fst snd];
  repeat (first
    [ rewrite Z.gtb_ltb
    | rewrite Z.geb_leb
    | match goal with
      | |- context [Z.ltb ?a ?b] =>
          no_test a; no_test b; destruct (Z.ltb_spec a b)
      | |- context [Z.leb ?a ?b] =>
          no_test a; no_test b; destruct (Z.leb_spec a b)
      | |- context [Z.eqb ?a ?b] =>
          no_test a; no_test b; destruct (Z.eqb_spec a b)
      end ];
    cbn [andb orb negb fst snd]).

(** The headers of the two stalls of the cumulative difficulty. *)
Definition seaParent : Header := diffHeader 7 1000 1 2 5000.
Definition seaChild : Header := diffHeader 8 1064 0 0 0.
Definition lakeParent : Header := diffHeader 99 4000 64 256 5000.
Definition lakeChild : Header := diffHeader 100 4010 0 0 0.
Definition lakeParent12 : Header := diffHeader 88 3890 0 0 0.

(** The two errors of [verifyHeader] that reject a gas limit. *)
Definition is_gas_limit_error (e : error) : bool :=
  match e with
  | errGasLimitTooBig _ _ | errGasLimitBounds _ _ _ => true
  | _ => false
  end.

(** A header reaches the gas tests of [verifyHeader] when the tests
    before them pass: extra-data size, timestamp, scalar difficulty. *)
Definition reaches_gas_checks (params : Params) (ext : Externals)
    (chain : ChainReader) (header parent : Header) (uncle : bool) : Prop :=
  Z.of_nat (length (Extra header)) <= MaximumExtraDataSize params /\
  (if uncle then Time header <= MaxBig256
   else Time header <= now ext + allowedFutureBlockTime) /\
  Time parent < Time header /\
  CalcDifficulty params (Config chain) (U64.of_big (Time header)) parent
  = Difficulty header.

(** A stand-in environment for the worked examples: a clock, the block
    number as header hash, a matrix hash that returns nothing, fork
    validators that accept, a chain before Homestead, a fake-mode engine
    that fails at block 0 only. *)
Definition exampleExt : Externals :=
  mkExt 10000000000 (fun h => Number h + 1000) (fun _ => [])
        (fun _ _ _ _ _ => ([], [], [])) (fun _ => 0) (fun _ _ => true)
        (fun _ _ => None) (fun _ _ _ => None) (fun _ _ => 0).

Definition frontierConfig : ChainConfig :=
  mkConfig (fun _ => false) (fun _ => false) (fun _ => false) (fun _ => false).

Definition emptyChain : ChainReader :=
  mkChain frontierConfig (fun _ _ => None) (fun _ => None).

Definition fakeEngine : Ethash := mkEthash ModeFake 0 None.

(** A header for the gas tests: number, parent hash, time, difficulty,
    gas limit and gas used. *)
Definition gasHeader (number parentHash time difficulty gasLimit gasUsed : Z)
    : Header :=
  mkHeader parentHash 0 0%N 0 difficulty number gasLimit gasUsed time []
           0 0 0 0 0 0 0 0 0.

(** Parents and children for the gas tests, at the constants of
    [exampleParams]: a parent with gas limit 1024000 (limit 1000) and
    children at distance 999 and 1000; a parent whose gas limit is
    2^64 - 1 with a child at the minimum gas limit. *)
Definition gasParent : Header := gasHeader 10 0 1000 131072 1024000 0.
Definition gasChild999 : Header := gasHeader 11 0 1010 131136 1024999 0.
Definition gasChild1000 : Header := gasHeader 11 0 1010 131136 1025000 0.
Definition gasChildOverdrawn : Header := gasHeader 11 0 1010 131136 1025000 1025001.
Definition hugeParent : Header :=
  gasHeader 10 0 1000 131072 18446744073709551615 0.
Definition hugeChild : Header := gasHeader 11 0 1010 131136 5000 0.

(** The two lookups of [VerifyHeader]: the header itself, and the header
    stored under its parent hash one number below. *)
Definition known (ext : Externals) (chain : ChainReader) (header : Header)
    : option Header :=
  GetHeader chain (HeaderHash ext header) (U64.of_big (Number header)).

Definition chain_parent (chain : ChainReader) (header : Header) : option Header :=
  GetHeader chain (ParentHash header) (U64.sub (U64.of_big (Number header)) 1).

(** A chain that holds [gasParent] (block 10, hash 1010) and nothing
    else, and a batch of its two next blocks. *)
Definition chainOfOne : ChainReader :=
  mkChain frontierConfig
          (fun hash number =>
             if (hash =? 1010) && (number =? 10) then Some gasParent else None)
          (fun _ => None).

Definition batch1 : Header := gasHeader 11 1010 1010 131136 1024999 0.
Definition batch2 : Header := gasHeader 12 1011 1020 131200 1024999 0.

(** The element-wise mins of two slices, and the supremum of the
    specification: the maximum over the indices of min(a[i], b[i]), which
    does not exist for empty slices. *)
Definition mins (a b : list float) : list float :=
  zip_with Matrix.Min a b.

Definition max_of_mins (a b : list float) : option float :=
  match mins a b with
  | [] => None
  | m :: ms => Some (fold_left Matrix.Max ms m)
  end.

(** A float that is a number: not a NaN. *)
Definition is_number (x : float) : bool := negb (PrimFloat.is_nan x).

(** Case analysis on the comparisons of exponents and mantissas inside
    [SFcompare]. *)
Ltac sf_cases :=
  repeat match goal with
         | |- context [Z.compare ?a ?b] => destruct (Z.compare_spec a b)
         | |- context [Pos.compare_cont Eq ?a ?b] =>
             change (Pos.compare_cont Eq a b) with (Pos.compare a b);
             destruct (Pos.compare_spec a b)
         | H : context [Z.compare ?a ?b] |- _ => destruct (Z.compare_spec a b)
         | H : context [Pos.compare_cont Eq ?a ?b] |- _ =>
             change (Pos.compare_cont Eq a b) with (Pos.compare a b) in H;
             destruct (Pos.compare_spec a b)
         end;
  cbn [CompOpp] in *; try discriminate; try congruence; try lia.

(** Modelled from the spec: where a header gets its [rewards] before
    [Finalize] runs is outside the sources covered here.  The data model of the
    specification says that the field is the cumulative coin issued up to
    and including the block, so a block enters finalization carrying the
    total of its parent.  [finalizeWith] is one such step and
    [finalizeChain] a run of them; [finalizeBlock] is the step for the
    next block number without uncles and [mine count] makes [count] of
    them in a row. *)
Definition finalizeWith (total : Z) (block : Header * list Header) : Z :=
  Rewards (snd (accumulateRewardsGen emptyState
                  (set_Rewards (fst block) total) (snd block))).

Definition finalizeChain (total : Z) (blocks : list (Header * list Header)) : Z :=
  fold_left finalizeWith blocks total.

Definition finalizeBlock (st : Z * Z) : Z * Z :=
  (fst st + 1, finalizeWith (snd st) (headerAt (fst st + 1) 0, [])).

Definition mine (count : N) (start : Z * Z) : Z * Z :=
  N.iter count finalizeBlock start.

(** What a block without uncles issues in epoch [k]. *)
Definition blockPay (k : nat) : Z := minerBase k + 100 * ecoBase k.

(** A matrix whose slice holds exactly rows x columns values. *)
Definition well_formed (A : Matrix.Matrix) : Prop :=
  0 <= Matrix.rows A /\ 0 <= Matrix.columns A /\
  Z.of_nat (length (Matrix.data A)) = Matrix.rows A * Matrix.columns A.

(** The fuzzy dot product of row r of [A] and column c of [B]. *)
Definition cell (A B : Matrix.Matrix) (r c : Z) : option float :=
  row ← Matrix.Row A r; col ← Matrix.Column B c; Matrix.dotFProduct row col.

(* ================================================================== *)
(** * Uncle verification *)
(* ================================================================== *)

(** [types.Block] as [VerifyUncles] reads it: the header and the uncles.
    The hash, the parent hash and the number of a block are those of its
    header. *)
Record Block := mkBlock {
  block_header : Header;
  block_uncles : list Header
}.

Section Uncles.

Variable params : Params.
Variable ext : Externals.

(** [chain.GetBlock], the method of [consensus.ChainReader] that only
    [VerifyUncles] calls. *)
Variable GetBlock : Hash -> Z -> option Block.

Definition BlockHash (b : Block) : Hash := HeaderHash ext (block_header b).

(** The loop that gathers the past uncles and the ancestors, at most
    [rounds] generations back; it stops at the first block that the
    chain does not have. *)
Fixpoint gather_ancestors (rounds : nat) (parent : Hash) (number : Z)
    (uncles : gset Hash) (ancestors : gmap Hash Header)
    : gset Hash * gmap Hash Header :=
  match rounds with
  | O => (uncles, ancestors)
  | S rounds =>
      match GetBlock parent number with
      | None => (uncles, ancestors)
      | Some ancestor =>
          let ancestors :=
            <[BlockHash ancestor := block_header ancestor]> ancestors in
          let uncles :=
            fold_left (fun s uncle => {[HeaderHash ext uncle]} ∪ s)
                      (block_uncles ancestor) uncles in
          gather_ancestors rounds (ParentHash (block_header ancestor))
                           (U64.sub number 1) uncles ancestors
      end
  end.

(** The loop over the uncles of the block. *)
Fixpoint check_uncles (ethash : Ethash) (chain : ChainReader) (block : Block)
    (ancestors : gmap Hash Header) (us : list Header) (uncles : gset Hash)
    : result :=
  match us with
  | [] => None
  | uncle :: rest =>
      let hash := HeaderHash ext uncle in
      if decide (hash ∈ uncles) then Some errDuplicateUncle
      else
        let uncles := {[hash]} ∪ uncles in
        match ancestors !! hash with
        | Some _ => Some errUncleIsAncestor
        | None =>
            match ancestors !! ParentHash uncle with
            | None => Some errDanglingUncle
            | Some parent =>
                if ParentHash uncle =? ParentHash (block_header block)
                then Some errDanglingUncle
                else
                  match verifyHeader params ext ethash chain uncle parent
                                     true true with
                  | Some err => Some err
                  | None => check_uncles ethash chain block ancestors rest uncles
                  end
            end
        end
  end.

(** [VerifyUncles]. *)
Definition VerifyUncles (ethash : Ethash) (chain : ChainReader) (block : Block)
    : result :=
  if Mode_eqb (PowMode ethash) ModeFullFake then None
  else if Z.of_nat (length (block_uncles block)) >? maxUncles
  then Some errTooManyUncles
  else
    let number := U64.sub (U64.of_big (Number (block_header block))) 1 in
    let parent := ParentHash (block_header block) in
    let '(uncles, ancestors) := gather_ancestors 7 parent number ∅ ∅ in
    let ancestors := <[BlockHash block := block_header block]> ancestors in
    let uncles := {[BlockHash block]} ∪ uncles in
    check_uncles ethash chain block ancestors (block_uncles block) uncles.

(** [Author]: the coinbase of the header, and no error. *)
Definition Author (ethash : Ethash) (header : Header) : Address * result :=
  (Coinbase header, None).

End Uncles.

(* ================================================================== *)
(** * Vocabulary of the further properties *)
(* ================================================================== *)

(** The blocks that the gathering loop of [VerifyUncles] visits. *)
Fixpoint ancestor_blocks (GetBlock : Hash -> Z -> option Block)
    (rounds : nat) (parent : Hash) (number : Z) : list Block :=
  match rounds with
  | O => []
  | S rounds =>
      match GetBlock parent number with
      | None => []
      | Some ancestor =>
          ancestor :: ancestor_blocks GetBlock rounds
                        (ParentHash (block_header ancestor)) (U64.sub number 1)
      end
  end.

(** The seven generations before a block. *)
Definition recent_ancestors (GetBlock : Hash -> Z -> option Block)
    (block : Block) : list Block :=
  ancestor_blocks GetBlock 7 (ParentHash (block_header block))
                  (U64.sub (U64.of_big (Number (block_header block))) 1).

(** A value that a Go [int] of 64 bits holds.  The matrix functions
    compute their indices and slice lengths as exact integers; where a
    property needs more than the bounds checks of the slices, it asks
    that these integers fit, so that the code computes the same ones
    without wrapping. *)
Definition fits_int (x : Z) : Prop := - 2 ^ 63 <= x < 2 ^ 63.

(** A 2 x 3 matrix for the worked examples. *)
Definition exampleMatrix : Matrix.Matrix :=
  Matrix.mkMatrix 2 3 [1; 2; 3; 4; 5; 6]%float.





(** An environment whose header hash tells apart two headers of one
    number by their gas used, a chain of the blocks 10 and 11, and block
    12 with one uncle: a second child of block 10. *)
Definition uncleExt : Externals :=
  mkExt 10000000000 (fun h => Number h + 1000 + 1000000 * GasUsed h)
        (fun _ => []) (fun _ _ _ _ _ => ([], [], [])) (fun _ => 0)
        (fun _ _ => true) (fun _ _ => None) (fun _ _ _ => None) (fun _ _ => 0).

Definition uncleBlocks (hash number : Z) : option Block :=
  if (hash =? 1011) && (number =? 11) then Some (mkBlock batch1 [])
  else if (hash =? 1010) && (number =? 10) then Some (mkBlock gasParent [])
  else None.

Definition exampleUncle : Header := gasHeader 11 1010 1010 131136 1024999 1.

Definition blockWithUncle : Block := mkBlock batch2 [exampleUncle].

(** The credits that a call added to the journal, and their sum. *)
Definition new_credits (before after : StateDB) : list (Address * Z) :=
  drop (length (journal before)) (journal after).

Definition issued (calls : list (Address * Z)) : Z :=
  fold_right (fun c total => snd c + total) 0 calls.

(** A pair (n, p) that the adjustment tables can move without leaving
    the range of a [uint64]: at or above the floors, p at most 256. *)
Definition in_bounds (params : Params) (n p : Z) : Prop :=
  0 <= params_N params /\ 0 <= params_P params /\
  params_N params <= n /\ n < U64.modulus - 1 /\
  params_P params <= p /\ p <= 256.

(** Rewrites the [uint64] sums and differences that cannot wrap into
    the plain ones, in the goal and in the hypotheses. *)
Ltac u64_side := unfold U64.modulus in *; Z.div_mod_to_equations; lia.

Ltac u64_exact :=
  repeat match goal with
         | |- context [U64.sub ?a ?b] =>
             replace (U64.sub a b) with (a - b)
               by (unfold U64.sub, U64.wrap64; rewrite Z.mod_small;
                   [reflexivity|u64_side])
         | |- context [U64.add ?a ?b] =>
             replace (U64.add a b) with (a + b)
               by (unfold U64.add, U64.wrap64; rewrite Z.mod_small;
                   [reflexivity|u64_side])
         | H : context [U64.sub ?a ?b] |- _ =>
             replace (U64.sub a b) with (a - b) in H
               by (unfold U64.sub, U64.wrap64; rewrite Z.mod_small;
                   [reflexivity|u64_side])
         | H : context [U64.add ?a ?b] |- _ =>
             replace (U64.add a b) with (a + b) in H
               by (unfold U64.add, U64.wrap64; rewrite Z.mod_small;
                   [reflexivity|u64_side])
         end.

(** The exponential term that the Homestead rule adds, and the one of
    the Byzantium rule with its delay of 3,000,000 blocks. *)
Definition homesteadBomb (parent : Header) : Z :=
  let periodCount := (Number parent + 1) / 100000 in
  if periodCount >? 1 then 2 ^ (periodCount - 2) else 0.

Definition byzantiumBomb (parent : Header) : Z :=
  let fakeBlockNumber :=
    if Number parent >=? 2999999 then Number parent - 2999999 else 0 in
  let periodCount := fakeBlockNumber / 100000 in
  if periodCount >? 1 then 2 ^ (periodCount - 2) else 0.

(** An engine checks seals for real when neither it nor an engine it
    delegates to runs in a fake mode. *)
Fixpoint seals_for_real (ethash : Ethash) : bool :=
  let 'mkEthash mode _ sh := ethash in
  if Mode_eqb mode ModeFake || Mode_eqb mode ModeFullFake then false
  else match sh with
       | Some inner => seals_for_real inner
       | None => true
       end.

(** What a seal that passed says about the header: a positive
    difficulty, the fuzzy hash and the target test of [genHash] at the
    header's (P, N), and a pair (N, P) that is the one recomputed from
    the header's own alpha, NN and PP. *)
Definition seal_accepted (params : Params) (ext : Externals)
    (chain : ChainReader) (header : Header) : Prop :=
  0 < Difficulty header /\
  (let '(fhash, _, hash256) :=
     genHash ext (HashNoNonce ext header) (Nonce header)
             (HashNoNonce ext header) (hP header) (hN header) in
   FuzzyHash header = BytesToHash ext fhash /\
   compareDiff ext hash256 (U64.to_int64 (hP header)) = true) /\
  (hN header, hP header)
  = (if IsSeafork (Config chain) (Number header)
     then calcnpsea params (U64.of_big (Alpha header)) (NN header) (PP header)
     else calcnp params (U64.of_big (Alpha header)) (NN header) (PP header)) /\
  params_N params <= hN header /\
  params_P params <= hP header /\ hP header <= 256.

(** An engine in normal mode, and a header of block 11 that carries the
    pair (5, 10) of its parent with an alpha inside the dead band. *)
Definition realEngine : Ethash := mkEthash ModeNormal 0 None.

Definition sealedHeader : Header :=
  mkHeader 1010 0 0%N 0 131136 11 1024999 0 1010 [] 0 0 5 10 5 10 120 0 0.

(** What [Prepare] makes of [batch1] on the chain that holds its
    parent. *)
Definition preparedExample : Header :=
  match Prepare exampleParams chainOfOne batch1 with
  | PrepOk header => header
  | _ => blankHeader
  end.

(* ================================================================== *)
(** * Properties: machine integers *)
(* ================================================================== *)

Lemma wrap64_small z : U64.in_range z -> U64.wrap64 z = z.
Proof. unfold U64.in_range, U64.wrap64. intros H. now apply Z.mod_small. Qed.

Lemma wrap64_range z : U64.in_range (U64.wrap64 z).
Proof.
  unfold U64.in_range, U64.wrap64, U64.modulus.
  apply Z.mod_pos_bound. reflexivity.
Qed.

Lemma wrap64_mul_l a b : U64.wrap64 (U64.wrap64 a * b) = U64.wrap64 (a * b).
Proof. unfold U64.wrap64. now rewrite Z.mul_mod_idemp_l. Qed.

(** The eight wrapped multiplications keep the low 64 bits of the
    mathematical product. *)
Lemma np_product_wrap n p :
  np_product n p = U64.wrap64 (n * n * n * p * p * p * p * p * p).
Proof.
  unfold np_product, U64.mul.
  rewrite (wrap64_mul_l (n * n) n).
  rewrite (wrap64_mul_l (n * n * n) p).
  rewrite (wrap64_mul_l (n * n * n * p) p).
  rewrite (wrap64_mul_l (n * n * n * p * p) p).
  rewrite (wrap64_mul_l (n * n * n * p * p * p) p).
  rewrite (wrap64_mul_l (n * n * n * p * p * p * p) p).
  rewrite (wrap64_mul_l (n * n * n * p * p * p * p * p) p).
  reflexivity.
Qed.

Lemma np_product_exact n p :
  0 <= n -> 0 <= p -> n ^ 3 * p ^ 6 < U64.modulus ->
  np_product n p = n ^ 3 * p ^ 6.
Proof.
  intros Hn Hp Hlt. rewrite np_product_wrap.
  replace (n * n * n * p * p * p * p * p * p) with (n ^ 3 * p ^ 6) by ring.
  apply wrap64_small. split; [|assumption].
  apply Z.mul_nonneg_nonneg; apply Z.pow_nonneg; assumption.
Qed.

Lemma of_big_small z : U64.in_range z -> U64.of_big z = z.
Proof.
  intros H. unfold U64.of_big. rewrite Z.abs_eq by apply H.
  now apply wrap64_small.
Qed.

(* ================================================================== *)
(** * Properties: the (N, P) adjustment *)
(* ================================================================== *)

Section AdjustFacts.

Variable params : Params.

Lemma clamp_np_bounds n p :
  params_P params <= 256 ->
  params_N params <= fst (clamp_np params n p) /\
  params_P params <= snd (clamp_np params n p) /\
  snd (clamp_np params n p) <= 256.
Proof.
  intros HP. unfold clamp_np. cbn [fst snd].
  repeat match goal with
         | |- context [if ?b then _ else _] => destruct b eqn:?
         end; lia.
Qed.

Lemma calcnp_is_clamped timespan n p :
  exists n0 p0, calcnp params timespan n p = clamp_np params n0 p0.
Proof.
  unfold calcnp.
  repeat match goal with
         | |- context [if ?b then _ else _] => destruct b
         end; eauto.
Qed.

Lemma calcnpsea_is_clamped timespan n p :
  exists n0 p0, calcnpsea params timespan n p = clamp_np params n0 p0.
Proof.
  unfold calcnpsea.
  repeat match goal with
         | |- context [if ?b then _ else _] => destruct b
         end; eauto.
Qed.

End AdjustFacts.

(** C5.  For n >= params.N and params.P <= p <= 256, and every timespan,
    [calcnp timespan n p] is a pair (n', p') with n' >= params.N and
    params.P <= p' <= 256. *)
Theorem calcnp_respects_bounds (params : Params) (timespan n p : Z) :
  params_N params <= n ->
  params_P params <= p ->
  p <= 256 ->
  params_N params <= fst (calcnp params timespan n p) /\
  params_P params <= snd (calcnp params timespan n p) /\
  snd (calcnp params timespan n p) <= 256.
Proof.
  intros _ HP Hp.
  destruct (calcnp_is_clamped params timespan n p) as (n0 & p0 & ->).
  apply clamp_np_bounds. lia.
Qed.

Lemma calcnp_respects_bounds_witness :
  1 <= fst (calcnp exampleParams 100 2 2) /\
  2 <= snd (calcnp exampleParams 100 2 2) /\
  snd (calcnp exampleParams 100 2 2) <= 256.
Proof.
  apply (calcnp_respects_bounds exampleParams 100 2 2); cbn; lia.
Defined.

(** The same bounds hold for the Sea table. *)
Lemma calcnpsea_respects_bounds (params : Params) (timespan n p : Z) :
  params_P params <= 256 ->
  params_N params <= fst (calcnpsea params timespan n p) /\
  params_P params <= snd (calcnpsea params timespan n p) /\
  snd (calcnpsea params timespan n p) <= 256.
Proof.
  intros HP.
  destruct (calcnpsea_is_clamped params timespan n p) as (n0 & p0 & ->).
  now apply clamp_np_bounds.
Qed.

(** The scenarios S1-S3 of the specification, at floors (1, 2). *)
Example calcnp_S1 : calcnp exampleParams 100 2 2 = (2, 3).
Proof. reflexivity. Qed.

Example calcnp_S2 : calcnp exampleParams 104 2 2 = (3, 2).
Proof. reflexivity. Qed.

Example calcnp_S3 : calcnp exampleParams 200 2 3 = (2, 2).
Proof. reflexivity. Qed.

Lemma sub64_exact a b : 0 <= b -> b <= a -> a < U64.modulus -> U64.sub a b = a - b.
Proof. intros. unfold U64.sub. apply wrap64_small. unfold U64.in_range. lia. Qed.

(* ================================================================== *)
(** * Properties: the Sea scenario *)
(* ================================================================== *)

(** The pair and the contribution of scenario S4 for every pair of floors
    that the scenario's values are above. *)
Lemma calcnpsea_S4 (params : Params) :
  params_N params < 2 -> params_P params < 86 ->
  calcnpsea params 1000 2 100 = (2, 86).
Proof.
  intros HN HP. unfold calcnpsea, clamp_np.
  change (100 <? 256) with true. change (1000 <? 5) with false.
  change (1000 <? 7) with false. change (1000 >? 900) with true.
  change (1000 >? 30) with true. cbn iota.
  change (U64.sub 100 (100 / 7)) with 86.
  change (U64.sub 2 (2 / 7)) with 2.
  cmp_cases; try lia; reflexivity.
Qed.

(** The condition on the floors is exact: for any other floors the table
    returns another pair. *)
Lemma calcnpsea_S4_iff (params : Params) :
  calcnpsea params 1000 2 100 = (2, 86)
  <-> params_N params < 2 /\ params_P params < 86.
Proof.
  split; [|intros [HN HP]; now apply calcnpsea_S4].
  unfold calcnpsea, clamp_np.
  change (100 <? 256) with true. change (1000 <? 5) with false.
  change (1000 <? 7) with false. change (1000 >? 900) with true.
  change (1000 >? 30) with true. cbn iota.
  change (U64.sub 100 (100 / 7)) with 86.
  change (U64.sub 2 (2 / 7)) with 2.
  cmp_cases; change (U64.sub 2 1) with 1 in *;
    rewrite pair_equal_spec; intros [? ?]; lia.
Qed.


(** The floors (2, 2) are the pair that the scenarios S1 and S2 start
    from, and the scenarios S1 to S3 come out as the specification has
    them at these floors too. *)
Example scenarios_S1_S3_at_floor :
  calcnp (mkParams 2 2 1024 5000 32 2048 131072 13 0) 100 2 2 = (2, 3) /\
  calcnp (mkParams 2 2 1024 5000 32 2048 131072 13 0) 104 2 2 = (3, 2) /\
  calcnp (mkParams 2 2 1024 5000 32 2048 131072 13 0) 200 2 3 = (2, 2).
Proof. repeat split. Qed.



(* ================================================================== *)
(** * Properties: cumulative difficulty *)
(* ================================================================== *)

Lemma valid_link_number (params : Params) (parent header : Header) :
  valid_link params parent header ->
  U64.of_big (Number header) = Number header /\ 1 <= Number header.
Proof.
  unfold valid_link. intros (Hn & Hs & Hlt & _).
  split; [|lia]. apply of_big_small. unfold U64.in_range. lia.
Qed.

Lemma sea_timespan_range (params : Params) (parent header : Header) :
  valid_link params parent header ->
  1 <= sea_timespan header parent < U64.modulus.
Proof.
  intros Hv. pose proof Hv as (Hn & Hs & Hlt & Ht0 & Ht & Htlt & _).
  unfold sea_timespan.
  rewrite !of_big_small by (unfold U64.in_range; lia).
  rewrite sub64_exact by lia.
  unfold U64.modulus in *. cmp_cases; lia.
Qed.

Lemma sea_curNP_zero_iff n p timespan :
  0 <= timespan < U64.modulus ->
  (sea_curNP n p timespan = 0 <-> np_product n p = timespan).
Proof.
  intros Ht. unfold sea_curNP, U64.sub.
  pose proof (wrap64_range (np_product n p - timespan)) as Hr.
  assert (Hp : U64.in_range (np_product n p)).
  { rewrite np_product_wrap. apply wrap64_range. }
  unfold U64.in_range, U64.wrap64, U64.modulus in *.
  split; intros H.
  - apply Z.mod_divide in H; [|lia]. destruct H as [k Hk]. nia.
  - rewrite H, Z.sub_diag. reflexivity.
Qed.

(** C4, as the code has it.  Along a link of a valid chain the NP of both
    regimes is the parent's NP plus the block contribution, a [uint64]:
    n^3 p^6 reduced modulo 2^64 before the Sea fork, and that product
    minus the timespan, again modulo 2^64, after it.  So NP never
    decreases, and it grows strictly exactly when the contribution is not
    zero: when the 64-bit product differs from the timespan (Sea), when
    it is not zero (pre-Sea).  The pre-Sea regime returns a result
    whenever it is given the header twelve blocks back. *)
Theorem NP_grows_unless_contribution_vanishes
    (params : Params) (parent header : Header) :
  valid_link params parent header ->
  (let d := CalcDifficultyBySea params header parent in
   res_NP d = NP parent + sea_curNP (res_n d) (res_p d) (res_alpha d) /\
   NP parent <= res_NP d /\
   (NP parent < res_NP d <-> np_product (res_n d) (res_p d) <> res_alpha d)) /\
  (forall parent12 d,
     CalcDifficultyByLake params header parent parent12 = Some d ->
     res_NP d = NP parent + np_product (res_n d) (res_p d) /\
     NP parent <= res_NP d /\
     (NP parent < res_NP d <-> np_product (res_n d) (res_p d) <> 0)) /\
  (forall parent12,
     exists d, CalcDifficultyByLake params header parent (Some parent12) = Some d).
Proof.
  intros Hv.
  destruct (valid_link_number params parent header Hv) as [Hnum Hge].
  pose proof (sea_timespan_range params parent header Hv) as Hts.
  split; [|split].
  - cbv zeta. unfold CalcDifficultyBySea. rewrite Hnum.
    destruct (calcnpsea params (sea_timespan header parent) (hN parent) (hP parent))
      as [n p].
    destruct (Z.ltb_spec (Number header) 1); [lia|]. cbn [res_NP res_n res_p res_alpha].
    pose proof (sea_curNP_zero_iff n p (sea_timespan header parent)) as Hz.
    pose proof (wrap64_range (np_product n p - sea_timespan header parent)) as Hr.
    unfold sea_curNP, U64.sub, U64.in_range in *.
    split; [reflexivity|]. split; [lia|].
    split; intros H0.
    + intros Heq. apply Hz in Heq; lia.
    + assert (U64.wrap64 (np_product n p - sea_timespan header parent) <> 0).
      { intros Heq. apply Hz in Heq; [contradiction|lia]. }
      lia.
  - intros parent12 d. unfold CalcDifficultyByLake. rewrite Hnum.
    destruct (Z.ltb_spec (Number header) 1); [lia|].
    assert (Hp : forall n p, 0 <= np_product n p).
    { intros n p. rewrite np_product_wrap. apply wrap64_range. }
    destruct (Number header <=? 12).
    + intros [= <-]. cbn [res_NP res_n res_p].
      specialize (Hp (params_N params) (params_P params)). lia.
    + destruct parent12 as [p12|]; [|discriminate].
      destruct (calcnp params _ (hN parent) (hP parent)) as [n p].
      intros [= <-]. cbn [res_NP res_n res_p].
      specialize (Hp n p). lia.
  - intros parent12. unfold CalcDifficultyByLake.
    destruct (U64.of_big (Number header) <=? 12); [eauto|].
    destruct (calcnp params _ (hN parent) (hP parent)) as [n p]. eauto.
Qed.

Lemma NP_grows_unless_contribution_vanishes_witness :
  (let d := CalcDifficultyBySea exampleParams seaChild seaParent in
   res_NP d = NP seaParent + sea_curNP (res_n d) (res_p d) (res_alpha d) /\
   NP seaParent <= res_NP d /\
   (NP seaParent < res_NP d <-> np_product (res_n d) (res_p d) <> res_alpha d)) /\
  (forall parent12 d,
     CalcDifficultyByLake exampleParams seaChild seaParent parent12 = Some d ->
     res_NP d = NP seaParent + np_product (res_n d) (res_p d) /\
     NP seaParent <= res_NP d /\
     (NP seaParent < res_NP d <-> np_product (res_n d) (res_p d) <> 0)) /\
  (forall parent12,
     exists d, CalcDifficultyByLake exampleParams seaChild seaParent (Some parent12) = Some d).
Proof.
  apply (NP_grows_unless_contribution_vanishes exampleParams seaParent seaChild).
  unfold valid_link, U64.in_range. vm_compute.
  repeat split; first [reflexivity | discriminate].
Defined.

(** C4 as stated fails in both regimes, at floors (1, 2).  Sea: a block
    64 seconds after a parent that sits on the floors keeps (n, p) =
    (1, 2), and 1^3 * 2^6 - 64 = 0.  Pre-Sea: at (n, p) = (64, 256) the
    product 2^66 wraps to 0. *)
Lemma NP_stalls :
  (valid_link exampleParams seaParent seaChild /\
   CalcDifficultyBySea exampleParams seaChild seaParent
   = mkDiff 1 2 64 (NP seaParent)) /\
  (valid_link exampleParams lakeParent lakeChild /\
   CalcDifficultyByLake exampleParams lakeChild lakeParent (Some lakeParent12)
   = Some (mkDiff 64 256 120 (NP lakeParent))).
Proof.
  unfold valid_link, U64.in_range. vm_compute.
  repeat split; first [reflexivity | discriminate].
Qed.

(** The stall does not depend on the floors chosen above.  Sea: whatever
    the floors (N, P), with P < 256, a parent on the floors followed
    N^3 * P^6 seconds later (7 seconds or more) contributes nothing. *)
Lemma calcnpsea_floor_fixed (params : Params) (t : Z) :
  7 <= t -> params_P params < 256 ->
  calcnpsea params t (params_N params) (params_P params)
  = (params_N params, params_P params).
Proof.
  intros Ht HP. unfold calcnpsea, clamp_np.
  cmp_cases; try lia; reflexivity.
Qed.

Lemma sea_stalls_on_the_floors (params : Params) (parent header : Header) :
  valid_link params parent header ->
  hN parent = params_N params ->
  hP parent = params_P params ->
  params_P params < 256 ->
  Number header <> 1 ->
  7 <= np_product (params_N params) (params_P params) ->
  Time header - Time parent = np_product (params_N params) (params_P params) ->
  res_NP (CalcDifficultyBySea params header parent) = NP parent.
Proof.
  intros Hv HN HP Hlt Hn1 H7 Ht.
  destruct (valid_link_number params parent header Hv) as [Hnum Hge].
  pose proof Hv as (Hn & Hs & Hnlt & Ht0 & Htlt & Hhlt & _).
  assert (Hspan : sea_timespan header parent
                  = np_product (params_N params) (params_P params)).
  { unfold sea_timespan. rewrite Hnum.
    rewrite !of_big_small by (unfold U64.in_range; lia).
    rewrite sub64_exact by lia.
    destruct (Z.eqb_spec (Number header) 1); [contradiction|].
    destruct (Z.ltb_spec (Time header) (Time parent)); lia. }
  unfold CalcDifficultyBySea. rewrite Hspan, HN, HP, Hnum.
  rewrite calcnpsea_floor_fixed by assumption.
  destruct (Z.ltb_spec (Number header) 1); [lia|]. cbn [res_NP].
  unfold sea_curNP, U64.sub. rewrite Z.sub_diag.
  change (U64.wrap64 0) with 0. lia.
Qed.

(** Pre-Sea: whatever the floors up to (64, 256), a parent at (64, 256)
    and a twelve-block span of 108 to 138 seconds contribute nothing. *)
Lemma lake_stalls_at_64_256 (params : Params) (parent header p12 : Header) :
  valid_link params parent header ->
  hN parent = 64 -> hP parent = 256 ->
  12 < Number header ->
  0 <= Time p12 ->
  108 <= Time header - Time p12 <= 138 ->
  CalcDifficultyByLake params header parent (Some p12)
  = Some (mkDiff 64 256 (Time header - Time p12) (NP parent)).
Proof.
  intros Hv HN HP Hnum12 Hp12 Hspan.
  destruct (valid_link_number params parent header Hv) as [Hnum Hge].
  pose proof Hv as (Hn & Hs & Hnlt & Ht0 & Htlt & Hhlt & _ & _ & HfN & HfP & _).
  unfold CalcDifficultyByLake. rewrite Hnum.
  rewrite !of_big_small by (unfold U64.in_range; lia).
  rewrite sub64_exact by lia.
  destruct (Z.ltb_spec (Number header) 1); [lia|].
  destruct (Z.leb_spec (Number header) 12); [lia|].
  destruct (Z.ltb_spec (Time header) (Time p12)); [lia|].
  assert (Hc : calcnp params (Time header - Time p12) (hN parent) (hP parent)
               = (64, 256)).
  { rewrite HN, HP in *. unfold calcnp, clamp_np.
    change (256 <? 256) with false. cbn iota.
    cmp_cases; try lia; f_equal; lia. }
  rewrite Hc. change (np_product 64 256) with 0.
  now rewrite Z.add_0_r.
Qed.

(* ================================================================== *)
(** * Properties: the reward accumulator *)
(* ================================================================== *)

Lemma epochIndex_le_7 number : (epochIndex number <= 7)%nat.
Proof.
  unfold epochIndex.
  etransitivity; [apply List.filter_length_le|]. reflexivity.
Qed.

Lemma computerRewardBase_capped (h : Header) :
  supplyCap <= Rewards h -> computerRewardBase h = (0, 0, 0, 0).
Proof.
  intros Hcap. unfold computerRewardBase.
  change (TotalCoin * 1000000000000000000) with supplyCap.
  destruct (Z.leb_spec supplyCap (Rewards h)); [reflexivity|lia].
Qed.

Lemma computerRewardBase_epoch (h : Header) :
  Rewards h < supplyCap ->
  computerRewardBase h
  = (minerBase (epochIndex (Number h)), uncleBase (epochIndex (Number h)), 0,
     ecoBase (epochIndex (Number h))).
Proof.
  intros Hcap. unfold computerRewardBase.
  change (TotalCoin * 1000000000000000000) with supplyCap.
  destruct (Z.leb_spec supplyCap (Rewards h)); [lia|].
  unfold epochIndex, minerBase, uncleBase, ecoBase.
  cbv [boundary blockFiveYearNumber nth List.filter].
  cmp_cases; try lia; reflexivity.
Qed.

(** C3.  Below the supply cap, [computerRewardBase] returns the base
    rewards G = 4.5e17, T = 5e16, E = 1e15 shifted right by the epoch
    index k of the block number, where k counts the boundaries 3153600,
    9460800, 22075200, 47304000, 97761600, 198676800, 400507200 lying
    strictly below the number: k = 0 up to 3153600, one more past each
    boundary, 7 past the last.  Block 3153600 gets the unshifted base
    rewards, and at block 3153601 the miner's base is G >> 1 = 2.25e17. *)
Theorem computerRewardBase_halving (h : Header) :
  Rewards h < supplyCap ->
  computerRewardBase h
  = (Z.shiftr 450000000000000000 (Z.of_nat (epochIndex (Number h))),
     Z.shiftr 50000000000000000 (Z.of_nat (epochIndex (Number h))),
     0,
     Z.shiftr 1000000000000000 (Z.of_nat (epochIndex (Number h)))) /\
  (Number h <= 3153600 -> epochIndex (Number h) = 0%nat) /\
  (3153600 < Number h <= 9460800 -> epochIndex (Number h) = 1%nat) /\
  (9460800 < Number h <= 22075200 -> epochIndex (Number h) = 2%nat) /\
  (22075200 < Number h <= 47304000 -> epochIndex (Number h) = 3%nat) /\
  (47304000 < Number h <= 97761600 -> epochIndex (Number h) = 4%nat) /\
  (97761600 < Number h <= 198676800 -> epochIndex (Number h) = 5%nat) /\
  (198676800 < Number h <= 400507200 -> epochIndex (Number h) = 6%nat) /\
  (400507200 < Number h -> epochIndex (Number h) = 7%nat) /\
  (Number h = 3153600 ->
   computerRewardBase h
   = (450000000000000000, 50000000000000000, 0, 1000000000000000)) /\
  (Number h = 3153601 ->
   fst (fst (fst (computerRewardBase h))) = 225000000000000000).
Proof.
  intros Hcap.
  split; [exact (computerRewardBase_epoch h Hcap)|].
  assert (He : forall k, (Number h <= 3153600 -> k = 0%nat) ->
             (3153600 < Number h <= 9460800 -> k = 1%nat) ->
             (9460800 < Number h <= 22075200 -> k = 2%nat) ->
             (22075200 < Number h <= 47304000 -> k = 3%nat) ->
             (47304000 < Number h <= 97761600 -> k = 4%nat) ->
             (97761600 < Number h <= 198676800 -> k = 5%nat) ->
             (198676800 < Number h <= 400507200 -> k = 6%nat) ->
             (400507200 < Number h -> k = 7%nat) ->
             epochIndex (Number h) = k).
  { intros k H0 H1 H2 H3 H4 H5 H6 H7. unfold epochIndex.
    cbv [blockFiveYearNumber List.filter].
    cmp_cases; cbn [length]; symmetry;
      first [apply H0; lia | apply H1; lia | apply H2; lia | apply H3; lia
            | apply H4; lia | apply H5; lia | apply H6; lia | apply H7; lia
            | exfalso; lia]. }
  repeat split; intros Hn;
    try (apply He; intros; first [reflexivity | exfalso; lia]).
  - rewrite (computerRewardBase_epoch h Hcap).
    rewrite (He 0%nat); [reflexivity|intros; first [reflexivity | exfalso; lia]..].
  - rewrite (computerRewardBase_epoch h Hcap).
    rewrite (He 1%nat); [reflexivity|intros; first [reflexivity | exfalso; lia]..].
Qed.

Lemma computerRewardBase_halving_witness :
  computerRewardBase (headerAt 3153601 0)
  = (Z.shiftr 450000000000000000 (Z.of_nat (epochIndex 3153601)),
     Z.shiftr 50000000000000000 (Z.of_nat (epochIndex 3153601)),
     0,
     Z.shiftr 1000000000000000 (Z.of_nat (epochIndex 3153601))) /\
  (3153601 <= 3153600 -> epochIndex 3153601 = 0%nat) /\
  (3153600 < 3153601 <= 9460800 -> epochIndex 3153601 = 1%nat) /\
  (9460800 < 3153601 <= 22075200 -> epochIndex 3153601 = 2%nat) /\
  (22075200 < 3153601 <= 47304000 -> epochIndex 3153601 = 3%nat) /\
  (47304000 < 3153601 <= 97761600 -> epochIndex 3153601 = 4%nat) /\
  (97761600 < 3153601 <= 198676800 -> epochIndex 3153601 = 5%nat) /\
  (198676800 < 3153601 <= 400507200 -> epochIndex 3153601 = 6%nat) /\
  (400507200 < 3153601 -> epochIndex 3153601 = 7%nat) /\
  (3153601 = 3153600 ->
   computerRewardBase (headerAt 3153601 0)
   = (450000000000000000, 50000000000000000, 0, 1000000000000000)) /\
  (3153601 = 3153601 ->
   fst (fst (fst (computerRewardBase (headerAt 3153601 0)))) = 225000000000000000).
Proof.
  apply (computerRewardBase_halving (headerAt 3153601 0)).
  vm_compute. reflexivity.
Defined.

Lemma apply_credits_app state c1 c2 :
  apply_credits state (c1 ++ c2) = apply_credits (apply_credits state c1) c2.
Proof. unfold apply_credits. apply fold_left_app. Qed.

Lemma apply_credits_journal calls : forall state,
  journal (apply_credits state calls) = journal state ++ calls.
Proof.
  induction calls as [|[a v] calls IH]; intros state; cbn.
  - now rewrite app_nil_r.
  - change (journal (apply_credits (AddBalance state a v) calls)
            = journal state ++ (a, v) :: calls).
    rewrite IH. cbn. now rewrite <- app_assoc.
Qed.

Lemma GetBalance_AddBalance state a v b :
  GetBalance (AddBalance state a v) b
  = GetBalance state b + (if N.eqb b a then v else 0).
Proof.
  unfold GetBalance, AddBalance. cbn [balances].
  destruct (N.eqb_spec b a) as [->|Hne].
  - rewrite lookup_insert_eq. reflexivity.
  - rewrite lookup_insert_ne by congruence. lia.
Qed.

Lemma apply_credits_balance calls : forall state a,
  GetBalance (apply_credits state calls) a
  = GetBalance state a + credited a calls.
Proof.
  induction calls as [|[b v] calls IH]; intros state a; cbn [credited].
  - cbn. lia.
  - change (GetBalance (apply_credits (AddBalance state b v) calls) a
            = GetBalance state a + ((if N.eqb a b then v else 0) + credited a calls)).
    rewrite IH, GetBalance_AddBalance. lia.
Qed.

Lemma pay_uncles_credits T' uncles : forall state rcount,
  pay_uncles T' uncles (state, rcount)
  = (apply_credits state (map (fun u => (Coinbase u, T')) uncles),
     rcount + Z.of_nat (length uncles) * T').
Proof.
  induction uncles as [|u uncles IH]; intros state rcount.
  - cbn. f_equal. lia.
  - change (pay_uncles T' (u :: uncles) (state, rcount))
      with (pay_uncles T' uncles (AddBalance state (Coinbase u) T', rcount + T')).
    rewrite IH. cbn [map length]. f_equal. lia.
Qed.

Lemma pay_eco_credits E' addrs : forall state rcd,
  pay_eco E' addrs (state, rcd)
  = (apply_credits state (map (fun s => (HexToAddress s, E')) addrs),
     rcd + Z.of_nat (length addrs) * E').
Proof.
  induction addrs as [|s addrs IH]; intros state rcd.
  - cbn. f_equal. lia.
  - change (pay_eco E' (s :: addrs) (state, rcd))
      with (pay_eco E' addrs (AddBalance state (HexToAddress s) E', rcd + E')).
    rewrite IH. cbn [map length]. f_equal. lia.
Qed.

Lemma CDAddress_length : length CDAddress = 100%nat.
Proof. reflexivity. Qed.

(** One finalization, in closed form: the credits are those of
    [reward_calls], and the header's total grows by what was credited. *)
Lemma accumulateRewardsGen_closed state h uncles G' T' l E' :
  computerRewardBase h = (G', T', l, E') ->
  accumulateRewardsGen state h uncles
  = (apply_credits state (reward_calls G' T' E' h uncles),
     set_Rewards h
       (Rewards h + (G' + (Z.of_nat (length uncles) * T') / 6) + 100 * E'
        + Z.of_nat (length uncles) * T')).
Proof.
  intros Hbase. unfold accumulateRewardsGen. rewrite Hbase.
  rewrite pay_uncles_credits, pay_eco_credits, CDAddress_length.
  unfold reward_calls, big6. rewrite !apply_credits_app.
  cbn [apply_credits fold_left]. f_equal. f_equal.
  rewrite !Z.add_0_l. change (Z.of_nat 100) with 100. lia.
Qed.

(** C2.  For a header below the supply cap, [accumulateRewardsGen]
    credits T' to the coinbase of every uncle, in order, then G' + r to
    the header's coinbase with r = rcount / 6 and rcount = |U| * T', then
    E' to each of the 100 ecosystem addresses in list order; every
    balance grows by what these credits give it, and h.rewards becomes
    h.rewards + (G' + r) + 100 * E' + rcount.  (G', T', E') are the base
    rewards shifted by the epoch of h.number. *)
Theorem accumulateRewardsGen_pays (state : StateDB) (h : Header)
    (uncles : list Header) :
  Rewards h < supplyCap ->
  let G' := minerBase (epochIndex (Number h)) in
  let T' := uncleBase (epochIndex (Number h)) in
  let E' := ecoBase (epochIndex (Number h)) in
  let rcount := Z.of_nat (length uncles) * T' in
  let r := rcount / 6 in
  let state' := fst (accumulateRewardsGen state h uncles) in
  let h' := snd (accumulateRewardsGen state h uncles) in
  journal state'
  = journal state
    ++ map (fun u => (Coinbase u, T')) uncles
    ++ [(Coinbase h, G' + r)]
    ++ map (fun s => (HexToAddress s, E')) CDAddress /\
  length CDAddress = 100%nat /\
  (forall a, GetBalance state' a
             = GetBalance state a
               + credited a (map (fun u => (Coinbase u, T')) uncles)
               + (if N.eqb a (Coinbase h) then G' + r else 0)
               + credited a (map (fun s => (HexToAddress s, E')) CDAddress)) /\
  Rewards h' = Rewards h + (G' + r) + 100 * E' + rcount /\
  h' = set_Rewards h (Rewards h').
Proof.
  intros Hcap. cbv zeta.
  rewrite (accumulateRewardsGen_closed state h uncles _ _ _ _
             (computerRewardBase_epoch h Hcap)).
  cbn [fst snd]. repeat split.
  - rewrite apply_credits_journal. reflexivity.
  - intros a. unfold reward_calls.
    rewrite !apply_credits_app, !apply_credits_balance.
    cbn [credited]. lia.
Qed.

Lemma accumulateRewardsGen_pays_witness :
  let G' := minerBase (epochIndex 5) in
  let T' := uncleBase (epochIndex 5) in
  let E' := ecoBase (epochIndex 5) in
  let rcount := 1 * T' in
  let r := rcount / 6 in
  let state' := fst (accumulateRewardsGen emptyState exampleBlock exampleUncles) in
  let h' := snd (accumulateRewardsGen emptyState exampleBlock exampleUncles) in
  journal state'
  = [] ++ [(9%N, T')] ++ [(7%N, G' + r)]
    ++ map (fun s => (HexToAddress s, E')) CDAddress /\
  length CDAddress = 100%nat /\
  (forall a, GetBalance state' a
             = GetBalance emptyState a
               + credited a [(9%N, T')]
               + (if N.eqb a 7%N then G' + r else 0)
               + credited a (map (fun s => (HexToAddress s, E')) CDAddress)) /\
  Rewards h' = 1000 + (G' + r) + 100 * E' + rcount /\
  h' = set_Rewards exampleBlock (Rewards h').
Proof.
  apply (accumulateRewardsGen_pays emptyState exampleBlock exampleUncles).
  vm_compute. reflexivity.
Defined.

Example accumulateRewardsGen_example :
  Rewards (snd (accumulateRewardsGen emptyState exampleBlock exampleUncles))
  = 1000 + (450000000000000000 + 8333333333333333)
    + 100 * 1000000000000000 + 50000000000000000 /\
  GetBalance (fst (accumulateRewardsGen emptyState exampleBlock exampleUncles)) 7%N
  = 458333333333333333 /\
  GetBalance (fst (accumulateRewardsGen emptyState exampleBlock exampleUncles)) 9%N
  = 50000000000000000.
Proof. vm_compute. repeat split. Qed.

Lemma credited_zero a calls :
  Forall (fun c : Address * Z => snd c = 0) calls -> credited a calls = 0.
Proof.
  induction 1 as [|[b v] calls Hv _ IH]; cbn [credited]; [reflexivity|].
  cbn in Hv. subst v. rewrite IH. now destruct (N.eqb a b).
Qed.

Lemma set_Rewards_same h : set_Rewards h (Rewards h) = h.
Proof. now destruct h. Qed.

(** C10.  When h.rewards is at or above TotalCoin * 10^18 at entry,
    [accumulateRewardsGen] changes nothing that can be observed: the
    credits it makes, to every uncle's coinbase, to the miner and to the
    100 ecosystem addresses, are all of amount zero, every balance reads
    as before, and the header, h.rewards included, is left as it was. *)
Theorem accumulateRewardsGen_noop_at_cap (state : StateDB) (h : Header)
    (uncles : list Header) :
  supplyCap <= Rewards h ->
  let state' := fst (accumulateRewardsGen state h uncles) in
  let h' := snd (accumulateRewardsGen state h uncles) in
  journal state'
  = journal state
    ++ map (fun u => (Coinbase u, 0)) uncles
    ++ [(Coinbase h, 0)]
    ++ map (fun s => (HexToAddress s, 0)) CDAddress /\
  (forall a, GetBalance state' a = GetBalance state a) /\
  Rewards h' = Rewards h /\
  h' = h.
Proof.
  intros Hcap. cbv zeta.
  rewrite (accumulateRewardsGen_closed state h uncles _ _ _ _
             (computerRewardBase_capped h Hcap)).
  cbn [fst snd]. unfold reward_calls.
  rewrite !Z.mul_0_r. change (0 `div` 6) with 0.
  rewrite !Z.add_0_r. rewrite set_Rewards_same.
  repeat split.
  - rewrite apply_credits_journal. reflexivity.
  - intros a. rewrite apply_credits_balance, credited_zero; [lia|].
    rewrite !Forall_app. repeat split.
    + apply Forall_forall. intros c Hc. apply list_elem_of_In, in_map_iff in Hc.
      destruct Hc as (u & <- & _). reflexivity.
    + repeat constructor.
    + apply Forall_forall. intros c Hc. apply list_elem_of_In, in_map_iff in Hc.
      destruct Hc as (u & <- & _). reflexivity.
Qed.

Lemma accumulateRewardsGen_noop_at_cap_witness :
  let state' := fst (accumulateRewardsGen emptyState (headerAt 9 supplyCap) exampleUncles) in
  let h' := snd (accumulateRewardsGen emptyState (headerAt 9 supplyCap) exampleUncles) in
  journal state'
  = [] ++ [(9%N, 0)] ++ [(0%N, 0)]
    ++ map (fun s => (HexToAddress s, 0)) CDAddress /\
  (forall a, GetBalance state' a = GetBalance emptyState a) /\
  Rewards h' = supplyCap /\
  h' = headerAt 9 supplyCap.
Proof.
  apply (accumulateRewardsGen_noop_at_cap emptyState (headerAt 9 supplyCap) exampleUncles).
  vm_compute. discriminate.
Defined.

Lemma shifted_bounds x k : 0 <= x -> 0 <= Z.shiftr x (Z.of_nat k) <= x.
Proof.
  intros Hx. rewrite Z.shiftr_div_pow2 by lia.
  assert (0 < 2 ^ Z.of_nat k) by (apply Z.pow_pos_nonneg; lia).
  split.
  - apply Z.div_pos; lia.
  - apply Z.div_le_upper_bound; nia.
Qed.

Lemma minerBase_pos k : (k <= 7)%nat -> 0 < minerBase k.
Proof.
  intros Hk. do 8 (destruct k as [|k]; [reflexivity|]). lia.
Qed.

(** One finalization seen from the header's total: unchanged at or above
    the cap, and below it raised by the block's payout, to less than the
    cap plus the largest payout of one block. *)
Lemma rewards_step (state : StateDB) (h : Header) (uncles : list Header) :
  (supplyCap <= Rewards h ->
   Rewards (snd (accumulateRewardsGen state h uncles)) = Rewards h) /\
  (Rewards h < supplyCap ->
   Rewards (snd (accumulateRewardsGen state h uncles))
   = Rewards h
     + (minerBase (epochIndex (Number h))
        + (Z.of_nat (length uncles) * uncleBase (epochIndex (Number h))) / 6)
     + 100 * ecoBase (epochIndex (Number h))
     + Z.of_nat (length uncles) * uncleBase (epochIndex (Number h)) /\
   Rewards h < Rewards (snd (accumulateRewardsGen state h uncles)) /\
   Rewards (snd (accumulateRewardsGen state h uncles))
   < supplyCap + maxBlockPayout (length uncles)).
Proof.
  split; intros Hcap.
  - rewrite (accumulateRewardsGen_closed state h uncles _ _ _ _
               (computerRewardBase_capped h Hcap)).
    cbn [snd set_Rewards Rewards]. rewrite Z.mul_0_r. change (0 `div` 6) with 0. lia.
  - rewrite (accumulateRewardsGen_closed state h uncles _ _ _ _
               (computerRewardBase_epoch h Hcap)).
    cbn [snd set_Rewards Rewards].
    set (k := epochIndex (Number h)).
    pose proof (minerBase_pos k (epochIndex_le_7 _)) as HG.
    pose proof (shifted_bounds GenBlockReward k ltac:(discriminate)) as HG'.
    pose proof (shifted_bounds GenBlockUncleReward k ltac:(discriminate)) as HT'.
    pose proof (shifted_bounds GenBlockEcoReward k ltac:(discriminate)) as HE'.
    fold (minerBase k) in HG'. fold (uncleBase k) in HT'. fold (ecoBase k) in HE'.
    unfold maxBlockPayout.
    set (u := Z.of_nat (length uncles)).
    assert (Hu : 0 <= u) by (unfold u; lia).
    assert (Hrc : 0 <= u * uncleBase k <= u * GenBlockUncleReward) by nia.
    assert (Hr : 0 <= (u * uncleBase k) / 6 <= (u * GenBlockUncleReward) / 6).
    { split; [apply Z.div_pos; lia|apply Z.div_le_mono; lia]. }
    lia.
Qed.

(** C1, as the code has it.  The cap is tested on entry only.  A header
    that enters at or above TotalCoin * 10^18 keeps its total.  A header
    that enters below it gains the block's payout, whatever the distance
    to the cap, and ends below the cap plus the largest payout of one
    block, G + 100 E + |U| T + (|U| T) / 6.  The cumulative rewards can
    thus pass the cap, by less than one block's payout, and stay where
    they are from then on. *)
Theorem rewards_within_one_block_of_cap (state : StateDB) (h : Header)
    (uncles : list Header) :
  let h' := snd (accumulateRewardsGen state h uncles) in
  (supplyCap <= Rewards h -> Rewards h' = Rewards h) /\
  (Rewards h < supplyCap ->
   Rewards h < Rewards h' /\
   Rewards h' < supplyCap + maxBlockPayout (length uncles)).
Proof.
  cbv zeta. destruct (rewards_step state h uncles) as [Hcapped Hbelow].
  split; [exact Hcapped|].
  intros Hlt. destruct (Hbelow Hlt) as (_ & Hgrow & Hbound). now split.
Qed.

Lemma maxBlockPayout_mono (u v : nat) :
  (u <= v)%nat -> maxBlockPayout u <= maxBlockPayout v.
Proof.
  intros Huv. unfold maxBlockPayout.
  assert (H : Z.of_nat u * GenBlockUncleReward <= Z.of_nat v * GenBlockUncleReward).
  { apply Z.mul_le_mono_nonneg_r; [discriminate|lia]. }
  pose proof (Z.div_le_mono _ _ 6 ltac:(lia) H). lia.
Qed.

Lemma finalizeWith_bounds (total : Z) (block : Header * list Header) :
  (length (snd block) <= 5)%nat ->
  total < supplyCap + maxBlockPayout 5 ->
  total <= finalizeWith total block < supplyCap + maxBlockPayout 5.
Proof.
  intros Hu Htotal. unfold finalizeWith.
  destruct (rewards_step emptyState (set_Rewards (fst block) total) (snd block))
    as [Hcapped Hbelow].
  change (Rewards (set_Rewards (fst block) total)) with total in *.
  destruct (Z.le_gt_cases supplyCap total) as [Hge|Hlt].
  - rewrite (Hcapped Hge). lia.
  - destruct (Hbelow Hlt) as (_ & Hgrow & Hbound).
    pose proof (maxBlockPayout_mono _ _ Hu). lia.
Qed.

(** Along a chain in which every block carries the total of its parent
    and at most [maxUncles] uncles, the total never decreases and stays
    below the cap plus the largest payout of one block. *)
Lemma finalizeChain_bounds (blocks : list (Header * list Header)) : forall total,
  Forall (fun block => (length (snd block) <= 5)%nat) blocks ->
  total < supplyCap + maxBlockPayout 5 ->
  total <= finalizeChain total blocks < supplyCap + maxBlockPayout 5.
Proof.
  induction blocks as [|block blocks IH]; intros total Hall Htotal.
  - cbn. lia.
  - inversion Hall as [|? ? Hu Hall']; subst.
    pose proof (finalizeWith_bounds total block Hu Htotal) as Hstep.
    change (finalizeChain total (block :: blocks))
      with (finalizeChain (finalizeWith total block) blocks).
    specialize (IH (finalizeWith total block) Hall' ltac:(lia)). lia.
Qed.

Lemma blockPay_nonneg k : 0 <= blockPay k.
Proof.
  unfold blockPay.
  pose proof (shifted_bounds GenBlockReward k ltac:(discriminate)).
  pose proof (shifted_bounds GenBlockEcoReward k ltac:(discriminate)).
  unfold minerBase, ecoBase. lia.
Qed.

Lemma finalizeBlock_below (number total : Z) :
  total < supplyCap ->
  finalizeBlock (number, total)
  = (number + 1, total + blockPay (epochIndex (number + 1))).
Proof.
  intros Hlt. unfold finalizeBlock, finalizeWith. cbn [fst snd].
  destruct (rewards_step emptyState (set_Rewards (headerAt (number + 1) 0) total) [])
    as [_ Hbelow].
  destruct (Hbelow Hlt) as (Heq & _). rewrite Heq.
  cbn [length Rewards Number set_Rewards headerAt]. unfold blockPay.
  change (Z.of_nat 0) with 0. rewrite Z.mul_0_l. change (0 `div` 6) with 0.
  f_equal. lia.
Qed.

(** Blocks without uncles, all of one epoch, started far enough below the
    cap: each adds the pay of the epoch. *)
Lemma mine_epoch (k : nat) (count : N) : forall number total,
  (forall i, number < i <= number + Z.of_N count -> epochIndex i = k) ->
  total + (Z.of_N count - 1) * blockPay k < supplyCap ->
  N.iter count finalizeBlock (number, total)
  = (number + Z.of_N count, total + Z.of_N count * blockPay k).
Proof.
  pose proof (blockPay_nonneg k) as Hpay.
  induction count as [|count IH] using N.peano_ind; intros number total Hk Hcap.
  - cbn. f_equal; lia.
  - rewrite N.iter_succ, IH by (try intros i Hi; try apply Hk; nia).
    rewrite finalizeBlock_below by nia.
    rewrite Hk by lia. f_equal; lia.
Qed.

Lemma epochIndex_between (number : Z) (k : nat) :
  (number <= 3153600 -> k = 0%nat) ->
  (3153600 < number <= 9460800 -> k = 1%nat) ->
  (9460800 < number <= 22075200 -> k = 2%nat) ->
  (22075200 < number <= 47304000 -> k = 3%nat) ->
  (47304000 < number <= 97761600 -> k = 4%nat) ->
  (97761600 < number <= 198676800 -> k = 5%nat) ->
  (198676800 < number <= 400507200 -> k = 6%nat) ->
  (400507200 < number -> k = 7%nat) ->
  epochIndex number = k.
Proof.
  intros H0 H1 H2 H3 H4 H5 H6 H7. unfold epochIndex.
  cbv [blockFiveYearNumber List.filter].
  cmp_cases; cbn [length]; symmetry;
    first [apply H0; lia | apply H1; lia | apply H2; lia | apply H3; lia
          | apply H4; lia | apply H5; lia | apply H6; lia | apply H7; lia
          | exfalso; lia].
Qed.

(** The chain without uncles that starts from a total of zero: after
    block 670154327 the total is still below the cap, and block
    670154328 takes it 3.125e15 above. *)
Lemma uncle_free_chain_passes_the_cap :
  mine 670154327 (0, 0) = (670154327, supplyCap - 1171875000000000) /\
  mine 670154328 (0, 0) = (670154328, supplyCap + 3125000000000000).
Proof.
  assert (Hepoch : forall k count number total next after,
    (forall i, number < i <= number + Z.of_N count -> epochIndex i = k) ->
    total + (Z.of_N count - 1) * blockPay k < supplyCap ->
    number + Z.of_N count = next ->
    total + Z.of_N count * blockPay k = after ->
    N.iter count finalizeBlock (number, total) = (next, after)).
  { intros k count number total next after Hk Hcap <- <-. now apply mine_epoch. }
  assert (H0 : N.iter 3153600 finalizeBlock (0, 0)
               = (3153600, 1734480000000000000000000)).
  { apply (Hepoch 0%nat); [|reflexivity..].
    intros i Hi. apply epochIndex_between; intros;
      first [reflexivity | exfalso; lia]. }
  assert (H1 : N.iter 6307200 finalizeBlock (3153600, 1734480000000000000000000)
               = (9460800, 3468960000000000000000000)).
  { apply (Hepoch 1%nat); [|reflexivity..].
    intros i Hi. apply epochIndex_between; intros;
      first [reflexivity | exfalso; lia]. }
  assert (H2 : N.iter 12614400 finalizeBlock (9460800, 3468960000000000000000000)
               = (22075200, 5203440000000000000000000)).
  { apply (Hepoch 2%nat); [|reflexivity..].
    intros i Hi. apply epochIndex_between; intros;
      first [reflexivity | exfalso; lia]. }
  assert (H3 : N.iter 25228800 finalizeBlock (22075200, 5203440000000000000000000)
               = (47304000, 6937920000000000000000000)).
  { apply (Hepoch 3%nat); [|reflexivity..].
    intros i Hi. apply epochIndex_between; intros;
      first [reflexivity | exfalso; lia]. }
  assert (H4 : N.iter 50457600 finalizeBlock (47304000, 6937920000000000000000000)
               = (97761600, 8672400000000000000000000)).
  { apply (Hepoch 4%nat); [|reflexivity..].
    intros i Hi. apply epochIndex_between; intros;
      first [reflexivity | exfalso; lia]. }
  assert (H5 : N.iter 100915200 finalizeBlock (97761600, 8672400000000000000000000)
               = (198676800, 10406880000000000000000000)).
  { apply (Hepoch 5%nat); [|reflexivity..].
    intros i Hi. apply epochIndex_between; intros;
      first [reflexivity | exfalso; lia]. }
  assert (H6 : N.iter 201830400 finalizeBlock (198676800, 10406880000000000000000000)
               = (400507200, 12141360000000000000000000)).
  { apply (Hepoch 6%nat); [|reflexivity..].
    intros i Hi. apply epochIndex_between; intros;
      first [reflexivity | exfalso; lia]. }
  assert (H7 : N.iter 269647127 finalizeBlock (400507200, 12141360000000000000000000)
               = (670154327, supplyCap - 1171875000000000)).
  { apply (Hepoch 7%nat); [|reflexivity..].
    intros i Hi. apply epochIndex_between; intros;
      first [reflexivity | exfalso; lia]. }
  assert (Hrun : N.iter 670154327 finalizeBlock (0, 0)
                 = (670154327, supplyCap - 1171875000000000)).
  { change 670154327%N
      with (269647127 + (201830400 + (100915200 + (50457600 + (25228800
            + (12614400 + (6307200 + 3153600)))))))%N.
    rewrite !N.iter_add, H0, H1, H2, H3, H4, H5, H6. exact H7. }
  unfold mine. split; [exact Hrun|].
  change 670154328%N with (N.succ 670154327).
  rewrite N.iter_succ, Hrun.
  rewrite finalizeBlock_below by reflexivity.
  rewrite (epochIndex_between _ 7%nat)
    by (intros; first [reflexivity | exfalso; lia]).
  reflexivity.
Qed.

(** C1 as stated fails.  A header of block 1 that enters one unit below
    the cap leaves with the full payout of the first epoch on top; and
    the chain without uncles that starts from zero passes the cap at
    block 670154328. *)
Lemma rewards_pass_the_cap :
  (Rewards (headerAt 1 (supplyCap - 1)) < supplyCap /\
   Rewards (snd (accumulateRewardsGen emptyState (headerAt 1 (supplyCap - 1)) []))
   = supplyCap - 1 + 550000000000000000 /\
   supplyCap
   < Rewards (snd (accumulateRewardsGen emptyState (headerAt 1 (supplyCap - 1)) []))) /\
  (snd (mine 670154327 (0, 0)) < supplyCap /\
   supplyCap < snd (mine 670154328 (0, 0))).
Proof.
  split.
  - vm_compute. repeat split.
  - destruct uncle_free_chain_passes_the_cap as [-> ->].
    vm_compute. split; reflexivity.
Qed.

(* ================================================================== *)
(** * Properties: the gas tests of verifyHeader *)
(* ================================================================== *)

Lemma to_int64_id z : - 2 ^ 63 <= z < 2 ^ 63 -> U64.to_int64 z = z.
Proof.
  intros Hz. unfold U64.to_int64, U64.wrap64, U64.modulus.
  destruct (Z.neg_nonneg_cases z) as [Hneg|Hpos].
  - assert (Hm : z mod 2 ^ 64 = z + 2 ^ 64).
    { symmetry. apply (Z.mod_unique_pos z (2 ^ 64) (-1)); lia. }
    rewrite Hm. destruct (Z.ltb_spec (z + 2 ^ 64) (2 ^ 63)); lia.
  - rewrite Z.mod_small by lia.
    destruct (Z.ltb_spec z (2 ^ 63)); lia.
Qed.

Lemma verifyHeader_reaches_gas params ext ethash chain header parent uncle seal :
  reaches_gas_checks params ext chain header parent uncle ->
  verifyHeader params ext ethash chain header parent uncle seal
  = verifyHeader_gas params ext ethash chain header parent uncle seal.
Proof.
  intros (Hextra & Htime & Hparent & Hdiff). unfold verifyHeader.
  rewrite Hdiff, Z.eqb_refl. cbn [negb].
  destruct (Z.gtb_spec (Z.of_nat (length (Extra header)))
                       (MaximumExtraDataSize params)); [lia|].
  destruct (Z.leb_spec (Time header) (Time parent)); [lia|].
  destruct uncle.
  - destruct (Z.gtb_spec (Time header) MaxBig256); [lia|reflexivity].
  - destruct (Z.gtb_spec (Time header) (now ext + allowedFutureBlockTime));
      [lia|reflexivity].
Qed.

(** The distance that the code compares with the limit, when both gas
    limits are below 2^63: the absolute difference. *)
Lemma gas_distance pg hg :
  0 <= pg < 2 ^ 63 -> 0 <= hg < 2 ^ 63 ->
  U64.wrap64
    (if U64.wrap_int64 (U64.to_int64 pg - U64.to_int64 hg) <? 0
     then U64.wrap_int64
            (U64.wrap_int64 (U64.to_int64 pg - U64.to_int64 hg) * -1)
     else U64.wrap_int64 (U64.to_int64 pg - U64.to_int64 hg))
  = Z.abs (hg - pg).
Proof.
  intros Hp Hh. unfold U64.wrap_int64.
  rewrite (to_int64_id pg), (to_int64_id hg) by lia.
  rewrite (to_int64_id (pg - hg)) by lia.
  destruct (Z.ltb_spec (pg - hg) 0).
  - rewrite to_int64_id by lia.
    rewrite wrap64_small by (unfold U64.in_range, U64.modulus; lia). lia.
  - rewrite wrap64_small by (unfold U64.in_range, U64.modulus; lia). lia.
Qed.

(** C8, as the code has it.  For a header that reaches the gas tests,
    with a parent whose own gas limit is below 2^63 and with gasUsed
    within gasLimit, the tests let the header through to the checks that
    follow exactly when |h.gasLimit - p.gasLimit| < p.gasLimit /
    GasLimitBoundDivisor, h.gasLimit >= MinGasLimit and h.gasLimit <
    2^63, and return an invalid-gas-limit error otherwise.  A distance of
    limit - 1 passes, a distance of limit fails. *)
Theorem gas_limit_validation (params : Params) (ext : Externals)
    (ethash : Ethash) (chain : ChainReader) (header parent : Header)
    (uncle seal : bool) :
  reaches_gas_checks params ext chain header parent uncle ->
  0 < GasLimitBoundDivisor params ->
  0 <= GasLimit parent < 2 ^ 63 ->
  0 <= GasLimit header < 2 ^ 64 ->
  GasUsed header <= GasLimit header ->
  let limit := GasLimit parent / GasLimitBoundDivisor params in
  let delta := Z.abs (GasLimit header - GasLimit parent) in
  let within :=
    delta < limit /\ MinGasLimit params <= GasLimit header /\
    GasLimit header < 2 ^ 63 in
  let outcome := verifyHeader params ext ethash chain header parent uncle seal in
  (within ->
   outcome = verifyHeader_after_gas params ext ethash chain header parent uncle seal) /\
  (~ within -> exists e, outcome = Some e /\ is_gas_limit_error e = true) /\
  (delta = limit - 1 ->
   MinGasLimit params <= GasLimit header -> GasLimit header < 2 ^ 63 ->
   outcome = verifyHeader_after_gas params ext ethash chain header parent uncle seal) /\
  (delta = limit -> exists e, outcome = Some e /\ is_gas_limit_error e = true).
Proof.
  intros Hreach _ Hpg Hhg Hused. cbv zeta.
  rewrite (verifyHeader_reaches_gas _ _ _ _ _ _ _ _ Hreach).
  assert (Hpass :
    Z.abs (GasLimit header - GasLimit parent)
      < GasLimit parent / GasLimitBoundDivisor params ->
    MinGasLimit params <= GasLimit header -> GasLimit header < 2 ^ 63 ->
    verifyHeader_gas params ext ethash chain header parent uncle seal
    = verifyHeader_after_gas params ext ethash chain header parent uncle seal).
  { intros Hd Hmin Hcap. unfold verifyHeader_gas.
    destruct (Z.gtb_spec (GasLimit header) 9223372036854775807); [lia|].
    destruct (Z.gtb_spec (GasUsed header) (GasLimit header)); [lia|].
    cbv zeta. rewrite (gas_distance (GasLimit parent) (GasLimit header)) by lia.
    cmp_cases; try lia; reflexivity. }
  assert (Hfail :
    ~ (Z.abs (GasLimit header - GasLimit parent)
         < GasLimit parent / GasLimitBoundDivisor params /\
       MinGasLimit params <= GasLimit header /\ GasLimit header < 2 ^ 63) ->
    exists e,
      verifyHeader_gas params ext ethash chain header parent uncle seal = Some e /\
      is_gas_limit_error e = true).
  { intros Hnot. unfold verifyHeader_gas.
    destruct (Z.gtb_spec (GasLimit header) 9223372036854775807);
      [eexists; split; reflexivity|].
    destruct (Z.gtb_spec (GasUsed header) (GasLimit header)); [lia|].
    cbv zeta. rewrite (gas_distance (GasLimit parent) (GasLimit header)) by lia.
    cmp_cases; try (eexists; split; reflexivity). exfalso. apply Hnot. lia. }
  repeat split.
  - intros (Hd & Hmin & Hcap). now apply Hpass.
  - exact Hfail.
  - intros Hd Hmin Hcap. apply Hpass; lia.
  - intros Hd. apply Hfail. lia.
Qed.

Lemma gas_limit_validation_witness :
  let limit := 1024000 / 1024 in
  let delta := Z.abs (1024999 - 1024000) in
  let within := delta < limit /\ 5000 <= 1024999 /\ 1024999 < 2 ^ 63 in
  let outcome :=
    verifyHeader exampleParams exampleExt fakeEngine emptyChain
                 gasChild999 gasParent false true in
  (within ->
   outcome = verifyHeader_after_gas exampleParams exampleExt fakeEngine emptyChain
                                    gasChild999 gasParent false true) /\
  (~ within -> exists e, outcome = Some e /\ is_gas_limit_error e = true) /\
  (delta = limit - 1 -> 5000 <= 1024999 -> 1024999 < 2 ^ 63 ->
   outcome = verifyHeader_after_gas exampleParams exampleExt fakeEngine emptyChain
                                    gasChild999 gasParent false true) /\
  (delta = limit -> exists e, outcome = Some e /\ is_gas_limit_error e = true).
Proof.
  apply (gas_limit_validation exampleParams exampleExt fakeEngine emptyChain
                              gasChild999 gasParent false true).
  - unfold reaches_gas_checks. vm_compute.
    repeat split; first [reflexivity | discriminate].
  - reflexivity.
  - vm_compute. split; first [reflexivity | discriminate].
  - vm_compute. split; first [reflexivity | discriminate].
  - vm_compute. discriminate.
Defined.

(** The boundary on concrete headers: with limit 1000, the child at
    distance 999 is accepted and the child at distance 1000 is not. *)
Example gas_limit_boundary :
  verifyHeader exampleParams exampleExt fakeEngine emptyChain
               gasChild999 gasParent false true = None /\
  verifyHeader exampleParams exampleExt fakeEngine emptyChain
               gasChild1000 gasParent false true
  = Some (errGasLimitBounds 1025000 1024000 1000).
Proof. vm_compute. split; reflexivity. Qed.

(** C8 as stated fails in two ways.  First, for a parent whose gas limit
    does not fit an [int64]: the parent has gas limit 2^64 - 1, the child
    5000; the distance 2^64 - 5001 is far above the limit, yet [int64]
    turns the parent's gas limit into -1, the code measures 5001, and the
    header is accepted.  Second, the gasUsed test sits between the two
    gas-limit tests: a header at distance 1000 = limit that also
    overdraws its gas limit is rejected with the gasUsed error, not with
    an invalid-gas-limit error. *)
Lemma gas_limit_claim_fails :
  (reaches_gas_checks exampleParams exampleExt emptyChain hugeChild hugeParent false /\
   MinGasLimit exampleParams <= GasLimit hugeChild /\
   GasLimit hugeChild < 2 ^ 63 /\
   GasLimit hugeParent / GasLimitBoundDivisor exampleParams
   <= Z.abs (GasLimit hugeChild - GasLimit hugeParent) /\
   verifyHeader exampleParams exampleExt fakeEngine emptyChain
                hugeChild hugeParent false true = None) /\
  (reaches_gas_checks exampleParams exampleExt emptyChain gasChildOverdrawn gasParent false /\
   GasLimit gasParent / GasLimitBoundDivisor exampleParams
   <= Z.abs (GasLimit gasChildOverdrawn - GasLimit gasParent) /\
   verifyHeader exampleParams exampleExt fakeEngine emptyChain
                gasChildOverdrawn gasParent false true
   = Some (errGasUsed 1025001 1025000) /\
   is_gas_limit_error (errGasUsed 1025001 1025000) = false).
Proof.
  unfold reaches_gas_checks. vm_compute.
  repeat split; first [reflexivity | discriminate].
Qed.

(** The wrap does not depend on the constants chosen above: for every
    divisor from 2 to 2^40 and every minimum up to 5000, a child with gas
    limit 5000 of a parent with gas limit 2^64 - 1 passes the gas tests,
    at a distance of 2^64 - 5001 that is not below the limit. *)
Lemma gas_limit_int64_wraps_in_general (params : Params) (ext : Externals)
    (ethash : Ethash) (chain : ChainReader) (header parent : Header)
    (uncle seal : bool) :
  2 <= GasLimitBoundDivisor params <= 2 ^ 40 ->
  MinGasLimit params <= 5000 ->
  GasLimit parent = 2 ^ 64 - 1 ->
  GasLimit header = 5000 ->
  GasUsed header <= 5000 ->
  verifyHeader_gas params ext ethash chain header parent uncle seal
  = verifyHeader_after_gas params ext ethash chain header parent uncle seal /\
  GasLimit parent / GasLimitBoundDivisor params
  <= Z.abs (GasLimit header - GasLimit parent).
Proof.
  intros HD HM Hp Hh Hu.
  assert (Hlo : (2 ^ 64 - 1) / 2 ^ 40 <= (2 ^ 64 - 1) / GasLimitBoundDivisor params).
  { apply Z.div_le_compat_l; lia. }
  assert (Hhi : (2 ^ 64 - 1) / GasLimitBoundDivisor params <= (2 ^ 64 - 1) / 2).
  { apply Z.div_le_compat_l; lia. }
  change ((2 ^ 64 - 1) / 2 ^ 40) with 16777215 in Hlo.
  change ((2 ^ 64 - 1) / 2) with 9223372036854775807 in Hhi.
  split.
  - unfold verifyHeader_gas. rewrite Hp, Hh.
    change (5000 >? 9223372036854775807) with false. cbn iota.
    destruct (Z.gtb_spec (GasUsed header) 5000); [lia|]. cbv zeta.
    change (U64.wrap_int64 (U64.to_int64 (2 ^ 64 - 1) - U64.to_int64 5000))
      with (-5001).
    change (-5001 <? 0) with true. cbn iota.
    change (U64.wrap64 (U64.wrap_int64 (-5001 * -1))) with 5001.
    cmp_cases; try lia; reflexivity.
  - rewrite Hp, Hh. change (Z.abs (5000 - (2 ^ 64 - 1))) with 18446744073709546615.
    lia.
Qed.

(* ================================================================== *)
(** * Properties: batch verification *)
(* ================================================================== *)

Lemma VerifyHeaders_lookup params ext ethash chain headers seals (i : nat) :
  Mode_eqb (PowMode ethash) ModeFullFake = false ->
  (i < length headers)%nat ->
  VerifyHeaders params ext ethash chain headers seals !! i
  = Some (verifyHeaderWorker params ext ethash chain headers seals i).
Proof.
  intros Hmode Hi. unfold VerifyHeaders. rewrite Hmode. cbn [orb].
  destruct (Nat.eqb_spec (length headers) 0); [lia|].
  change (map (verifyHeaderWorker params ext ethash chain headers seals)
              (seq 0 (length headers)))
    with (verifyHeaderWorker params ext ethash chain headers seals
            <$> seq 0 (length headers)).
  rewrite list_lookup_fmap, lookup_seq_lt by assumption. reflexivity.
Qed.

Lemma VerifyHeaders_fullfake params ext ethash chain headers seals (i : nat) h :
  Mode_eqb (PowMode ethash) ModeFullFake = true ->
  headers !! i = Some h ->
  VerifyHeaders params ext ethash chain headers seals !! i = Some (Some None).
Proof.
  intros Hmode Hh. unfold VerifyHeaders. rewrite Hmode. cbn [orb].
  change (map (fun _ : Header => Some (@None error)) headers)
    with ((fun _ : Header => Some (@None error)) <$> headers).
  rewrite list_lookup_fmap, Hh. reflexivity.
Qed.

(** C7, as the code has it.  The result that the batch delivers for
    index i is the result of [VerifyHeader] on headers[i] with the same
    seal flag and chain when the engine runs in full-fake mode, or when
    the parent that the worker resolves (the chain's for index 0, the
    preceding header of the batch for the others, if its hash is the
    parent hash) is the header that the chain holds under
    headers[i].ParentHash, and headers[i] is unknown to the chain if that
    parent is missing. *)
Theorem batch_result_is_single_result (params : Params) (ext : Externals)
    (ethash : Ethash) (chain : ChainReader) (headers : list Header)
    (seals : list bool) (i : nat) (h : Header) (seal : bool) :
  headers !! i = Some h ->
  seals !! i = Some seal ->
  Mode_eqb (PowMode ethash) ModeFullFake = true \/
  (worker_parent ext chain headers i = Some (chain_parent chain h) /\
   (chain_parent chain h = None -> known ext chain h = None)) ->
  VerifyHeaders params ext ethash chain headers seals !! i
  = Some (Some (VerifyHeader params ext ethash chain h seal)).
Proof.
  intros Hh Hs Hcase.
  destruct (Mode_eqb (PowMode ethash) ModeFullFake) eqn:Hmode.
  - rewrite (VerifyHeaders_fullfake _ _ _ _ _ _ _ _ Hmode Hh).
    unfold VerifyHeader. now rewrite Hmode.
  - destruct Hcase as [Hff|[Hparent Hknown]]; [discriminate|].
    rewrite VerifyHeaders_lookup by (eauto using lookup_lt_Some).
    unfold verifyHeaderWorker, VerifyHeader.
    rewrite Hparent, Hmode. cbn [mbind option_bind].
    unfold chain_parent, known in *.
    destruct (GetHeader chain (ParentHash h) _) as [parent|] eqn:Hp.
    + rewrite Hh. cbn [mbind option_bind].
      destruct (GetHeader chain (HeaderHash ext h) _); [reflexivity|].
      rewrite Hs. reflexivity.
    + rewrite (Hknown eq_refl). reflexivity.
Qed.

Lemma batch_result_is_single_result_witness :
  VerifyHeaders exampleParams exampleExt fakeEngine chainOfOne
                [batch1; batch2] [true; true] !! 0%nat
  = Some (Some (VerifyHeader exampleParams exampleExt fakeEngine chainOfOne
                             batch1 true)).
Proof.
  apply (batch_result_is_single_result exampleParams exampleExt fakeEngine
           chainOfOne [batch1; batch2] [true; true] 0%nat batch1 true).
  - reflexivity.
  - reflexivity.
  - right. split; [reflexivity|]. vm_compute. discriminate.
Defined.

(** C7 as stated fails for the batches the engine is given: consecutive
    headers of which only the first has its parent in the chain.  In the
    batch the second header is verified against the first and accepted;
    on its own its parent is looked up in the chain and is unknown. *)
Lemma batch_parent_comes_from_the_batch :
  VerifyHeaders exampleParams exampleExt fakeEngine chainOfOne
                [batch1; batch2] [true; true]
  = [Some None; Some None] /\
  VerifyHeader exampleParams exampleExt fakeEngine chainOfOne batch1 true = None /\
  VerifyHeader exampleParams exampleExt fakeEngine chainOfOne batch2 true
  = Some ErrUnknownAncestor.
Proof. vm_compute. repeat split. Qed.

(** The same for every environment: a header whose parent is the
    preceding header of the batch, with nothing stored in the chain under
    its own hash or its parent's, is verified against that header in the
    batch and is [ErrUnknownAncestor] alone. *)
Lemma batch_parent_in_general params ext ethash chain first second seals seal :
  Mode_eqb (PowMode ethash) ModeFullFake = false ->
  HeaderHash ext first = ParentHash second ->
  known ext chain second = None ->
  chain_parent chain second = None ->
  seals !! 1%nat = Some seal ->
  verifyHeaderWorker params ext ethash chain [first; second] seals 1
  = Some (verifyHeader params ext ethash chain second first false seal) /\
  VerifyHeader params ext ethash chain second seal = Some ErrUnknownAncestor.
Proof.
  intros Hmode Hhash Hknown Hparent Hseal. unfold known, chain_parent in *. split.
  - unfold verifyHeaderWorker, worker_parent. cbn [lookup list_lookup mbind option_bind].
    rewrite Hhash, Z.eqb_refl. cbn [mbind option_bind].
    rewrite Hknown, Hseal. reflexivity.
  - unfold VerifyHeader. now rewrite Hmode, Hknown, Hparent.
Qed.

(** And the other way round: a header that the chain knows is accepted
    alone, and is [ErrUnknownAncestor] in a batch whose preceding header
    is not its parent. *)
Lemma batch_known_header_in_general params ext ethash chain first second seals seal stored :
  Mode_eqb (PowMode ethash) ModeFullFake = false ->
  HeaderHash ext first <> ParentHash second ->
  known ext chain second = Some stored ->
  verifyHeaderWorker params ext ethash chain [first; second] seals 1
  = Some (Some ErrUnknownAncestor) /\
  VerifyHeader params ext ethash chain second seal = None.
Proof.
  intros Hmode Hhash Hknown. unfold known in *. split.
  - unfold verifyHeaderWorker, worker_parent. cbn [lookup list_lookup mbind option_bind].
    destruct (Z.eqb_spec (HeaderHash ext first) (ParentHash second)); [contradiction|].
    reflexivity.
  - unfold VerifyHeader. now rewrite Hmode, Hknown.
Qed.

(* ================================================================== *)
(** * Properties: the order of binary64 numbers *)
(* ================================================================== *)

(** The comparison of the IEEE 754 specification is a total preorder on
    the floats that are not NaN; the primitive comparisons inherit it. *)

Lemma SFcompare_total f1 f2 :
  f1 <> S754_nan -> f2 <> S754_nan -> exists c, SFcompare f1 f2 = Some c.
Proof.
  intros H1 H2.
  destruct f1 as [s1| s1| |s1 m1 e1]; try contradiction;
  destruct f2 as [s2| s2| |s2 m2 e2]; try contradiction; cbn; eauto.
Qed.

Lemma SFcompare_refl f : f <> S754_nan -> SFcompare f f = Some Eq.
Proof.
  intros H.
  destruct f as [s| s| |s m e]; try contradiction; cbn;
    try (destruct s; reflexivity).
  destruct s; rewrite Z.compare_refl;
    change (Pos.compare_cont Eq m m) with (Pos.compare m m);
    rewrite Pos.compare_refl; reflexivity.
Qed.

Lemma SFcompare_opp f1 f2 c :
  SFcompare f1 f2 = Some c -> SFcompare f2 f1 = Some (CompOpp c).
Proof.
  destruct f1 as [s1| s1| |s1 m1 e1]; destruct f2 as [s2| s2| |s2 m2 e2];
    cbn; try discriminate;
    try (destruct s1); try (destruct s2); intros [= <-]; try reflexivity.
  all: rewrite (Z.compare_antisym e1 e2);
    change (Pos.compare_cont Eq m2 m1) with (Pos.compare m2 m1);
    change (Pos.compare_cont Eq m1 m2) with (Pos.compare m1 m2);
    rewrite (Pos.compare_antisym m1 m2);
    destruct (e1 ?= e2); cbn; try reflexivity;
    destruct (m1 ?= m2)%positive; reflexivity.
Qed.

Lemma SFleb_trans f1 f2 f3 :
  SFleb f1 f2 = true -> SFleb f2 f3 = true -> SFleb f1 f3 = true.
Proof.
  unfold SFleb.
  destruct f1 as [s1| s1| |s1 m1 e1]; destruct f2 as [s2| s2| |s2 m2 e2];
    destruct f3 as [s3| s3| |s3 m3 e3]; cbn;
    try discriminate; try reflexivity;
    try (destruct s1); try (destruct s2); try (destruct s3);
    try discriminate; try reflexivity; intros H12 H23.
  all: sf_cases.
Qed.

Lemma is_number_spec x : is_number x = true <-> Prim2SF x <> S754_nan.
Proof.
  unfold is_number, PrimFloat.is_nan. rewrite negb_involutive, FloatAxioms.eqb_spec.
  unfold SFeqb. split.
  - intros H Hnan. rewrite Hnan in H. discriminate.
  - intros H. now rewrite SFcompare_refl.
Qed.

Section FloatOrder.

Local Open Scope float_scope.

Lemma float_leb_refl x : is_number x = true -> (x <=? x) = true.
Proof.
  intros Hx. apply is_number_spec in Hx.
  rewrite FloatAxioms.leb_spec. unfold SFleb. now rewrite SFcompare_refl.
Qed.

Lemma float_leb_trans x y z :
  (x <=? y) = true -> (y <=? z) = true -> (x <=? z) = true.
Proof. rewrite !FloatAxioms.leb_spec. apply SFleb_trans. Qed.

Lemma float_ltb_leb x y : (x <? y) = true -> (x <=? y) = true.
Proof.
  rewrite FloatAxioms.ltb_spec, FloatAxioms.leb_spec. unfold SFltb, SFleb.
  now destruct (SFcompare (Prim2SF x) (Prim2SF y)) as [[]|].
Qed.

Lemma float_not_ltb_leb x y :
  is_number x = true -> is_number y = true ->
  (x <? y) = false -> (y <=? x) = true.
Proof.
  intros Hx Hy. apply is_number_spec in Hx, Hy.
  rewrite FloatAxioms.ltb_spec, FloatAxioms.leb_spec. unfold SFltb, SFleb.
  destruct (SFcompare_total _ _ Hx Hy) as [c Hc].
  rewrite Hc, (SFcompare_opp _ _ _ Hc). now destruct c.
Qed.

Lemma float_leb_antisym x y :
  (x <=? y) = true -> (y <=? x) = true -> (x =? y) = true.
Proof.
  rewrite !FloatAxioms.leb_spec, FloatAxioms.eqb_spec. unfold SFleb, SFeqb.
  destruct (SFcompare (Prim2SF x) (Prim2SF y)) as [c|] eqn:Hc; [|discriminate].
  rewrite (SFcompare_opp _ _ _ Hc). now destruct c.
Qed.

Lemma Min_cases x y : Matrix.Min x y = x \/ Matrix.Min x y = y.
Proof. unfold Matrix.Min. destruct (x <? y); auto. Qed.

Lemma Max_cases x y : Matrix.Max x y = x \/ Matrix.Max x y = y.
Proof. unfold Matrix.Max. destruct (x <? y); auto. Qed.

Lemma Min_number x y :
  is_number x = true -> is_number y = true -> is_number (Matrix.Min x y) = true.
Proof. intros Hx Hy. destruct (Min_cases x y) as [-> | ->]; assumption. Qed.

Lemma Max_number x y :
  is_number x = true -> is_number y = true -> is_number (Matrix.Max x y) = true.
Proof. intros Hx Hy. destruct (Max_cases x y) as [-> | ->]; assumption. Qed.

Lemma Max_ge_l x y :
  is_number x = true -> (x <=? Matrix.Max x y) = true.
Proof.
  intros Hx. unfold Matrix.Max. destruct (x <? y) eqn:Hlt.
  - now apply float_ltb_leb.
  - now apply float_leb_refl.
Qed.

Lemma Max_ge_r x y :
  is_number x = true -> is_number y = true -> (y <=? Matrix.Max x y) = true.
Proof.
  intros Hx Hy. unfold Matrix.Max. destruct (x <? y) eqn:Hlt.
  - now apply float_leb_refl.
  - now apply float_not_ltb_leb.
Qed.

(** The running maximum: above where it started, above everything it
    met, and equal to one of them. *)
Lemma fold_Max_is_maximum ms : forall m0,
  is_number m0 = true -> Forall (fun m => is_number m = true) ms ->
  is_number (fold_left Matrix.Max ms m0) = true /\
  (m0 <=? fold_left Matrix.Max ms m0) = true /\
  Forall (fun m => (m <=? fold_left Matrix.Max ms m0) = true) ms /\
  (fold_left Matrix.Max ms m0 = m0 \/ fold_left Matrix.Max ms m0 ∈ ms).
Proof.
  induction ms as [|m ms IH]; intros m0 H0 Hms; cbn [fold_left].
  - repeat split; [assumption|now apply float_leb_refl|constructor|now left].
  - inversion Hms as [|? ? Hm Hms']; subst.
    destruct (IH (Matrix.Max m0 m) (Max_number _ _ H0 Hm) Hms')
      as (Hnum & Hge & Hall & Hin).
    repeat split.
    + assumption.
    + apply (float_leb_trans _ (Matrix.Max m0 m)); [now apply Max_ge_l|exact Hge].
    + constructor; [|assumption].
      apply (float_leb_trans _ (Matrix.Max m0 m)); [now apply Max_ge_r|exact Hge].
    + destruct Hin as [Heq|Hin].
      * rewrite Heq. destruct (Max_cases m0 m) as [-> | ->];
          [now left|right; constructor].
      * right. now constructor.
Qed.

Lemma mins_number a : forall b,
  Forall (fun x => is_number x = true) a ->
  Forall (fun x => is_number x = true) b ->
  Forall (fun m => is_number m = true) (mins a b).
Proof.
  induction a as [|x a IH]; intros [|y b] Ha Hb; cbn; try constructor.
  - inversion Ha; inversion Hb; subst. now apply Min_number.
  - inversion Ha; inversion Hb; subst. now apply IH.
Qed.

(** The loop of [dotFProduct] is the running maximum of the mins. *)
Lemma dotFProduct_from_fold a : forall b temp,
  length a = length b ->
  Matrix.dotFProduct_from temp a b = Some (fold_left Matrix.Max (mins a b) temp).
Proof.
  induction a as [|x a IH]; intros [|y b] temp Hlen; try discriminate.
  - reflexivity.
  - cbn [Matrix.dotFProduct_from]. rewrite IH by (cbn in Hlen; lia). reflexivity.
Qed.

End FloatOrder.

(* ================================================================== *)
(** * Properties: the fuzzy dot product *)
(* ================================================================== *)

Section FuzzyDot.

Local Open Scope float_scope.

(** C9, as the code has it.  For equal-length slices free of NaN,
    [dotFProduct a b] is the maximum of 0 and the min(a[i], b[i]): the
    running maximum starts at 0, so the result is at least 0, at least
    every min, and is 0 or one of the mins.  It is the maximum over i of
    min(a[i], b[i]) whenever that maximum is not negative. *)
Theorem dotFProduct_is_max_of_zero_and_mins (a b : list float) :
  length a = length b ->
  Forall (fun x => is_number x = true) a ->
  Forall (fun x => is_number x = true) b ->
  exists r,
    Matrix.dotFProduct a b = Some r /\
    (0 <=? r) = true /\
    Forall (fun m => (m <=? r) = true) (mins a b) /\
    (r = 0 \/ r ∈ mins a b) /\
    (forall M, max_of_mins a b = Some M -> (0 <=? M) = true -> (r =? M) = true).
Proof.
  intros Hlen Ha Hb.
  pose proof (mins_number a b Ha Hb) as Hms.
  destruct (fold_Max_is_maximum (mins a b) 0 eq_refl Hms)
    as (Hnum & Hge & Hall & Hin).
  exists (fold_left Matrix.Max (mins a b) 0).
  split; [now apply dotFProduct_from_fold|].
  repeat split; try assumption.
  intros M HM HM0. unfold max_of_mins in HM.
  destruct (mins a b) as [|m ms] eqn:Hmins; [discriminate|].
  injection HM as <-.
  inversion Hms as [|? ? Hm Hms']; subst.
  destruct (fold_Max_is_maximum ms m Hm Hms') as (_ & HgeM & HallM & HinM).
  set (M := fold_left Matrix.Max ms m) in *.
  set (r := fold_left Matrix.Max (m :: ms) 0) in *.
  assert (HubM : forall x, x ∈ m :: ms -> (x <=? M) = true).
  { intros x Hx. apply elem_of_cons in Hx as [->|Hx]; [assumption|].
    rewrite Forall_forall in HallM. now apply HallM. }
  assert (HMin : M ∈ m :: ms).
  { destruct HinM as [->|HinM]; [constructor|now constructor]. }
  apply float_leb_antisym.
  - destruct Hin as [->|Hin]; [assumption|now apply HubM].
  - rewrite Forall_forall in Hall. now apply Hall.
Qed.

Lemma dotFProduct_is_max_of_zero_and_mins_witness :
  exists r,
    Matrix.dotFProduct [0.5; 0.25] [0.75; 1] = Some r /\
    (0 <=? r) = true /\
    Forall (fun m => (m <=? r) = true) (mins [0.5; 0.25] [0.75; 1]) /\
    (r = 0 \/ r ∈ mins [0.5; 0.25] [0.75; 1]) /\
    (forall M, max_of_mins [0.5; 0.25] [0.75; 1] = Some M ->
               (0 <=? M) = true -> (r =? M) = true).
Proof.
  apply (dotFProduct_is_max_of_zero_and_mins [0.5; 0.25] [0.75; 1]).
  - reflexivity.
  - repeat constructor.
  - repeat constructor.
Defined.

(** C9 as stated fails when every min is negative: the running maximum
    starts at 0 and stays there. *)
Lemma dotFProduct_starts_at_zero :
  Matrix.dotFProduct [-1] [-1] = Some 0 /\
  max_of_mins [-1] [-1] = Some (-1) /\
  (0 =? -1) = false.
Proof. repeat split. Qed.

(** For empty slices there is no maximum of mins; the code returns 0. *)
Example dotFProduct_empty :
  Matrix.dotFProduct [] [] = Some 0 /\ max_of_mins [] [] = None.
Proof. split; reflexivity. Qed.

(** A slice [b] shorter than [a] is read past its end. *)
Example dotFProduct_short : Matrix.dotFProduct [0.5; 0.25] [0.75] = None.
Proof. reflexivity. Qed.

(** [FMultiply] on two 2x2 matrices: each cell is the fuzzy dot product
    of a row of the first and a column of the second. *)
Example FMultiply_2x2 :
  Matrix.FMultiply (Matrix.mkMatrix 2 2 [0.125; 0.875; 0.5; 0.25])
                   (Matrix.mkMatrix 2 2 [0.5; 0.25; 0.75; 0.625])
  = Some (Matrix.mkMatrix 2 2 [0.75; 0.625; 0.5; 0.25]) /\
  Matrix.dotFProduct [0.125; 0.875] [0.5; 0.75] = Some 0.75 /\
  Matrix.dotFProduct [0.125; 0.875] [0.25; 0.625] = Some 0.625 /\
  Matrix.dotFProduct [0.5; 0.25] [0.5; 0.75] = Some 0.5 /\
  Matrix.dotFProduct [0.5; 0.25] [0.25; 0.625] = Some 0.25.
Proof. vm_compute. repeat split. Qed.

End FuzzyDot.

(* ================================================================== *)
(** * Properties: the fuzzy matrix product *)
(* ================================================================== *)

Lemma Row_well_formed A r :
  well_formed A -> 1 <= r <= Matrix.rows A ->
  exists row, Matrix.Row A r = Some row /\
              length row = Z.to_nat (Matrix.columns A).
Proof.
  intros (Hm & Hk & Hlen) Hr. unfold Matrix.Row, Matrix.slice, Matrix.findIndex.
  set (k := Matrix.columns A) in *. set (m := Matrix.rows A) in *.
  assert (Hhi : (r - 1) * k + (k + 1 - 1) <= m * k) by nia.
  assert (Hlo : 0 <= (r - 1) * k + (1 - 1)) by nia.
  destruct (Z.leb_spec 0 ((r - 1) * k + (1 - 1))); [|lia].
  destruct (Z.leb_spec ((r - 1) * k + (1 - 1)) ((r - 1) * k + (k + 1 - 1))); [|lia].
  destruct (Z.leb_spec ((r - 1) * k + (k + 1 - 1)) (Z.of_nat (length (Matrix.data A)))); [|lia].
  cbn [andb]. eexists; split; [reflexivity|].
  rewrite length_take, length_drop. lia.
Qed.

Lemma index_in_range (s : list float) j :
  0 <= j < Z.of_nat (length s) -> exists v, Matrix.index s j = Some v.
Proof.
  intros Hj. unfold Matrix.index.
  destruct (Z.leb_spec 0 j); [|lia].
  apply lookup_lt_is_Some_2. lia.
Qed.

Lemma Column_well_formed B c :
  well_formed B -> 1 <= c <= Matrix.columns B ->
  exists col, Matrix.Column B c = Some col /\
              length col = Z.to_nat (Matrix.rows B).
Proof.
  intros Hwf Hc. pose proof Hwf as (Hm & Hk & Hlen). unfold Matrix.Column.
  destruct (Z.ltb_spec (Matrix.rows B) 0); [lia|].
  destruct (mapM (fun i => row ← Matrix.Row B i; Matrix.index row (c - 1))
                 (seqZ 1 (Matrix.rows B))) as [col|] eqn:Hcol.
  - exists col. split; [reflexivity|].
    apply length_mapM in Hcol. rewrite length_seqZ in Hcol. lia.
  - exfalso. apply mapM_None_1, Exists_exists in Hcol.
    destruct Hcol as (i & Hi & Hnone). apply elem_of_seqZ in Hi.
    destruct (Row_well_formed B i Hwf ltac:(lia)) as (row & Hrow & Hrl).
    rewrite Hrow in Hnone. cbn in Hnone.
    destruct (index_in_range row (c - 1) ltac:(lia)) as [v Hv]. congruence.
Qed.

Lemma cell_defined A B r c :
  well_formed A -> well_formed B -> Matrix.rows B = Matrix.columns A ->
  1 <= r <= Matrix.rows A -> 1 <= c <= Matrix.columns B ->
  exists row col v,
    Matrix.Row A r = Some row /\ Matrix.Column B c = Some col /\
    Matrix.dotFProduct row col = Some v.
Proof.
  intros HA HB Hcompat Hr Hc.
  destruct (Row_well_formed A r HA Hr) as (row & Hrow & Hrl).
  destruct (Column_well_formed B c HB Hc) as (col & Hcol & Hcl).
  exists row, col. eexists. repeat split; try eassumption.
  apply dotFProduct_from_fold. lia.
Qed.

Lemma inner_loop A B r A_row (j : nat) : forall C,
  well_formed A -> well_formed B -> Matrix.rows B = Matrix.columns A ->
  1 <= r <= Matrix.rows A -> Matrix.Row A r = Some A_row ->
  Z.of_nat j <= Matrix.columns B ->
  Matrix.rows C = Matrix.rows A -> Matrix.columns C = Matrix.columns B ->
  Z.of_nat (length (Matrix.data C)) = Matrix.rows A * Matrix.columns B ->
  exists C',
    fold_left (Matrix.FMultiply_cell B A_row r) (seqZ 1 (Z.of_nat j)) (Some C) = Some C' /\
    Matrix.rows C' = Matrix.rows A /\ Matrix.columns C' = Matrix.columns B /\
    length (Matrix.data C') = length (Matrix.data C) /\
    forall i : nat,
      Matrix.data C' !! i
      = if decide ((r - 1) * Matrix.columns B <= Z.of_nat i
                   < (r - 1) * Matrix.columns B + Z.of_nat j)
        then cell A B r (Z.of_nat i - (r - 1) * Matrix.columns B + 1)
        else Matrix.data C !! i.
Proof.
  intros C HA HB Hcompat Hr Hrow. revert C.
  induction j as [|j IH]; intros C Hj Hrows Hcols Hlen.
  - exists C. repeat split; try reflexivity; try assumption.
    intros i. destruct (decide _); [lia|reflexivity].
  - destruct (IH C ltac:(lia) Hrows Hcols Hlen) as (Cj & Hfold & Hr' & Hc' & Hl' & Hlook).
    rewrite seqZ_S, fold_left_app, Hfold. cbn [fold_left].
    destruct (cell_defined A B r (1 + Z.of_nat j) HA HB Hcompat Hr ltac:(lia))
      as (row & col & v & Hrow' & Hcol & Hdot).
    rewrite Hrow in Hrow'. injection Hrow' as <-.
    unfold Matrix.FMultiply_cell. cbn [mbind option_bind]. rewrite Hcol. cbn [mbind option_bind].
    rewrite Hdot. cbn [mbind option_bind].
    unfold Matrix.Set_, Matrix.findIndex. rewrite Hc'.
    set (n := Matrix.columns B) in *. set (m := Matrix.rows A) in *.
    replace ((r - 1) * n + (1 + Z.of_nat j - 1)) with ((r - 1) * n + Z.of_nat j) by lia.
    assert (Hidx : 0 <= (r - 1) * n + Z.of_nat j < Z.of_nat (length (Matrix.data Cj))) by nia.
    destruct (Z.leb_spec 0 ((r - 1) * n + Z.of_nat j)); [|lia].
    destruct (Z.ltb_spec ((r - 1) * n + Z.of_nat j) (Z.of_nat (length (Matrix.data Cj)))); [|lia].
    cbn [andb]. eexists. split; [reflexivity|]. cbn [Matrix.rows Matrix.columns Matrix.data].
    repeat split; try assumption.
    + rewrite length_insert. exact Hl'.
    + intros i. rewrite list_lookup_insert, Hlook.
      destruct (decide (Z.to_nat ((r - 1) * n + Z.of_nat j) = i /\ _)) as [[Hi _]|Hne].
      * destruct (decide _) as [_|Hout]; [|lia].
        replace (Z.of_nat i - (r - 1) * n + 1) with (1 + Z.of_nat j) by lia.
        unfold cell. rewrite Hrow. cbn [mbind option_bind]. rewrite Hcol.
        cbn [mbind option_bind]. now rewrite Hdot.
      * destruct (decide _) as [Hin|Hout]; destruct (decide _) as [Hin'|Hout'];
          try reflexivity; lia.
Qed.

Lemma outer_loop A B (j : nat) : forall C0,
  well_formed A -> well_formed B -> Matrix.rows B = Matrix.columns A ->
  Z.of_nat j <= Matrix.rows A ->
  Matrix.rows C0 = Matrix.rows A -> Matrix.columns C0 = Matrix.columns B ->
  Z.of_nat (length (Matrix.data C0)) = Matrix.rows A * Matrix.columns B ->
  exists C',
    fold_left (Matrix.FMultiply_row A B (Matrix.columns B)) (seqZ 1 (Z.of_nat j)) (Some C0)
    = Some C' /\
    Matrix.rows C' = Matrix.rows A /\ Matrix.columns C' = Matrix.columns B /\
    length (Matrix.data C') = length (Matrix.data C0) /\
    forall i : nat,
      Matrix.data C' !! i
      = if decide (Z.of_nat i < Z.of_nat j * Matrix.columns B)
        then cell A B (Z.of_nat i / Matrix.columns B + 1)
                      (Z.of_nat i mod Matrix.columns B + 1)
        else Matrix.data C0 !! i.
Proof.
  intros C0 HA HB Hcompat. revert C0.
  induction j as [|j IH]; intros C0 Hj Hrows Hcols Hlen.
  - exists C0. repeat split; try reflexivity; try assumption.
    intros i. destruct (decide _); [lia|reflexivity].
  - destruct (IH C0 ltac:(lia) Hrows Hcols Hlen) as (Cj & Hfold & Hr' & Hc' & Hl' & Hlook).
    rewrite seqZ_S, fold_left_app, Hfold. cbn [fold_left].
    destruct (Row_well_formed A (1 + Z.of_nat j) HA ltac:(lia)) as (A_row & Hrow & _).
    unfold Matrix.FMultiply_row at 1. cbn [mbind option_bind]. rewrite Hrow. cbn [mbind option_bind].
    pose proof HB as (_ & Hn & _).
    destruct (inner_loop A B (1 + Z.of_nat j) A_row (Z.to_nat (Matrix.columns B)) Cj
                HA HB Hcompat ltac:(lia) Hrow ltac:(lia) Hr' Hc' ltac:(lia))
      as (C' & Hfold' & Hr'' & Hc'' & Hl'' & Hlook').
    rewrite Z2Nat.id in Hfold', Hlook' by assumption.
    exists C'. split; [exact Hfold'|]. repeat split; try assumption; try congruence.
    intros i. rewrite Hlook', Hlook.
    set (n := Matrix.columns B) in *.
    replace (1 + Z.of_nat j - 1) with (Z.of_nat j) by lia.
    destruct (decide (Z.of_nat j * n <= Z.of_nat i < Z.of_nat j * n + n)) as [Hin|Hout].
    + destruct (decide _) as [_|Hno]; [|lia].
      assert (Hq : Z.of_nat i / n = Z.of_nat j).
      { symmetry. apply (Z.div_unique_pos _ _ _ (Z.of_nat i - Z.of_nat j * n)); lia. }
      assert (Hm : Z.of_nat i mod n = Z.of_nat i - Z.of_nat j * n).
      { symmetry. apply (Z.mod_unique_pos _ _ (Z.of_nat j)); lia. }
      rewrite Hq, Hm. f_equal; lia.
    + destruct (decide (Z.of_nat i < Z.of_nat j * n)) as [Hlt|Hge];
        destruct (decide _) as [Hlt'|Hge']; try reflexivity; lia.
Qed.

(** [FMultiply] uses the fuzzy dot product element-wise: on well-formed
    matrices of matching dimensions it returns a matrix whose cell (r, c)
    is the fuzzy dot product of row r of [A] and column c of [B]. *)
Lemma FMultiply_cells (A B : Matrix.Matrix) :
  well_formed A -> well_formed B -> Matrix.rows B = Matrix.columns A ->
  exists C,
    Matrix.FMultiply A B = Some C /\
    Matrix.rows C = Matrix.rows A /\ Matrix.columns C = Matrix.columns B /\
    forall r c, 1 <= r <= Matrix.rows A -> 1 <= c <= Matrix.columns B ->
      exists row col v,
        Matrix.Row A r = Some row /\ Matrix.Column B c = Some col /\
        Matrix.dotFProduct row col = Some v /\ Matrix.Get C r c = Some v.
Proof.
  intros HA HB Hcompat. pose proof HA as (Hm & _ & _). pose proof HB as (_ & Hn & _).
  unfold Matrix.FMultiply, Matrix.Zeros.
  destruct (Z.ltb_spec (Matrix.rows A * Matrix.columns B) 0); [nia|].
  cbn [mbind option_bind Matrix.rows Matrix.columns].
  set (C0 := Matrix.mkMatrix _ _ _).
  destruct (outer_loop A B (Z.to_nat (Matrix.rows A)) C0 HA HB Hcompat
              ltac:(lia) eq_refl eq_refl)
    as (C & Hfold & Hr & Hc & Hl & Hlook).
  { unfold C0. cbn [Matrix.data]. rewrite length_replicate. lia. }
  rewrite Z2Nat.id in Hfold, Hlook by assumption.
  exists C. split; [exact Hfold|]. repeat split; try assumption.
  intros r c Hrr Hcc.
  destruct (cell_defined A B r c HA HB Hcompat Hrr Hcc)
    as (row & col & v & Hrow & Hcol & Hdot).
  exists row, col, v. repeat split; try assumption.
  unfold Matrix.Get, Matrix.findIndex, Matrix.index. rewrite Hc.
  set (n := Matrix.columns B) in *.
  destruct (Z.leb_spec 0 ((r - 1) * n + (c - 1))); [|nia].
  rewrite Hlook. rewrite Z2Nat.id by assumption.
  destruct (decide _) as [_|Hno]; [|nia].
  assert (Hq : ((r - 1) * n + (c - 1)) / n = r - 1).
  { symmetry. apply (Z.div_unique_pos _ _ _ (c - 1)); lia. }
  assert (Hmod : ((r - 1) * n + (c - 1)) mod n = c - 1).
  { symmetry. apply (Z.mod_unique_pos _ _ (r - 1)); lia. }
  rewrite Hq, Hmod. replace (r - 1 + 1) with r by lia. replace (c - 1 + 1) with c by lia.
  unfold cell. rewrite Hrow. cbn [mbind option_bind]. rewrite Hcol.
  cbn [mbind option_bind]. exact Hdot.
Qed.

(* ================================================================== *)
(** * Properties: one step of the (N, P) tables *)
(* ================================================================== *)

(** X1.  [calcnp] moves a pair inside the bounds by at most one step: a
    timespan below 108 raises N or P by one, or leaves the pair alone; a
    timespan from 108 to 132 leaves it alone; a timespan above 132
    lowers N and P by at most one each. *)
Theorem calcnp_moves_one_step (params : Params) (timespan n p : Z) :
  in_bounds params n p ->
  let n' := fst (calcnp params timespan n p) in
  let p' := snd (calcnp params timespan n p) in
  (timespan < 108 ->
   n <= n' /\ p <= p' /\ (n' - n) + (p' - p) <= 1) /\
  (108 <= timespan <= 132 -> n' = n /\ p' = p) /\
  (132 < timespan ->
   n - 1 <= n' <= n /\ p - 1 <= p' <= p).
Proof.
  intros (HN & HP & Hn & Hnlt & Hp & Hp256). cbv zeta.
  unfold calcnp, clamp_np.
  split; [|split]; intros Ht; cmp_cases; try lia; u64_exact; lia.
Qed.

Lemma calcnp_moves_one_step_witness :
  let n' := fst (calcnp exampleParams 100 5 10) in
  let p' := snd (calcnp exampleParams 100 5 10) in
  (100 < 108 ->
   5 <= n' /\ 10 <= p' /\ (n' - 5) + (p' - 10) <= 1) /\
  (108 <= 100 <= 132 -> n' = 5 /\ p' = 10) /\
  (132 < 100 ->
   5 - 1 <= n' <= 5 /\ 10 - 1 <= p' <= 10).
Proof.
  apply (calcnp_moves_one_step exampleParams 100 5 10).
  unfold in_bounds, U64.modulus. cbn. lia.
Defined.

(** X2.  [calcnpsea] on a pair inside the bounds: a timespan below 7
    raises N or P by one, or leaves the pair alone; a timespan from 7 to
    13 leaves it alone; a timespan above 13 lowers N by at most a
    seventh of it plus one and P by at most a seventh of it, or by
    one. *)
Theorem calcnpsea_moves (params : Params) (timespan n p : Z) :
  in_bounds params n p ->
  let n' := fst (calcnpsea params timespan n p) in
  let p' := snd (calcnpsea params timespan n p) in
  (timespan < 7 ->
   n <= n' /\ p <= p' /\ (n' - n) + (p' - p) <= 1) /\
  (7 <= timespan <= 13 -> n' = n /\ p' = p) /\
  (13 < timespan ->
   n - n / 7 - 1 <= n' <= n /\ p - Z.max 1 (p / 7) <= p' <= p).
Proof.
  intros (HN & HP & Hn & Hnlt & Hp & Hp256). cbv zeta.
  unfold calcnpsea, clamp_np.
  split; [|split]; intros Ht; cmp_cases; try lia; u64_exact;
    Z.div_mod_to_equations; lia.
Qed.

Lemma calcnpsea_moves_witness :
  let n' := fst (calcnpsea exampleParams 20 50 70) in
  let p' := snd (calcnpsea exampleParams 20 50 70) in
  (20 < 7 ->
   50 <= n' /\ 70 <= p' /\ (n' - 50) + (p' - 70) <= 1) /\
  (7 <= 20 <= 13 -> n' = 50 /\ p' = 70) /\
  (13 < 20 ->
   50 - 50 / 7 - 1 <= n' <= 50 /\ 70 - Z.max 1 (70 / 7) <= p' <= 70).
Proof.
  apply (calcnpsea_moves exampleParams 20 50 70).
  unfold in_bounds, U64.modulus. cbn. lia.
Defined.

(* ================================================================== *)
(** * Properties: accepted seals and headers *)
(* ================================================================== *)

Lemma sea_timespan_in_range header parent :
  U64.in_range (sea_timespan header parent).
Proof.
  unfold sea_timespan.
  repeat match goal with |- context [if ?b then _ else _] => destruct b end;
    first [apply wrap64_range | unfold U64.in_range, U64.modulus; lia].
Qed.

Lemma recomputed_pair_bounds (params : Params) (chain : ChainReader) (header : Header) :
  params_P params <= 256 ->
  let np := if IsSeafork (Config chain) (Number header)
            then calcnpsea params (U64.of_big (Alpha header)) (NN header) (PP header)
            else calcnp params (U64.of_big (Alpha header)) (NN header) (PP header) in
  params_N params <= fst np /\ params_P params <= snd np /\ snd np <= 256.
Proof.
  intros HP. cbv zeta. destruct (IsSeafork (Config chain) (Number header)).
  - now apply calcnpsea_respects_bounds.
  - destruct (calcnp_is_clamped params (U64.of_big (Alpha header))
                (NN header) (PP header)) as (n0 & p0 & ->).
    now apply clamp_np_bounds.
Qed.

Lemma VerifySeal_own_checks (params : Params) (ext : Externals)
    (chain : ChainReader) (header : Header) (mode : Mode) (fail : Z) :
  params_P params <= 256 ->
  Mode_eqb mode ModeFake || Mode_eqb mode ModeFullFake = false ->
  VerifySeal params ext (mkEthash mode fail None) chain header = None ->
  seal_accepted params ext chain header.
Proof.
  intros HP Hmode Hok. pose proof (recomputed_pair_bounds params chain header HP) as Hb.
  cbv zeta in Hb. unfold seal_accepted.
  cbn [VerifySeal] in Hok. rewrite Hmode in Hok.
  destruct (Z.leb_spec (Z.sgn (Difficulty header)) 0); [discriminate|].
  destruct (genHash ext _ _ _ _ _) as [[fhash ?] hash256].
  destruct (Z.eqb_spec (FuzzyHash header) (BytesToHash ext fhash));
    cbn [negb] in Hok; [|discriminate].
  destruct (compareDiff ext hash256 _); cbn [negb] in Hok; [|discriminate].
  unfold VerifyDifficultyBySea, VerifyDifficultyBygen in Hok.
  destruct (if IsSeafork (Config chain) (Number header) then _ else _) as [n p].
  cbn [fst snd] in Hb.
  destruct (Z.eqb_spec (hN header) n); destruct (Z.eqb_spec (hP header) p);
    cbn [negb orb] in Hok; try discriminate.
  pose proof (Z.sgn_spec (Difficulty header)) as Hsgn.
  subst. split; [lia|]. split; [now split|]. split; [reflexivity|lia].
Qed.

(** X3.  An engine that checks seals for real accepts a seal only when
    the header has a positive difficulty, [genHash] at the header's
    (P, N) gives the header's fuzzy hash and meets the target, and the
    header's pair (N, P) is the one that the tables compute from the
    header's own alpha, NN and PP; the pair then respects the floors and
    the ceiling of P. *)
Theorem VerifySeal_accepts_only_recomputed_pairs
    (params : Params) (ext : Externals) (chain : ChainReader) (header : Header) :
  forall ethash : Ethash,
  params_P params <= 256 ->
  seals_for_real ethash = true ->
  VerifySeal params ext ethash chain header = None ->
  seal_accepted params ext chain header.
Proof.
  fix IH 1. intros [mode fail [inner|]] HP Hreal Hok.
  - cbn [seals_for_real VerifySeal] in Hreal, Hok.
    destruct (Mode_eqb mode ModeFake || Mode_eqb mode ModeFullFake); [discriminate|].
    exact (IH inner HP Hreal Hok).
  - cbn [seals_for_real] in Hreal.
    destruct (Mode_eqb mode ModeFake || Mode_eqb mode ModeFullFake) eqn:Hmode;
      [discriminate|].
    exact (VerifySeal_own_checks params ext chain header mode fail HP Hmode Hok).
Qed.

Lemma VerifySeal_accepts_only_recomputed_pairs_witness :
  seal_accepted exampleParams exampleExt emptyChain sealedHeader.
Proof.
  apply (VerifySeal_accepts_only_recomputed_pairs exampleParams exampleExt
           emptyChain sealedHeader realEngine).
  - cbn. lia.
  - reflexivity.
  - vm_compute. reflexivity.
Defined.

(** X4.  A header that [verifyHeader] accepts has passed every test of
    the function: the extra data fit, the timestamp is after the
    parent's and not too far in the future (or, for an uncle, at most
    2^256 - 1), the difficulty is the one computed from the parent, the
    gas limit is below 2^63, at least the minimum and at least the gas
    used, it moved by less than the parent's limit over the bound
    divisor when the parent's limit fits an int64, the number is the
    parent's plus one, the seal passed when it was asked for, and both
    fork validators accepted. *)
Theorem verifyHeader_accepted_header (params : Params) (ext : Externals)
    (ethash : Ethash) (chain : ChainReader) (header parent : Header)
    (uncle seal : bool) :
  0 <= GasLimit header ->
  verifyHeader params ext ethash chain header parent uncle seal = None ->
  Z.of_nat (length (Extra header)) <= MaximumExtraDataSize params /\
  (if uncle then Time header <= MaxBig256
   else Time header <= now ext + allowedFutureBlockTime) /\
  Time parent < Time header /\
  Difficulty header
  = CalcDifficulty params (Config chain) (U64.of_big (Time header)) parent /\
  GasLimit header < 2 ^ 63 /\
  GasUsed header <= GasLimit header /\
  MinGasLimit params <= GasLimit header /\
  (0 <= GasLimit parent < 2 ^ 63 ->
   Z.abs (GasLimit header - GasLimit parent)
   < GasLimit parent / GasLimitBoundDivisor params) /\
  Number header = Number parent + 1 /\
  (seal = true -> VerifySeal params ext ethash chain header = None) /\
  VerifyDAOHeaderExtraData ext (Config chain) header = None /\
  VerifyForkHashes ext (Config chain) header uncle = None.
Proof.
  intros Hg Hok. unfold verifyHeader in Hok.
  destruct (Z.gtb_spec (Z.of_nat (length (Extra header)))
                       (MaximumExtraDataSize params)); [discriminate|].
  assert (Htime : if uncle then Time header <= MaxBig256
                  else Time header <= now ext + allowedFutureBlockTime).
  { destruct uncle.
    - destruct (Z.gtb_spec (Time header) MaxBig256); [discriminate|assumption].
    - destruct (Z.gtb_spec (Time header) (now ext + allowedFutureBlockTime));
        [discriminate|assumption]. }
  destruct (if uncle then _ else _) as [err|]; [discriminate|].
  destruct (Z.leb_spec (Time header) (Time parent)); [discriminate|].
  destruct (Z.eqb_spec
              (CalcDifficulty params (Config chain) (U64.of_big (Time header)) parent)
              (Difficulty header)); cbn [negb] in Hok; [|discriminate].
  unfold verifyHeader_gas in Hok.
  destruct (Z.gtb_spec (GasLimit header) 9223372036854775807); [discriminate|].
  destruct (Z.gtb_spec (GasUsed header) (GasLimit header)); [discriminate|].
  cbv zeta in Hok.
  match type of Hok with
  | context [Z.geb ?a ?b] => destruct (Z.geb_spec a b) as [|Hdist]
  end; cbn [orb] in Hok; [discriminate|].
  destruct (Z.ltb_spec (GasLimit header) (MinGasLimit params)); [discriminate|].
  unfold verifyHeader_after_gas in Hok.
  destruct (Z.eqb_spec (Number header - Number parent) 1);
    cbn [negb] in Hok; [|discriminate].
  assert (Hseal : seal = true -> VerifySeal params ext ethash chain header = None).
  { intros ->. destruct (VerifySeal params ext ethash chain header); [discriminate|reflexivity]. }
  destruct (if seal then _ else _) as [err|]; [discriminate|].
  destruct (VerifyDAOHeaderExtraData ext (Config chain) header); [discriminate|].
  destruct (VerifyForkHashes ext (Config chain) header uncle); [discriminate|].
  repeat split; try assumption; try lia; try congruence.
  intros Hpg. rewrite gas_distance in Hdist by lia. lia.
Qed.

Lemma verifyHeader_accepted_header_witness :
  Z.of_nat (length (Extra gasChild999)) <= MaximumExtraDataSize exampleParams /\
  (if false then Time gasChild999 <= MaxBig256
   else Time gasChild999 <= now exampleExt + allowedFutureBlockTime) /\
  Time gasParent < Time gasChild999 /\
  Difficulty gasChild999
  = CalcDifficulty exampleParams (Config emptyChain)
      (U64.of_big (Time gasChild999)) gasParent /\
  GasLimit gasChild999 < 2 ^ 63 /\
  GasUsed gasChild999 <= GasLimit gasChild999 /\
  MinGasLimit exampleParams <= GasLimit gasChild999 /\
  (0 <= GasLimit gasParent < 2 ^ 63 ->
   Z.abs (GasLimit gasChild999 - GasLimit gasParent)
   < GasLimit gasParent / GasLimitBoundDivisor exampleParams) /\
  Number gasChild999 = Number gasParent + 1 /\
  (true = true ->
   VerifySeal exampleParams exampleExt fakeEngine emptyChain gasChild999 = None) /\
  VerifyDAOHeaderExtraData exampleExt (Config emptyChain) gasChild999 = None /\
  VerifyForkHashes exampleExt (Config emptyChain) gasChild999 false = None.
Proof.
  apply (verifyHeader_accepted_header exampleParams exampleExt fakeEngine
           emptyChain gasChild999 gasParent false true).
  - cbn. lia.
  - vm_compute. reflexivity.
Defined.

Lemma Prepare_ok_inv (params : Params) (chain : ChainReader) (h h' : Header) :
  Prepare params chain h = PrepOk h' ->
  exists parent d,
    chain_parent chain h = Some parent /\
    Time parent < Time h /\
    h' = stamp h parent d
           (CalcDifficulty params (Config chain) (U64.of_big (Time h)) parent) /\
    ((IsSeafork (Config chain) (Number parent + 1) = true /\
      d = CalcDifficultyBySea params h parent) \/
     (IsSeafork (Config chain) (Number parent + 1) = false /\
      exists parent12,
        CalcDifficultyByLake params h parent parent12 = Some d)).
Proof.
  unfold Prepare, chain_parent. intros Hok.
  destruct (GetHeader chain (ParentHash h) _) as [parent|]; [|discriminate].
  destruct (Z.geb_spec (Time parent) (Time h)); [discriminate|].
  unfold big1 in *.
  destruct (IsSeafork (Config chain) (Number parent + 1)) eqn:Hsea.
  - injection Hok as <-. exists parent, (CalcDifficultyBySea params h parent).
    repeat split; try reflexivity; try lia. now left.
  - unfold CalcDifficultyBygen in Hok.
    destruct (CalcDifficultyByLake params h parent _) as [d|] eqn:Hd; [|discriminate].
    injection Hok as <-. exists parent, d.
    repeat split; try reflexivity; try lia. right. split; [assumption|]. eauto.
Qed.

Lemma lake_alpha_in_range params h parent parent12 d :
  CalcDifficultyByLake params h parent parent12 = Some d ->
  U64.in_range (res_alpha d) /\
  ((U64.of_big (Number h) <= 12 /\ res_alpha d = 120 /\
    res_n d = params_N params /\ res_p d = params_P params) \/
   (12 < U64.of_big (Number h) /\
    (res_n d, res_p d) = calcnp params (res_alpha d) (hN parent) (hP parent))).
Proof.
  unfold CalcDifficultyByLake.
  destruct (Z.leb_spec (U64.of_big (Number h)) 12).
  - intros [= <-]. cbn. split; [unfold U64.in_range, U64.modulus; lia|].
    left. auto.
  - destruct parent12 as [p12|]; [|discriminate].
    match goal with
    | |- context [calcnp params ?t ?n ?p] =>
        set (ts := t); destruct (calcnp params ts n p) as [n' p'] eqn:Hc
    end.
    intros [= <-]. cbn [res_alpha res_n res_p]. split.
    + subst ts. destruct (_ <? _); [unfold U64.in_range, U64.modulus; lia|apply wrap64_range].
    + right. split; [assumption|]. now rewrite Hc.
Qed.

(** X5.  When [Prepare] succeeds, the header it leaves carries a pair
    (N, P) at or above the floors with P at most 256, the parent's pair
    as (NN, PP) and an alpha in the range of a uint64; the parent is
    older than the header, and the parent hash, number, time, gas
    fields, extra data and coinbase are left as they were. *)
Theorem Prepare_stamps_bounded_pair (params : Params) (chain : ChainReader)
    (h h' parent : Header) :
  params_P params <= 256 ->
  Prepare params chain h = PrepOk h' ->
  chain_parent chain h = Some parent ->
  params_N params <= hN h' /\
  params_P params <= hP h' /\ hP h' <= 256 /\
  NN h' = hN parent /\ PP h' = hP parent /\
  U64.in_range (Alpha h') /\
  Time parent < Time h' /\
  (ParentHash h', Number h', Time h', GasLimit h', GasUsed h', Extra h', Coinbase h')
  = (ParentHash h, Number h, Time h, GasLimit h, GasUsed h, Extra h, Coinbase h).
Proof.
  intros HP Hok Hparent.
  destruct (Prepare_ok_inv params chain h h' Hok)
    as (parent' & d & Hp' & Htime & -> & Hregime).
  rewrite Hparent in Hp'. injection Hp' as <-.
  cbn [stamp hN hP NN PP Alpha Time ParentHash Number GasLimit GasUsed Extra Coinbase].
  assert (Hd : params_N params <= res_n d /\ params_P params <= res_p d /\
               res_p d <= 256 /\ U64.in_range (res_alpha d)).
  { destruct Hregime as [[_ ->]|[_ [parent12 Hlake]]].
    - unfold CalcDifficultyBySea.
      pose proof (calcnpsea_respects_bounds params (sea_timespan h parent)
                    (hN parent) (hP parent) HP) as Hb.
      destruct (calcnpsea params _ _ _) as [n p]. cbn [res_n res_p res_alpha fst snd] in *.
      pose proof (sea_timespan_in_range h parent). tauto.
    - destruct (lake_alpha_in_range params h parent parent12 d Hlake)
        as [Hr [(_ & _ & -> & ->)|(_ & Hc)]].
      + repeat split; try lia; apply Hr.
      + destruct (calcnp_is_clamped params (res_alpha d) (hN parent) (hP parent))
          as (n0 & p0 & Hcl).
        pose proof (clamp_np_bounds params n0 p0 HP) as Hb.
        rewrite <- Hcl, <- Hc in Hb. cbn [fst snd] in Hb. tauto. }
  repeat split; try tauto; try lia; apply Hd.
Qed.

Lemma Prepare_stamps_bounded_pair_witness :
  params_N exampleParams <= hN preparedExample /\
  params_P exampleParams <= hP preparedExample /\ hP preparedExample <= 256 /\
  NN preparedExample = hN gasParent /\ PP preparedExample = hP gasParent /\
  U64.in_range (Alpha preparedExample) /\
  Time gasParent < Time preparedExample /\
  (ParentHash preparedExample, Number preparedExample, Time preparedExample,
   GasLimit preparedExample, GasUsed preparedExample, Extra preparedExample,
   Coinbase preparedExample)
  = (ParentHash batch1, Number batch1, Time batch1, GasLimit batch1,
     GasUsed batch1, Extra batch1, Coinbase batch1).
Proof.
  apply (Prepare_stamps_bounded_pair exampleParams chainOfOne batch1
           preparedExample gasParent).
  - cbn. lia.
  - reflexivity.
  - reflexivity.
Defined.

(** X6.  For a header whose number is its parent's plus one, the pair
    (N, P) that [Prepare] stamps is the pair that [VerifySeal]
    recomputes from the stamped header, so that the last test of the
    seal passes: under the Sea rules and after block 12 in every case;
    up to block 12, where [Prepare] stamps the floors, when the parent's
    pair is not above the floors and the floor of P is at most 256. *)
Theorem Prepare_pair_passes_recomputation (params : Params) (chain : ChainReader)
    (h h' parent : Header) :
  Prepare params chain h = PrepOk h' ->
  chain_parent chain h = Some parent ->
  Number h = Number parent + 1 ->
  IsSeafork (Config chain) (Number h) = true \/
  12 < U64.of_big (Number h) \/
  (hN parent <= params_N params /\ hP parent <= params_P params /\
   params_P params <= 256) ->
  (if IsSeafork (Config chain) (Number h')
   then VerifyDifficultyBySea params h'
   else VerifyDifficultyBygen params h') = (hN h', hP h').
Proof.
  intros Hok Hparent Hnum Hcase.
  destruct (Prepare_ok_inv params chain h h' Hok)
    as (parent' & d & Hp' & Htime & -> & Hregime).
  rewrite Hparent in Hp'. injection Hp' as <-.
  unfold VerifyDifficultyBySea, VerifyDifficultyBygen.
  cbn [stamp hN hP NN PP Alpha Number]. rewrite Hnum.
  destruct Hregime as [[Hsea ->]|[Hsea [parent12 Hlake]]]; rewrite Hsea.
  - unfold CalcDifficultyBySea.
    pose proof (sea_timespan_in_range h parent) as Hr.
    destruct (calcnpsea params (sea_timespan h parent) (hN parent) (hP parent))
      as [n p] eqn:Hc.
    cbn [res_n res_p res_alpha]. now rewrite of_big_small, Hc.
  - destruct (lake_alpha_in_range params h parent parent12 d Hlake)
      as [Hr [(Hle & Ha & Hn & Hp)|(_ & Hc)]].
    + destruct Hcase as [Hc1|[Hc2|(HN & HP & HP256)]];
        [rewrite Hnum, Hsea in Hc1; discriminate|lia|].
      rewrite Ha, Hn, Hp. change (U64.of_big 120) with 120.
      unfold calcnp, clamp_np. change (120 <? 102) with false.
      change (120 <? 108) with false. change (120 >? 138) with false.
      change (120 >? 132) with false. change (120 >? 360) with false.
      cmp_cases; f_equal; lia.
    + rewrite of_big_small by assumption. now rewrite <- Hc.
Qed.

Lemma Prepare_pair_passes_recomputation_witness :
  (if IsSeafork (Config chainOfOne) (Number preparedExample)
   then VerifyDifficultyBySea exampleParams preparedExample
   else VerifyDifficultyBygen exampleParams preparedExample)
  = (hN preparedExample, hP preparedExample).
Proof.
  apply (Prepare_pair_passes_recomputation exampleParams chainOfOne batch1
           preparedExample gasParent).
  - reflexivity.
  - reflexivity.
  - reflexivity.
  - right. right. cbn. lia.
Defined.

(** X7.  A header that [Prepare] has stamped, with extra data that fit
    and a timestamp not too far in the future, passes the tests of
    [verifyHeader] that come before the gas tests: extra-data size,
    timestamp against the clock and the parent, scalar difficulty. *)
Theorem Prepare_header_reaches_gas_checks (params : Params) (ext : Externals)
    (chain : ChainReader) (h h' parent : Header) :
  Prepare params chain h = PrepOk h' ->
  chain_parent chain h = Some parent ->
  Z.of_nat (length (Extra h)) <= MaximumExtraDataSize params ->
  Time h <= now ext + allowedFutureBlockTime ->
  reaches_gas_checks params ext chain h' parent false.
Proof.
  intros Hok Hparent Hextra Hnow.
  destruct (Prepare_ok_inv params chain h h' Hok)
    as (parent' & d & Hp' & Htime & -> & _).
  rewrite Hparent in Hp'. injection Hp' as <-.
  unfold reaches_gas_checks. cbn [stamp Extra Time Difficulty].
  repeat split; try assumption.
Qed.

Lemma Prepare_header_reaches_gas_checks_witness :
  reaches_gas_checks exampleParams exampleExt chainOfOne preparedExample
                     gasParent false.
Proof.
  apply (Prepare_header_reaches_gas_checks exampleParams exampleExt chainOfOne
           batch1 preparedExample gasParent).
  - reflexivity.
  - reflexivity.
  - vm_compute. discriminate.
  - vm_compute. discriminate.
Defined.

(* ================================================================== *)
(** * Properties: the scalar difficulty *)
(* ================================================================== *)

Lemma big_Div_pos x y : 0 < y -> big_Div x y = x / y.
Proof. intros Hy. unfold big_Div. destruct (Z.ltb_spec 0 y); [reflexivity|lia]. Qed.

(** X8.  Under each of the three rules the difficulty that
    [CalcDifficulty] returns is at least the minimum difficulty, whatever
    the parent and the timestamp are; the bound divisor is not zero, as
    the division by it panics otherwise. *)
Theorem CalcDifficulty_at_least_minimum (params : Params) (config : ChainConfig)
    (time : Z) (parent : Header) :
  DifficultyBoundDivisor params <> 0 ->
  MinimumDifficulty params <= CalcDifficulty params config time parent.
Proof.
  intros _.
  assert (Hpow : forall y, 0 <= big2 ^ y).
  { intros y. apply Z.pow_nonneg. unfold big2. lia. }
  unfold CalcDifficulty, calcDifficultyByzantium, calcDifficultyHomestead,
    calcDifficultyFrontier.
  repeat match goal with
         | |- context [if ?b then _ else _] => destruct b eqn:?
         end;
  repeat match goal with
         | H : (_ <? _) = _ |- _ => apply Z.ltb_ge in H || apply Z.ltb_lt in H
         end;
  try match goal with
      | |- context [big2 ^ ?y] => specialize (Hpow y)
      end; lia.
Qed.

Lemma CalcDifficulty_at_least_minimum_witness :
  MinimumDifficulty exampleParams
  <= CalcDifficulty exampleParams frontierConfig 1010 gasParent.
Proof.
  apply (CalcDifficulty_at_least_minimum exampleParams frontierConfig 1010 gasParent).
  cbn. lia.
Defined.

(** X9.  For a fixed parent, a later timestamp never gives a higher
    difficulty, under each of the three rules. *)
Theorem CalcDifficulty_falls_with_time (params : Params) (config : ChainConfig)
    (t1 t2 : Z) (parent : Header) :
  0 < DifficultyBoundDivisor params ->
  0 <= Difficulty parent ->
  t1 <= t2 ->
  CalcDifficulty params config t2 parent <= CalcDifficulty params config t1 parent.
Proof.
  intros HD Hpd Ht.
  assert (Hy : 0 <= Difficulty parent / DifficultyBoundDivisor params)
    by (apply Z.div_pos; lia).
  assert (H9 : (t1 - Time parent) / 9 <= (t2 - Time parent) / 9)
    by (apply Z.div_le_mono; lia).
  assert (H10 : (t1 - Time parent) / 10 <= (t2 - Time parent) / 10)
    by (apply Z.div_le_mono; lia).
  unfold CalcDifficulty, calcDifficultyByzantium, calcDifficultyHomestead,
    calcDifficultyFrontier.
  rewrite !(big_Div_pos _ (DifficultyBoundDivisor params)) by assumption.
  rewrite !(big_Div_pos _ big9), !(big_Div_pos _ big10) by reflexivity.
  unfold big9, big10, big1, big2, bigMinus99 in *.
  set (y := Difficulty parent / DifficultyBoundDivisor params) in *.
  set (a1 := (t1 - Time parent) / 9) in *. set (a2 := (t2 - Time parent) / 9) in *.
  set (b1 := (t1 - Time parent) / 10) in *. set (b2 := (t2 - Time parent) / 10) in *.
  destruct (IsByzantium config _); [|destruct (IsHomestead config _)].
  - destruct (UncleHash parent =? EmptyUncleHash params);
      cmp_cases; nia.
  - cmp_cases; nia.
  - cmp_cases; lia.
Qed.

Lemma CalcDifficulty_falls_with_time_witness :
  CalcDifficulty exampleParams frontierConfig 1020 gasParent
  <= CalcDifficulty exampleParams frontierConfig 1010 gasParent.
Proof.
  apply (CalcDifficulty_falls_with_time exampleParams frontierConfig 1010 1020 gasParent).
  - cbn. lia.
  - cbn. lia.
  - lia.
Defined.

Lemma scaled_step (y x : Z) :
  0 <= y -> -99 <= x <= 1 ->
  - (99 * y) <= y * x <= y /\ (x <= -1 -> y * x <= - y).
Proof. intros Hy Hx. split; [split|intros]; nia. Qed.

Lemma div_bucket (a d : Z) :
  0 < d -> d * (a / d) <= a < d * (a / d) + d.
Proof.
  intros Hd. pose proof (Z.div_mod a d ltac:(lia)).
  pose proof (Z.mod_pos_bound a d Hd). lia.
Qed.

(** X10.  The Homestead rule apart from its exponential term, for a
    block that is not older than its parent: with y the parent's
    difficulty divided by the bound divisor, less than 10 seconds after
    the parent give the parent's difficulty plus y, 10 to 19 seconds
    give the parent's difficulty, 20 seconds or more give at most the
    parent's difficulty minus y, and never less than the parent's
    difficulty minus 99 y; each of them raised to the minimum
    difficulty when it is below it. *)
Theorem calcDifficultyHomestead_buckets (params : Params) (time : Z) (parent : Header) :
  0 < DifficultyBoundDivisor params ->
  0 <= Difficulty parent ->
  Time parent <= time ->
  let pd := Difficulty parent in
  let y := pd / DifficultyBoundDivisor params in
  let floor := MinimumDifficulty params in
  let d := calcDifficultyHomestead params time parent - homesteadBomb parent in
  (time - Time parent < 10 -> d = Z.max (pd + y) floor) /\
  (10 <= time - Time parent < 20 -> d = Z.max pd floor) /\
  (20 <= time - Time parent -> d <= Z.max (pd - y) floor) /\
  Z.max (pd - 99 * y) floor <= d.
Proof.
  intros HD Hpd Ht. cbv zeta.
  assert (Hy : 0 <= Difficulty parent / DifficultyBoundDivisor params)
    by (apply Z.div_pos; lia).
  unfold calcDifficultyHomestead, homesteadBomb.
  rewrite !(big_Div_pos _ (DifficultyBoundDivisor params)) by assumption.
  rewrite !(big_Div_pos _ big10), !(big_Div_pos _ expDiffPeriod) by reflexivity.
  unfold big10, big1, big2, bigMinus99, expDiffPeriod in *.
  set (y := Difficulty parent / DifficultyBoundDivisor params) in *.
  pose proof (div_bucket (time - Time parent) 10 ltac:(lia)) as Hq.
  set (q := (time - Time parent) / 10) in *. clearbody q.
  set (x := if 1 - q <? -99 then -99 else 1 - q).
  assert (Hx : -99 <= x <= 1 /\ (time - Time parent < 10 -> x = 1) /\
               (10 <= time - Time parent < 20 -> x = 0) /\
               (20 <= time - Time parent -> x <= -1)).
  { unfold x. destruct (Z.ltb_spec (1 - q) (-99)); repeat split; intros; lia. }
  clearbody x. destruct Hx as (Hr & H1 & H0 & Hm).
  destruct (scaled_step y x Hy Hr) as (Hb & Hs).
  set (bomb := 2 ^ ((Number parent + 1) / 100000 - 2)). clearbody bomb.
  split; [|split; [|split]].
  - intros H. rewrite (H1 H), Z.mul_1_r. cmp_cases; lia.
  - intros H. rewrite (H0 H), Z.mul_0_r. cmp_cases; lia.
  - intros H. specialize (Hs (Hm H)). cmp_cases; lia.
  - cmp_cases; lia.
Qed.

Lemma calcDifficultyHomestead_buckets_witness :
  let pd := Difficulty gasParent in
  let y := pd / DifficultyBoundDivisor exampleParams in
  let floor := MinimumDifficulty exampleParams in
  let d := calcDifficultyHomestead exampleParams 1010 gasParent
           - homesteadBomb gasParent in
  (1010 - Time gasParent < 10 -> d = Z.max (pd + y) floor) /\
  (10 <= 1010 - Time gasParent < 20 -> d = Z.max pd floor) /\
  (20 <= 1010 - Time gasParent -> d <= Z.max (pd - y) floor) /\
  Z.max (pd - 99 * y) floor <= d.
Proof.
  apply (calcDifficultyHomestead_buckets exampleParams 1010 gasParent).
  - cbn. lia.
  - cbn. lia.
  - cbn. lia.
Defined.

(** X11.  The Byzantium rule apart from its exponential term, for a
    block that is not older than its parent: with u = 1 for a parent
    without uncles and u = 2 otherwise, less than 9 seconds after the
    parent give the parent's difficulty plus u y, the 9 seconds from
    9 u on give the parent's difficulty, later blocks give at most the
    parent's difficulty minus y, and never less than the parent's
    difficulty minus 99 y; each of them raised to the minimum
    difficulty when it is below it. *)
Theorem calcDifficultyByzantium_buckets (params : Params) (time : Z) (parent : Header) :
  0 < DifficultyBoundDivisor params ->
  0 <= Difficulty parent ->
  Time parent <= time ->
  let pd := Difficulty parent in
  let y := pd / DifficultyBoundDivisor params in
  let floor := MinimumDifficulty params in
  let u := if UncleHash parent =? EmptyUncleHash params then 1 else 2 in
  let d := calcDifficultyByzantium params time parent - byzantiumBomb parent in
  (time - Time parent < 9 -> d = Z.max (pd + u * y) floor) /\
  (9 * u <= time - Time parent < 9 * u + 9 -> d = Z.max pd floor) /\
  (9 * u + 9 <= time - Time parent -> d <= Z.max (pd - y) floor) /\
  Z.max (pd - 99 * y) floor <= d.
Proof.
  intros HD Hpd Ht. cbv zeta.
  assert (Hy : 0 <= Difficulty parent / DifficultyBoundDivisor params)
    by (apply Z.div_pos; lia).
  unfold calcDifficultyByzantium, byzantiumBomb.
  rewrite !(big_Div_pos _ (DifficultyBoundDivisor params)) by assumption.
  rewrite !(big_Div_pos _ big9), !(big_Div_pos _ expDiffPeriod) by reflexivity.
  unfold big9, big1, big2, bigMinus99, big2999999, expDiffPeriod in *.
  set (y := Difficulty parent / DifficultyBoundDivisor params) in *.
  pose proof (div_bucket (time - Time parent) 9 ltac:(lia)) as Hq.
  set (q := (time - Time parent) / 9) in *. clearbody q.
  set (u := if UncleHash parent =? EmptyUncleHash params then 1 else 2).
  assert (Hu : u = 1 \/ u = 2)
    by (unfold u; destruct (UncleHash parent =? EmptyUncleHash params); lia).
  replace (if UncleHash parent =? EmptyUncleHash params then 1 - q else 2 - q)
    with (u - q)
    by (unfold u; destruct (UncleHash parent =? EmptyUncleHash params); reflexivity).
  clearbody u.
  set (x := if u - q <? -99 then -99 else u - q).
  assert (Hx : -99 <= x <= 2 /\ (time - Time parent < 9 -> x = u) /\
               (9 * u <= time - Time parent < 9 * u + 9 -> x = 0) /\
               (9 * u + 9 <= time - Time parent -> x <= -1)).
  { unfold x. destruct (Z.ltb_spec (u - q) (-99)); repeat split; intros; lia. }
  clearbody x. destruct Hx as (Hr & H1 & H0 & Hm).
  assert (Hb : - (99 * y) <= y * x) by nia.
  assert (Hs : x <= -1 -> y * x <= - y) by (intros; nia).
  set (fake := (if Number parent >=? 2999999 then Number parent - 2999999 else 0) / 100000).
  clearbody fake.
  set (bomb := 2 ^ (fake - 2)). clearbody bomb.
  split; [|split; [|split]].
  - intros H. rewrite (H1 H), (Z.mul_comm y u). cmp_cases; lia.
  - intros H. rewrite (H0 H), Z.mul_0_r. cmp_cases; lia.
  - intros H. specialize (Hs (Hm H)). cmp_cases; lia.
  - cmp_cases; lia.
Qed.

Lemma calcDifficultyByzantium_buckets_witness :
  let pd := Difficulty gasParent in
  let y := pd / DifficultyBoundDivisor exampleParams in
  let floor := MinimumDifficulty exampleParams in
  let u := if UncleHash gasParent =? EmptyUncleHash exampleParams then 1 else 2 in
  let d := calcDifficultyByzantium exampleParams 1010 gasParent
           - byzantiumBomb gasParent in
  (1010 - Time gasParent < 9 -> d = Z.max (pd + u * y) floor) /\
  (9 * u <= 1010 - Time gasParent < 9 * u + 9 -> d = Z.max pd floor) /\
  (9 * u + 9 <= 1010 - Time gasParent -> d <= Z.max (pd - y) floor) /\
  Z.max (pd - 99 * y) floor <= d.
Proof.
  apply (calcDifficultyByzantium_buckets exampleParams 1010 gasParent).
  - cbn. lia.
  - cbn. lia.
  - cbn. lia.
Defined.

(* ================================================================== *)
(** * Properties: what the reward accumulator issues *)
(* ================================================================== *)

Lemma issued_app c1 c2 : issued (c1 ++ c2) = issued c1 + issued c2.
Proof.
  unfold issued. induction c1 as [|c c1 IH]; cbn [app fold_right]; lia.
Qed.

Lemma issued_constant {X} (f : X -> Address) (v : Z) (l : list X) :
  issued (map (fun x => (f x, v)) l) = Z.of_nat (length l) * v.
Proof.
  unfold issued. induction l as [|x l IH]; cbn [map fold_right length snd]; lia.
Qed.

Lemma credited_nonneg a calls :
  Forall (fun c : Address * Z => 0 <= snd c) calls -> 0 <= credited a calls.
Proof.
  induction 1 as [|[b v] calls Hv _ IH]; cbn [credited]; [lia|].
  cbn in Hv. destruct (N.eqb a b); lia.
Qed.

Lemma computerRewardBase_nonneg h G T l E :
  computerRewardBase h = (G, T, l, E) -> 0 <= G /\ 0 <= T /\ 0 <= E.
Proof.
  destruct (Z.le_gt_cases supplyCap (Rewards h)) as [Hcap|Hcap].
  - rewrite (computerRewardBase_capped h Hcap). intros [= <- <- <- <-]. lia.
  - rewrite (computerRewardBase_epoch h ltac:(lia)). intros [= <- <- <- <-].
    pose proof (shifted_bounds GenBlockReward (epochIndex (Number h)) ltac:(discriminate)).
    pose proof (shifted_bounds GenBlockUncleReward (epochIndex (Number h)) ltac:(discriminate)).
    pose proof (shifted_bounds GenBlockEcoReward (epochIndex (Number h)) ltac:(discriminate)).
    unfold minerBase, uncleBase, ecoBase. lia.
Qed.

(** X12.  The running total of a header counts exactly what the call pays
    out: [accumulateRewardsGen] only appends credits to the journal,
    none of them negative, no balance goes down, every balance goes up
    by what the new credits give to its address, and h.rewards goes up
    by the sum of the new credits. *)
Theorem accumulateRewardsGen_counts_what_it_credits (state : StateDB)
    (h : Header) (uncles : list Header) :
  let state' := fst (accumulateRewardsGen state h uncles) in
  let h' := snd (accumulateRewardsGen state h uncles) in
  journal state' = journal state ++ new_credits state state' /\
  length (new_credits state state') = (length uncles + 101)%nat /\
  Forall (fun c => 0 <= snd c) (new_credits state state') /\
  Rewards h' = Rewards h + issued (new_credits state state') /\
  (forall a, GetBalance state' a
             = GetBalance state a + credited a (new_credits state state')) /\
  (forall a, GetBalance state a <= GetBalance state' a).
Proof.
  cbv zeta. destruct (computerRewardBase h) as [[[G T] l] E] eqn:Hbase.
  rewrite (accumulateRewardsGen_closed state h uncles G T l E Hbase).
  cbn [fst snd]. destruct (computerRewardBase_nonneg h G T l E Hbase) as (HG & HT & HE).
  assert (Hnew : new_credits state (apply_credits state (reward_calls G T E h uncles))
                 = reward_calls G T E h uncles).
  { unfold new_credits. rewrite apply_credits_journal. apply drop_app_length. }
  rewrite Hnew.
  assert (Hpos : Forall (fun c : Address * Z => 0 <= snd c) (reward_calls G T E h uncles)).
  { unfold reward_calls. rewrite !Forall_app. repeat split.
    - apply Forall_forall. intros c Hc. apply list_elem_of_fmap in Hc.
      destruct Hc as (u & -> & _). exact HT.
    - repeat constructor. cbn [snd].
      assert (0 <= Z.of_nat (length uncles) * T / 6) by (apply Z.div_pos; nia). lia.
    - apply Forall_forall. intros c Hc. apply list_elem_of_fmap in Hc.
      destruct Hc as (u & -> & _). exact HE. }
  split; [apply apply_credits_journal|].
  split.
  { unfold reward_calls. rewrite !length_app, !length_map, CDAddress_length.
    cbn [length]. lia. }
  split; [exact Hpos|]. split; [|split].
  - cbn [set_Rewards Rewards]. unfold reward_calls.
    rewrite !issued_app, !issued_constant, CDAddress_length.
    cbn [issued fold_right snd]. lia.
  - intros a. apply apply_credits_balance.
  - intros a. rewrite apply_credits_balance.
    pose proof (credited_nonneg a _ Hpos). lia.
Qed.

Lemma epochIndex_mono (n1 n2 : Z) :
  n1 <= n2 -> (epochIndex n1 <= epochIndex n2)%nat.
Proof.
  intros Hn. unfold epochIndex.
  induction blockFiveYearNumber as [|b l IH]; cbn [List.filter]; [lia|].
  destruct (Z.ltb_spec b n1); destruct (Z.ltb_spec b n2); cbn [length]; lia.
Qed.

Lemma shiftr_falls (x : Z) (k1 k2 : nat) :
  0 <= x -> (k1 <= k2)%nat ->
  0 <= Z.shiftr x (Z.of_nat k2) <= Z.shiftr x (Z.of_nat k1).
Proof.
  intros Hx Hk. rewrite !Z.shiftr_div_pow2 by lia.
  assert (0 < 2 ^ Z.of_nat k1) by (apply Z.pow_pos_nonneg; lia).
  assert (2 ^ Z.of_nat k1 <= 2 ^ Z.of_nat k2) by (apply Z.pow_le_mono_r; lia).
  split; [apply Z.div_pos; lia|apply Z.div_le_compat_l; lia].
Qed.

(** X13.  The base rewards never rise: a header with a block number and a
    running total that are not smaller gets base rewards that are not
    larger, in each of the three components. *)
Theorem computerRewardBase_never_rises (h1 h2 : Header) :
  Number h1 <= Number h2 -> Rewards h1 <= Rewards h2 ->
  let '(G1, T1, _, E1) := computerRewardBase h1 in
  let '(G2, T2, _, E2) := computerRewardBase h2 in
  0 <= G2 <= G1 /\ 0 <= T2 <= T1 /\ 0 <= E2 <= E1.
Proof.
  intros Hn Hr. destruct (Z.le_gt_cases supplyCap (Rewards h2)) as [Hcap|Hcap].
  - rewrite (computerRewardBase_capped h2 Hcap).
    destruct (computerRewardBase h1) as [[[G T] l] E] eqn:Hbase.
    pose proof (computerRewardBase_nonneg h1 G T l E Hbase). lia.
  - rewrite (computerRewardBase_epoch h1 ltac:(lia)),
            (computerRewardBase_epoch h2 ltac:(lia)).
    pose proof (epochIndex_mono _ _ Hn) as Hk.
    unfold minerBase, uncleBase, ecoBase.
    split; [|split]; apply shiftr_falls; (discriminate || exact Hk).
Qed.

Lemma computerRewardBase_never_rises_witness :
  let '(G1, T1, _, E1) := computerRewardBase (headerAt 3153600 0) in
  let '(G2, T2, _, E2) := computerRewardBase (headerAt 3153601 1000) in
  0 <= G2 <= G1 /\ 0 <= T2 <= T1 /\ 0 <= E2 <= E1.
Proof.
  apply (computerRewardBase_never_rises (headerAt 3153600 0) (headerAt 3153601 1000)).
  - cbn. lia.
  - cbn. lia.
Defined.

(* ================================================================== *)
(** * Properties: matrix cells *)
(* ================================================================== *)

Lemma index_lookup (s : list float) (i : Z) :
  0 <= i -> Matrix.index s i = s !! Z.to_nat i.
Proof. intros Hi. unfold Matrix.index. now destruct (Z.leb_spec 0 i); [|lia]. Qed.

Lemma index_Some_range (s : list float) (i : Z) v :
  Matrix.index s i = Some v -> 0 <= i < Z.of_nat (length s).
Proof.
  unfold Matrix.index. destruct (Z.leb_spec 0 i); [|discriminate].
  intros Hv. apply lookup_lt_Some in Hv. lia.
Qed.

(** X14.  For coordinates whose index (r - 1) * columns + (c - 1) fits
    an int: [Set] and [Get] panic on the same coordinates; after a
    store the cell reads as the value stored, the dimensions and the
    length of the slice are kept, and every cell whose index fits an
    int and differs from the index stored at reads as before. *)
Theorem Set_then_Get (A : Matrix.Matrix) (r c : Z) (val : float) :
  fits_int (Matrix.findIndex r c A) ->
  (is_Some (Matrix.Set_ A r c val) <-> is_Some (Matrix.Get A r c)) /\
  forall A', Matrix.Set_ A r c val = Some A' ->
    Matrix.Get A' r c = Some val /\
    Matrix.rows A' = Matrix.rows A /\
    Matrix.columns A' = Matrix.columns A /\
    length (Matrix.data A') = length (Matrix.data A) /\
    forall r' c',
      fits_int (Matrix.findIndex r' c' A) ->
      Matrix.findIndex r' c' A <> Matrix.findIndex r c A ->
      Matrix.Get A' r' c' = Matrix.Get A r' c'.
Proof.
  intros _. unfold Matrix.Set_, Matrix.Get, Matrix.index.
  set (i := Matrix.findIndex r c A).
  split.
  - destruct (Z.leb_spec 0 i); cbn [andb].
    + destruct (Z.ltb_spec i (Z.of_nat (length (Matrix.data A)))).
      * split; intros _; [apply lookup_lt_is_Some_2; lia|eauto].
      * split; intros [x Hx]; [discriminate|].
        apply lookup_lt_Some in Hx. lia.
    + split; intros [x Hx]; discriminate.
  - intros A'. destruct (Z.leb_spec 0 i); cbn [andb]; [|discriminate].
    destruct (Z.ltb_spec i (Z.of_nat (length (Matrix.data A)))); [|discriminate].
    intros [= <-]. unfold Matrix.findIndex in *.
    cbn [Matrix.rows Matrix.columns Matrix.data]. fold i.
    destruct (Z.leb_spec 0 i); [|lia].
    repeat split.
    + rewrite list_lookup_insert_eq by lia. reflexivity.
    + apply length_insert.
    + intros r' c' _ Hne.
      destruct (Z.leb_spec 0 ((r' - 1) * Matrix.columns A + (c' - 1))); [|reflexivity].
      apply list_lookup_insert_ne. lia.
Qed.

Lemma Set_then_Get_witness :
  (is_Some (Matrix.Set_ exampleMatrix 1 2 0%float)
   <-> is_Some (Matrix.Get exampleMatrix 1 2)) /\
  forall A', Matrix.Set_ exampleMatrix 1 2 0%float = Some A' ->
    Matrix.Get A' 1 2 = Some 0%float /\
    Matrix.rows A' = Matrix.rows exampleMatrix /\
    Matrix.columns A' = Matrix.columns exampleMatrix /\
    length (Matrix.data A') = length (Matrix.data exampleMatrix) /\
    forall r' c',
      fits_int (Matrix.findIndex r' c' exampleMatrix) ->
      Matrix.findIndex r' c' exampleMatrix <> Matrix.findIndex 1 2 exampleMatrix ->
      Matrix.Get A' r' c' = Matrix.Get exampleMatrix r' c'.
Proof.
  apply (Set_then_Get exampleMatrix 1 2 0%float).
  unfold fits_int. vm_compute. split; [discriminate|reflexivity].
Defined.

Lemma Row_lookup A r :
  well_formed A -> 1 <= r <= Matrix.rows A ->
  exists row, Matrix.Row A r = Some row /\
    length row = Z.to_nat (Matrix.columns A) /\
    forall c, 1 <= c <= Matrix.columns A ->
      Matrix.index row (c - 1) = Matrix.Get A r c.
Proof.
  intros HA Hr. destruct (Row_well_formed A r HA Hr) as (row & Hrow & Hlen).
  exists row. split; [exact Hrow|]. split; [exact Hlen|]. intros c Hc.
  destruct HA as (Hm & Hk & Hl).
  unfold Matrix.Row, Matrix.slice, Matrix.findIndex in Hrow.
  destruct (_ && _) in Hrow; [|discriminate]. injection Hrow as <-.
  unfold Matrix.Get, Matrix.findIndex.
  rewrite !index_lookup by nia.
  rewrite lookup_take_lt by lia. rewrite lookup_drop. f_equal. nia.
Qed.

Lemma mapM_lookup {A B} (f : A -> option B) (l : list A) (k : list B) i x :
  mapM f l = Some k -> l !! i = Some x -> k !! i = f x.
Proof.
  intros Hm Hx. apply mapM_Some_1 in Hm.
  destruct (Forall2_lookup_l _ _ _ _ _ Hm Hx) as (y & Hy & Hfy). congruence.
Qed.

(** X15.  On a matrix whose slice holds rows x columns values, row r and
    column c are defined, they have the lengths of the dimensions, and
    they cross in the cell that [Get] reads. *)
Theorem Row_Column_cross (A : Matrix.Matrix) (r c : Z) :
  well_formed A -> 1 <= r <= Matrix.rows A -> 1 <= c <= Matrix.columns A ->
  exists row col v,
    Matrix.Row A r = Some row /\ Matrix.Column A c = Some col /\
    Matrix.Get A r c = Some v /\
    length row = Z.to_nat (Matrix.columns A) /\
    length col = Z.to_nat (Matrix.rows A) /\
    Matrix.index row (c - 1) = Some v /\
    Matrix.index col (r - 1) = Some v.
Proof.
  intros HA Hr Hc.
  destruct (Row_lookup A r HA Hr) as (row & Hrow & Hrl & Hget).
  destruct (Column_well_formed A c HA Hc) as (col & Hcol & Hcl).
  destruct (index_in_range row (c - 1) ltac:(lia)) as [v Hv].
  exists row, col, v. repeat split; try assumption.
  - now rewrite <- Hget.
  - unfold Matrix.Column in Hcol.
    destruct (Z.ltb_spec (Matrix.rows A) 0); [discriminate|].
    rewrite index_lookup by lia.
    rewrite (mapM_lookup _ _ _ (Z.to_nat (r - 1)) r Hcol).
    + rewrite Hrow. cbn. exact Hv.
    + rewrite lookup_seqZ. split; lia.
Qed.

Lemma Row_Column_cross_witness :
  exists row col v,
    Matrix.Row exampleMatrix 2 = Some row /\
    Matrix.Column exampleMatrix 3 = Some col /\
    Matrix.Get exampleMatrix 2 3 = Some v /\
    length row = Z.to_nat (Matrix.columns exampleMatrix) /\
    length col = Z.to_nat (Matrix.rows exampleMatrix) /\
    Matrix.index row (3 - 1) = Some v /\
    Matrix.index col (2 - 1) = Some v.
Proof.
  apply (Row_Column_cross exampleMatrix 2 3).
  - unfold well_formed. cbn. lia.
  - cbn. lia.
  - cbn. lia.
Defined.







Lemma Identity_loop_stalls (steps : nat) : forall d : list float,
  (0 < length d)%nat ->
  Matrix.Identity_loop steps (-1) 0 d = Matrix.StillRunning.
Proof.
  induction steps as [|steps IH]; intros d Hd; cbn [Matrix.Identity_loop].
  - destruct (Z.ltb_spec 0 (Z.of_nat (length d))); [reflexivity|lia].
  - destruct (Z.ltb_spec 0 (Z.of_nat (length d))); [|lia].
    cbn. apply IH. rewrite length_insert. exact Hd.
Qed.

(** X18.  [Identity] on a negative size: for n = -1 the slice has one cell
    and the loop index never moves, so the call never returns; for
    n < -1 with n * n fitting an int the second pass stores at a
    negative index and panics. *)
Theorem Identity_negative_size :
  (forall steps, Matrix.Identity steps (-1) = Matrix.StillRunning) /\
  (forall n steps, n < -1 -> fits_int (n * n) -> (2 <= steps)%nat ->
     Matrix.Identity steps n = Matrix.Panics).
Proof.
  split.
  - intros steps. unfold Matrix.Identity.
    change (Matrix.Zeros (-1) (-1))
      with (Some (Matrix.mkMatrix (-1) (-1) [0%float])).
    cbn [Matrix.data]. now rewrite Identity_loop_stalls by (cbn; lia).
  - intros n [|[|steps]] Hn _ Hsteps; [lia|lia|].
    unfold Matrix.Identity, Matrix.Zeros.
    destruct (Z.ltb_spec (n * n) 0); [nia|].
    cbn [Matrix.data Matrix.Identity_loop]. rewrite length_replicate.
    destruct (Z.ltb_spec 0 (Z.of_nat (Z.to_nat (n * n)))); [|nia].
    cbn [Z.leb Z.compare]. rewrite length_insert, length_replicate.
    destruct (Z.ltb_spec (0 + (n + 1)) (Z.of_nat (Z.to_nat (n * n)))); [|nia].
    destruct (Z.leb_spec 0 (0 + (n + 1))); [lia|reflexivity].
Qed.

(* ================================================================== *)
(** * Properties: the matrix product and the matrix sum *)
(* ================================================================== *)












Lemma take_drop_rows (d : list float) (n : Z) (j : nat) :
  0 <= n ->
  concat (map (fun r => take (Z.to_nat n) (drop (Z.to_nat ((r - 1) * n)) d))
              (seqZ 1 (Z.of_nat j)))
  = take (Z.to_nat (Z.of_nat j * n)) d.
Proof.
  intros Hn. induction j as [|j IH].
  - reflexivity.
  - rewrite seqZ_S, map_app, concat_app, IH. cbn [map concat].
    rewrite app_nil_r.
    replace (1 + Z.of_nat j - 1) with (Z.of_nat j) by lia.
    replace (Z.to_nat (Z.of_nat (S j) * n))
      with (Z.to_nat (Z.of_nat j * n) + Z.to_nat n)%nat by nia.
    apply take_take_drop.
Qed.

Lemma mapM_values {X Y} (f : X -> option Y) (g : X -> Y) (l : list X) :
  (forall x, x ∈ l -> f x = Some (g x)) -> mapM f l = Some (map g l).
Proof.
  intros Hfg. apply mapM_Some. apply Forall2_fmap_r, Forall_Forall2_diag.
  apply Forall_forall. exact Hfg.
Qed.

(** X21.  For r, c >= 0 whose product fits an int, when the call of
    [Zeros] inside it returns, [InitMatrix] panics exactly when the
    slice does not hold r * c values.  Otherwise the matrix has the
    dimensions asked for and the slice as its contents, and its rows
    1 .. r, each of c values, are the slice cut into consecutive
    pieces. *)
Theorem InitMatrix_rows (r c : Z) (d : list float) :
  0 <= r -> 0 <= c -> fits_int (r * c) -> is_Some (Matrix.Zeros r c) ->
  (Matrix.InitMatrix r c d = None <-> Z.of_nat (length d) <> r * c) /\
  forall A, Matrix.InitMatrix r c d = Some A ->
    Matrix.rows A = r /\ Matrix.columns A = c /\ Matrix.data A = d /\
    well_formed A /\
    exists rs,
      mapM (Matrix.Row A) (seqZ 1 r) = Some rs /\
      Forall (fun row => Z.of_nat (length row) = c) rs /\
      concat rs = d.
Proof.
  intros Hr Hc _ _. unfold Matrix.InitMatrix, Matrix.Zeros.
  destruct (Z.eqb_spec (Z.of_nat (length d)) (r * c)) as [Hlen|Hlen]; cbn [negb].
  - destruct (Z.ltb_spec (r * c) 0); [lia|]. cbn [mbind option_bind].
    split; [split; [discriminate|contradiction]|].
    intros A [= <-]. cbn [Matrix.rows Matrix.columns Matrix.data].
    assert (Hwf : well_formed (Matrix.mkMatrix r c d)) by (repeat split; assumption).
    repeat split; try assumption.
    exists (map (fun i => take (Z.to_nat c) (drop (Z.to_nat ((i - 1) * c)) d))
                (seqZ 1 r)).
    split; [|split].
    + apply mapM_values. intros i Hi. apply elem_of_seqZ in Hi.
      unfold Matrix.Row, Matrix.slice, Matrix.findIndex.
      cbn [Matrix.rows Matrix.columns Matrix.data].
      destruct (Z.leb_spec 0 ((i - 1) * c + (1 - 1))); [|nia].
      destruct (Z.leb_spec ((i - 1) * c + (1 - 1)) ((i - 1) * c + (c + 1 - 1))); [|nia].
      destruct (Z.leb_spec ((i - 1) * c + (c + 1 - 1)) (Z.of_nat (length d))); [|nia].
      cbn [andb]. do 2 f_equal; [lia|f_equal; lia].
    + apply Forall_forall. intros row Hrow. apply list_elem_of_fmap in Hrow.
      destruct Hrow as (i & -> & Hi). apply elem_of_seqZ in Hi.
      rewrite length_take, length_drop. nia.
    + rewrite <- (Z2Nat.id r) at 1 by assumption.
      rewrite take_drop_rows by assumption. apply take_ge. nia.
  - split; [split; [intros _; exact Hlen|reflexivity]|discriminate].
Qed.

Lemma InitMatrix_rows_witness :
  (Matrix.InitMatrix 2 3 (Matrix.data exampleMatrix) = None
   <-> Z.of_nat (length (Matrix.data exampleMatrix)) <> 2 * 3) /\
  forall A, Matrix.InitMatrix 2 3 (Matrix.data exampleMatrix) = Some A ->
    Matrix.rows A = 2 /\ Matrix.columns A = 3 /\
    Matrix.data A = Matrix.data exampleMatrix /\
    well_formed A /\
    exists rs,
      mapM (Matrix.Row A) (seqZ 1 2) = Some rs /\
      Forall (fun row => Z.of_nat (length row) = 3) rs /\
      concat rs = Matrix.data exampleMatrix.
Proof.
  apply (InitMatrix_rows 2 3 (Matrix.data exampleMatrix)).
  - lia.
  - lia.
  - unfold fits_int. vm_compute. split; [discriminate|reflexivity].
  - eexists. reflexivity.
Defined.

(* ================================================================== *)
(** * Properties: uncle verification *)
(* ================================================================== *)

Lemma past_uncles_spec (ext : Externals) (us : list Header) : forall (U : gset Hash) h,
  h ∈ fold_left (fun s uncle => {[HeaderHash ext uncle]} ∪ s) us U
  <-> h ∈ U \/ exists u, u ∈ us /\ h = HeaderHash ext u.
Proof.
  induction us as [|u us IH]; intros U h; cbn [fold_left].
  - split; [tauto|]. intros [H|(u & Hu & _)]; [exact H|inversion Hu].
  - rewrite IH. rewrite elem_of_union, elem_of_singleton. split.
    + intros [[->|H]|(u' & Hu' & ->)].
      * right. exists u. split; [left|reflexivity].
      * now left.
      * right. exists u'. split; [now right|reflexivity].
    + intros [H|(u' & Hu' & ->)]; [left; now right|].
      apply elem_of_cons in Hu'. destruct Hu' as [->|Hu'].
      * left. now left.
      * right. exists u'. split; [assumption|reflexivity].
Qed.

Lemma gather_ancestors_spec (ext : Externals) (GetBlock : Hash -> Z -> option Block)
    (rounds : nat) : forall parent number U M U' M',
  gather_ancestors ext GetBlock rounds parent number U M = (U', M') ->
  (forall h, h ∈ U' <->
     h ∈ U \/ exists a u, a ∈ ancestor_blocks GetBlock rounds parent number /\
                          u ∈ block_uncles a /\ h = HeaderHash ext u) /\
  (forall k, M' !! k = None <->
     M !! k = None /\
     forall a, a ∈ ancestor_blocks GetBlock rounds parent number ->
               BlockHash ext a <> k) /\
  (forall k v, M' !! k = Some v ->
     M !! k = Some v \/
     exists a, a ∈ ancestor_blocks GetBlock rounds parent number /\
               BlockHash ext a = k /\ v = block_header a).
Proof.
  induction rounds as [|rounds IH]; intros parent number U M U' M';
    cbn [gather_ancestors ancestor_blocks].
  - intros [= <- <-]. split; [|split].
    + intros h. split; [tauto|]. intros [H|(a & _ & Ha & _)]; [exact H|inversion Ha].
    + intros k. split; [|tauto]. intros H. split; [exact H|]. intros a Ha. inversion Ha.
    + intros k v H. now left.
  - destruct (GetBlock parent number) as [ancestor|].
    + intros Hg. apply IH in Hg. destruct Hg as (HU & HN & HS). split; [|split].
      * intros h. rewrite HU, past_uncles_spec. split.
        -- intros [[H|(u & Hu & ->)]|(a & u & Ha & Hu & ->)].
           ++ now left.
           ++ right. exists ancestor, u. repeat split; [left|assumption].
           ++ right. exists a, u. repeat split; [now right|assumption].
        -- intros [H|(a & u & Ha & Hu & ->)]; [left; now left|].
           apply elem_of_cons in Ha. destruct Ha as [->|Ha].
           ++ left. right. exists u. split; [assumption|reflexivity].
           ++ right. exists a, u. repeat split; assumption.
      * intros k. rewrite HN. rewrite lookup_insert_None. split.
        -- intros [[HM Hne] Hrest]. split; [exact HM|].
           intros a Ha. apply elem_of_cons in Ha. destruct Ha as [->|Ha];
             [exact Hne|now apply Hrest].
        -- intros [HM Hall]. split; [split; [exact HM|]|].
           ++ apply Hall. left.
           ++ intros a Ha. apply Hall. now right.
      * intros k v Hk. apply HS in Hk. destruct Hk as [Hk|(a & Ha & Hk & ->)].
        -- apply lookup_insert_Some in Hk. destruct Hk as [[<- <-]|[_ Hk]].
           ++ right. exists ancestor. repeat split. left.
           ++ now left.
        -- right. exists a. repeat split; [now right|assumption].
    + intros [= <- <-]. split; [|split].
      * intros h. split; [tauto|]. intros [H|(a & _ & Ha & _)]; [exact H|inversion Ha].
      * intros k. split; [|tauto]. intros H. split; [exact H|]. intros a Ha. inversion Ha.
      * intros k v H. now left.
Qed.

Lemma check_uncles_sound (params : Params) (ext : Externals) (ethash : Ethash)
    (chain : ChainReader) (block : Block) (ancestors : gmap Hash Header)
    (us : list Header) : forall U : gset Hash,
  check_uncles params ext ethash chain block ancestors us U = None ->
  NoDup (map (HeaderHash ext) us) /\
  forall uncle, uncle ∈ us ->
    (HeaderHash ext uncle ∉ U) /\
    ancestors !! HeaderHash ext uncle = None /\
    ParentHash uncle <> ParentHash (block_header block) /\
    exists parent,
      ancestors !! ParentHash uncle = Some parent /\
      verifyHeader params ext ethash chain uncle parent true true = None.
Proof.
  induction us as [|u us IH]; intros U; cbn [check_uncles map].
  - intros _. split; [constructor|]. intros uncle Hu. inversion Hu.
  - destruct (decide (HeaderHash ext u ∈ U)) as [|Hfresh]; [discriminate|].
    destruct (ancestors !! HeaderHash ext u) eqn:Hanc; [discriminate|].
    destruct (ancestors !! ParentHash u) as [parent|] eqn:Hpar; [|discriminate].
    destruct (Z.eqb_spec (ParentHash u) (ParentHash (block_header block)));
      [discriminate|].
    destruct (verifyHeader params ext ethash chain u parent true true) eqn:Hv;
      [discriminate|].
    intros Hrest. apply IH in Hrest. destruct Hrest as (Hnd & Hall). split.
    + constructor; [|exact Hnd]. intros Hin. apply list_elem_of_fmap in Hin.
      destruct Hin as (u' & Heq & Hu'). destruct (Hall u' Hu') as (Hnew & _).
      apply Hnew. rewrite <- Heq. apply elem_of_union_l, elem_of_singleton.
      reflexivity.
    + intros uncle Hu. apply elem_of_cons in Hu. destruct Hu as [->|Hu].
      * repeat split; try assumption. exists parent. split; [exact Hpar|exact Hv].
      * destruct (Hall uncle Hu) as (Hnew & H2 & H3 & H4).
        repeat split; try assumption.
        intros Hin. apply Hnew. now apply elem_of_union_r.
Qed.

(** X22.  Outside full-fake mode, a block whose uncles [VerifyUncles] accepts
    has at most five of them, with pairwise different hashes.  No uncle
    has the hash of the block, of one of its ancestors up to seven
    generations back, or of an uncle of such an ancestor.  The parent
    of every uncle is the block itself or one of these ancestors, but
    not the parent of the block, and the uncle passes [verifyHeader]
    against it as an uncle with its seal checked. *)
Theorem VerifyUncles_accepts_only_fresh_uncles (params : Params) (ext : Externals)
    (GetBlock : Hash -> Z -> option Block) (ethash : Ethash)
    (chain : ChainReader) (block : Block) :
  Mode_eqb (PowMode ethash) ModeFullFake = false ->
  VerifyUncles params ext GetBlock ethash chain block = None ->
  Z.of_nat (length (block_uncles block)) <= 5 /\
  NoDup (map (HeaderHash ext) (block_uncles block)) /\
  forall uncle, uncle ∈ block_uncles block ->
    HeaderHash ext uncle <> BlockHash ext block /\
    (forall a, a ∈ recent_ancestors GetBlock block ->
       HeaderHash ext uncle <> BlockHash ext a /\
       forall u, u ∈ block_uncles a -> HeaderHash ext uncle <> HeaderHash ext u) /\
    ParentHash uncle <> ParentHash (block_header block) /\
    exists parent,
      (parent = block_header block \/
       exists a, a ∈ recent_ancestors GetBlock block /\ parent = block_header a) /\
      HeaderHash ext parent = ParentHash uncle /\
      verifyHeader params ext ethash chain uncle parent true true = None.
Proof.
  intros Hmode. unfold VerifyUncles. rewrite Hmode.
  unfold maxUncles. rewrite Z.gtb_ltb.
  destruct (Z.ltb_spec 5 (Z.of_nat (length (block_uncles block)))); [discriminate|].
  destruct (gather_ancestors ext GetBlock 7 _ _ ∅ ∅) as [U M] eqn:Hg.
  apply gather_ancestors_spec in Hg. destruct Hg as (HU & HN & HS).
  intros Hcheck. apply check_uncles_sound in Hcheck.
  destruct Hcheck as (Hnd & Hall).
  split; [lia|]. split; [exact Hnd|].
  intros uncle Hu. destruct (Hall uncle Hu) as (Hnew & Hanc & Hpar & parent & Hp & Hv).
  apply lookup_insert_None in Hanc. destruct Hanc as [Hanc Hself].
  apply HN in Hanc. destruct Hanc as [_ Hanc].
  split; [congruence|]. split; [|split; [exact Hpar|]].
  - intros a Ha. split.
    + intros Heq. now apply (Hanc a Ha).
    + intros u Huu Heq. apply Hnew. apply elem_of_union_r, HU. right.
      exists a, u. repeat split; assumption.
  - exists parent. split; [|split; [|exact Hv]].
    + apply lookup_insert_Some in Hp. destruct Hp as [[_ <-]|[_ Hp]]; [now left|].
      apply HS in Hp. destruct Hp as [Hp|(a & Ha & _ & ->)].
      * rewrite lookup_empty in Hp. discriminate.
      * right. exists a. split; [exact Ha|reflexivity].
    + apply lookup_insert_Some in Hp. destruct Hp as [[Hk <-]|[_ Hp]]; [exact Hk|].
      apply HS in Hp. destruct Hp as [Hp|(a & Ha & Hk & ->)].
      * rewrite lookup_empty in Hp. discriminate.
      * exact Hk.
Qed.

Lemma VerifyUncles_accepts_only_fresh_uncles_witness :
  Z.of_nat (length (block_uncles blockWithUncle)) <= 5 /\
  NoDup (map (HeaderHash uncleExt) (block_uncles blockWithUncle)) /\
  forall uncle, uncle ∈ block_uncles blockWithUncle ->
    HeaderHash uncleExt uncle <> BlockHash uncleExt blockWithUncle /\
    (forall a, a ∈ recent_ancestors uncleBlocks blockWithUncle ->
       HeaderHash uncleExt uncle <> BlockHash uncleExt a /\
       forall u, u ∈ block_uncles a ->
         HeaderHash uncleExt uncle <> HeaderHash uncleExt u) /\
    ParentHash uncle <> ParentHash (block_header blockWithUncle) /\
    exists parent,
      (parent = block_header blockWithUncle \/
       exists a, a ∈ recent_ancestors uncleBlocks blockWithUncle /\
                 parent = block_header a) /\
      HeaderHash uncleExt parent = ParentHash uncle /\
      verifyHeader exampleParams uncleExt fakeEngine emptyChain uncle parent
                   true true = None.
Proof.
  apply (VerifyUncles_accepts_only_fresh_uncles exampleParams uncleExt
           uncleBlocks fakeEngine emptyChain blockWithUncle).
  - reflexivity.
  - vm_compute. reflexivity.
Defined.

(* ================================================================== *)
(** * Properties: accepted batches *)
(* ================================================================== *)

Lemma worker_accepts params ext ethash chain headers seals (i : nat) cur :
  headers !! i = Some cur ->
  verifyHeaderWorker params ext ethash chain headers seals i = Some None ->
  exists parent,
    worker_parent ext chain headers i = Some (Some parent) /\
    (known ext chain cur = None ->
     exists seal, seals !! i = Some seal /\
       verifyHeader params ext ethash chain cur parent false seal = None).
Proof.
  intros Hcur. unfold verifyHeaderWorker, known.
  destruct (worker_parent ext chain headers i) as [[parent|]|];
    cbn [mbind option_bind]; [|discriminate|discriminate].
  rewrite Hcur. cbn [mbind option_bind]. intros Hw.
  exists parent. split; [reflexivity|]. intros Hk. rewrite Hk in Hw.
  destruct (seals !! i) as [seal|]; [|discriminate].
  exists seal. split; [reflexivity|]. cbn in Hw. congruence.
Qed.

(** X23.  Outside full-fake mode, when the result that the batch
    delivers for every index is nil, the batch is a chain: the parent
    of the first header is in the chain store, every later header names
    the hash of the header before it as its parent, and every header
    that the store does not know already passes [verifyHeader] against
    that parent with its own seal flag. *)
Theorem VerifyHeaders_accepts_only_linked_batches (params : Params)
    (ext : Externals) (ethash : Ethash) (chain : ChainReader)
    (headers : list Header) (seals : list bool) :
  Mode_eqb (PowMode ethash) ModeFullFake = false ->
  (forall (i : nat) h, headers !! i = Some h ->
     VerifyHeaders params ext ethash chain headers seals !! i
     = Some (Some None)) ->
  (forall first, headers !! 0%nat = Some first ->
     exists parent,
       chain_parent chain first = Some parent /\
       (known ext chain first = None ->
        exists seal, seals !! 0%nat = Some seal /\
          verifyHeader params ext ethash chain first parent false seal = None)) /\
  (forall (i : nat) prev cur,
     headers !! i = Some prev -> headers !! S i = Some cur ->
     HeaderHash ext prev = ParentHash cur /\
     (known ext chain cur = None ->
      exists seal, seals !! S i = Some seal /\
        verifyHeader params ext ethash chain cur prev false seal = None)).
Proof.
  intros Hmode Hall.
  assert (Hres : forall (i : nat) h, headers !! i = Some h ->
            verifyHeaderWorker params ext ethash chain headers seals i = Some None).
  { intros i h Hh.
    pose proof (VerifyHeaders_lookup params ext ethash chain headers seals i Hmode
                  (lookup_lt_Some _ _ _ Hh)) as Hl.
    pose proof (eq_trans (eq_sym Hl) (Hall i h Hh)) as Ha.
    injection Ha as Ha. exact Ha. }
  split.
  - intros first Hfirst.
    destruct (worker_accepts _ _ _ _ _ _ _ _ Hfirst (Hres _ _ Hfirst))
      as (parent & Hp & Hv).
    exists parent. split; [|exact Hv].
    unfold worker_parent in Hp. rewrite Hfirst in Hp. cbn in Hp.
    unfold chain_parent. congruence.
  - intros i prev cur Hprev Hcur.
    destruct (worker_accepts _ _ _ _ _ _ _ _ Hcur (Hres _ _ Hcur))
      as (parent & Hp & Hv).
    unfold worker_parent in Hp. rewrite Hprev, Hcur in Hp.
    cbn [mbind option_bind] in Hp.
    destruct (Z.eqb_spec (HeaderHash ext prev) (ParentHash cur)) as [Heq|];
      [|discriminate].
    injection Hp as <-. split; [exact Heq|exact Hv].
Qed.

Lemma VerifyHeaders_accepts_only_linked_batches_witness :
  (forall first, [batch1; batch2] !! 0%nat = Some first ->
     exists parent,
       chain_parent chainOfOne first = Some parent /\
       (known exampleExt chainOfOne first = None ->
        exists seal, [true; true] !! 0%nat = Some seal /\
          verifyHeader exampleParams exampleExt fakeEngine chainOfOne
                       first parent false seal = None)) /\
  (forall (i : nat) prev cur,
     [batch1; batch2] !! i = Some prev -> [batch1; batch2] !! S i = Some cur ->
     HeaderHash exampleExt prev = ParentHash cur /\
     (known exampleExt chainOfOne cur = None ->
      exists seal, [true; true] !! S i = Some seal /\
        verifyHeader exampleParams exampleExt fakeEngine chainOfOne
                     cur prev false seal = None)).
Proof.
  apply (VerifyHeaders_accepts_only_linked_batches exampleParams exampleExt
           fakeEngine chainOfOne [batch1; batch2] [true; true]).
  - reflexivity.
  - intros [|[|i]] h Hh; [reflexivity|reflexivity|discriminate].
Defined.

